(** * ParagonCrisis: the room real-time coordination core

    A shallow embedding of
      - the crisis scheduler ([startRoomScheduler], [stopRoomScheduler],
        [stopAllSchedulers], [listActiveSchedulers], the [tick] closure and
        the event emitter it feeds),
      - the realtime gateway of [socket-server.ts] ([handleJoin],
        [handleLeave], [handleChatMessage], [handleManualEvent], the
        [event:ack] and [disconnect] handlers, [subscribeToScheduler],
        [broadcastParticipants]),
      - the administrative [closeRoomAction],
      - the code generator of the room access form and the head of the room
        page (its parsing of the request and its 404),
    over an explicit process state: the four persisted tables, the
    module-level maps [roomConnections] and [activeSchedulers], the pending
    timeouts of the event loop, the per-socket [socket.data] and the list of
    everything the server emitted.

    Conventions of the embedding.
    - In [run] every handler body runs as one atomic step: the handlers are
      [async], and [run] covers the schedules in which each handler reaches
      its end before the next one starts. [handleJoin] is also given in two
      halves, cut at the [await] between its [findFirst] and its upsert, and
      [schedule] runs schedules in which joins overlap there.
    - Row identifiers are generated by the store; they are modelled as the
      successive values of a counter, so they are fresh and never falsy.
    - [new Date()] and the column defaults [CURRENT_TIMESTAMP] read the clock
      of the step's environment; [Math.random()] reads its random samples. *)

From Stdlib Require Import NArith Ascii String.
From stdpp Require Import gmap strings list fin_maps sorting.

Local Open Scope string_scope.

(** ** JavaScript strings and truthiness *)

Module Js.

(** [c.toUpperCase()] on the ASCII range; bytes above 127 (the UTF-8
    encoding of other letters) are left as they are, where
    [String.prototype.toUpperCase] also maps letters outside ASCII: the
    embedding is that of the method on ASCII strings. *)
Definition upperAscii (c : ascii) : ascii :=
  let n := nat_of_ascii c in
  if ((97 <=? n) && (n <=? 122))%nat then ascii_of_nat (n - 32) else c.

Definition lowerAscii (c : ascii) : ascii :=
  let n := nat_of_ascii c in
  if ((65 <=? n) && (n <=? 90))%nat then ascii_of_nat (n + 32) else c.

Fixpoint mapString (f : ascii -> ascii) (s : string) : string :=
  match s with
  | EmptyString => EmptyString
  | String c rest => String (f c) (mapString f rest)
  end.

Definition toUpperCase : string -> string := mapString upperAscii.
Definition toLowerCase : string -> string := mapString lowerAscii.

(** The ASCII white space removed by [trim()]: tab, line feed, vertical
    tab, form feed, carriage return and space. [trim()] also removes the
    white space outside ASCII (U+00A0, U+FEFF, U+2028, U+2029 and the
    space separators), which is not modelled: the embedding is that of
    the method on ASCII strings. *)
Definition isSpace (c : ascii) : bool :=
  let n := nat_of_ascii c in
  (((9 <=? n) && (n <=? 13)) || (n =? 32))%nat.

Fixpoint trimStart (s : string) : string :=
  match s with
  | EmptyString => EmptyString
  | String c rest => if isSpace c then trimStart rest else s
  end.

Fixpoint trimEnd (s : string) : string :=
  match s with
  | EmptyString => EmptyString
  | String c rest =>
      match trimEnd rest with
      | EmptyString => if isSpace c then EmptyString else String c EmptyString
      | rest' => String c rest'
      end
  end.

Definition trim (s : string) : string := trimEnd (trimStart s).

(** A string is falsy exactly when it is empty. *)
Definition truthy (s : string) : bool :=
  match s with EmptyString => false | _ => true end.

(** [!x] for an optional string property: [undefined] and [""] are
    falsy. *)
Definition truthyOpt (o : option string) : bool :=
  match o with Some s => truthy s | None => false end.

(** [Math.random()] yields a number in [0, 1). A sample [r] stands for the
    fraction [(r mod 2^53) / 2^53]; products with it are exact. *)
Definition randomDen : N := 2 ^ 53.

(** [Math.floor(Math.random() * n)], on the exact product; the code floors
    the double nearest to it, which lies in the same range [0, n). *)
Definition floorRandomTimes (r n : N) : N :=
  ((r mod randomDen) * n / randomDen)%N.

End Js.

(** ** The persisted data model (the four tables of the first migration) *)

(** Modelled from the spec: the generated enum objects [MessageType] and
    [EventSource] of [@/generated/prisma] are not part of the sources; a
    message is of type CHAT, EVENT or SYSTEM, and the source of an event is
    MANUAL or SCHEDULER. *)
Inductive MessageType := CHAT | EVENT | SYSTEM.
Inductive EventSource := MANUAL | SCHEDULER.

(** Modelled from the spec: the generated enum object [CrisisSeverity] of
    [@/generated/prisma] is not part of the sources; the severity is the fixed
    four-value enumeration LOW, MODERATE, HIGH, CRITICAL, and the object has
    exactly these four own properties, each mapped to its own name. *)
Inductive CrisisSeverity := LOW | MODERATE | HIGH | CRITICAL.

#[global] Instance MessageType_eq_dec : EqDecision MessageType.
Proof. solve_decision. Defined.
#[global] Instance EventSource_eq_dec : EqDecision EventSource.
Proof. solve_decision. Defined.
#[global] Instance CrisisSeverity_eq_dec : EqDecision CrisisSeverity.
Proof. solve_decision. Defined.

(** [CrisisSeverity[key]], [None] when [key] is not an own property, so that
    [Object.prototype.hasOwnProperty.call(CrisisSeverity, key)] holds exactly
    when [severityOfKey key] is not [None]. *)
Definition severityOfKey (key : string) : option CrisisSeverity :=
  if String.eqb key "LOW" then Some LOW
  else if String.eqb key "MODERATE" then Some MODERATE
  else if String.eqb key "HIGH" then Some HIGH
  else if String.eqb key "CRITICAL" then Some CRITICAL
  else None.

Definition severityName (v : CrisisSeverity) : string :=
  match v with
  | LOW => "LOW" | MODERATE => "MODERATE" | HIGH => "HIGH"
  | CRITICAL => "CRITICAL"
  end.

Record Room := mkRoom {
  room_id : nat;
  room_code : string;
  room_title : option string;
  room_isActive : bool;
  room_createdAt : nat;
  room_updatedAt : nat
}.

Record Participant := mkParticipant {
  part_id : nat;
  part_roomId : nat;
  part_displayName : string;
  part_role : option string;
  part_isConnected : bool;
  part_joinedAt : nat;
  part_leftAt : option nat
}.

Record Message := mkMessage {
  msg_id : nat;
  msg_roomId : nat;
  msg_authorName : option string;
  msg_type : MessageType;
  msg_content : string;
  msg_metadata : option (string * EventSource);
  msg_createdAt : nat
}.

Record CrisisEvent := mkCrisisEvent {
  ev_id : nat;
  ev_roomId : nat;
  ev_title : string;
  ev_description : string;
  ev_severity : CrisisSeverity;
  ev_source : EventSource;
  ev_scheduledFor : option nat;
  ev_triggeredAt : nat;
  ev_ackAt : option nat;
  ev_payload : option string
}.

(** The store: one list per table in insertion order, and the generator of
    row identifiers. *)
Record Db := mkDb {
  rooms : list Room;
  participants : list Participant;
  messages : list Message;
  crisisEvents : list CrisisEvent;
  nextId : nat
}.

Definition emptyDb : Db := mkDb [] [] [] [] 0.

(** What a step reads from outside: the clock and two random samples. *)
Record Env := mkEnv {
  now : nat;
  rnd1 : N;
  rnd2 : N
}.

(** ** The store's operations, as the handlers call them *)

Module Prisma.

(** [prisma.room.findUnique({ where: { code } })] *)
Definition room_findUnique (code : string) (d : Db) : option Room :=
  List.find (fun r => String.eqb (room_code r) code) (rooms d).

(** [prisma.room.create({ data: { code, title, isActive: true } })] *)
Definition room_create (t : nat) (code : string) (title : string) (d : Db)
  : Room * Db :=
  let r := mkRoom (nextId d) code (Some title) true t t in
  (r, mkDb (rooms d ++ [r]) (participants d) (messages d) (crisisEvents d)
           (S (nextId d))).

Definition deactivate (t : nat) (r : Room) : Room :=
  mkRoom (room_id r) (room_code r) (room_title r) false (room_createdAt r) t.

(** [prisma.room.update({ where: { id }, data: { isActive: false } })];
    [None] stands for the exception raised when no row has this id. *)
Definition room_update_inactive (t : nat) (id : nat) (d : Db) : option Db :=
  match List.find (fun r => Nat.eqb (room_id r) id) (rooms d) with
  | None => None
  | Some _ =>
      Some (mkDb
              (List.map (fun r => if Nat.eqb (room_id r) id
                                  then deactivate t r else r) (rooms d))
              (participants d) (messages d) (crisisEvents d) (nextId d))
  end.

(** [prisma.participant.findFirst({ where: { roomId, displayName } })] *)
Definition participant_findFirst (roomId : nat) (displayName : string)
    (d : Db) : option Participant :=
  List.find (fun p => Nat.eqb (part_roomId p) roomId
                      && String.eqb (part_displayName p) displayName)
            (participants d).

(** The [data] of the update in [handleJoin]. *)
Definition reconnect (role : option string) (p : Participant) : Participant :=
  mkParticipant (part_id p) (part_roomId p) (part_displayName p) role true
                (part_joinedAt p) None.

(** The [data] of the updates in [handleLeave] and [closeRoomAction]. *)
Definition disconnect (t : nat) (p : Participant) : Participant :=
  mkParticipant (part_id p) (part_roomId p) (part_displayName p)
                (part_role p) false (part_joinedAt p) (Some t).

Definition with_participants (ps : list Participant) (d : Db) : Db :=
  mkDb (rooms d) ps (messages d) (crisisEvents d) (nextId d).

(** [prisma.participant.update({ where: { id }, data })]: the row with this
    primary key is rewritten and returned. *)
Definition participant_update (existing : Participant)
    (f : Participant -> Participant) (d : Db) : Participant * Db :=
  (f existing,
   with_participants
     (List.map (fun p => if Nat.eqb (part_id p) (part_id existing)
                         then f p else p) (participants d)) d).

(** [prisma.participant.create({ data: { roomId, displayName, role,
    isConnected: true } })] *)
Definition participant_create (t : nat) (roomId : nat) (displayName : string)
    (role : string) (d : Db) : Participant * Db :=
  let p := mkParticipant (nextId d) roomId displayName (Some role) true t
                         None in
  (p, mkDb (rooms d) (participants d ++ [p]) (messages d) (crisisEvents d)
           (S (nextId d))).

(** [prisma.participant.updateMany({ where, data })] *)
Definition participant_updateMany (where_ : Participant -> bool)
    (f : Participant -> Participant) (d : Db) : Db :=
  with_participants
    (List.map (fun p => if where_ p then f p else p) (participants d)) d.

(** Stable insertion by [joinedAt], for [orderBy: { joinedAt: "asc" }]. *)
Fixpoint insertByJoinedAt (p : Participant) (l : list Participant)
  : list Participant :=
  match l with
  | [] => [p]
  | q :: rest =>
      if (part_joinedAt p <? part_joinedAt q)%nat then p :: l
      else q :: insertByJoinedAt p rest
  end.

Definition sortByJoinedAt (l : list Participant) : list Participant :=
  List.fold_left (fun acc p => insertByJoinedAt p acc) l [].

(** [prisma.participant.findMany({ where: { roomId },
    orderBy: { joinedAt: "asc" } })] *)
Definition participant_findMany (roomId : nat) (d : Db) : list Participant :=
  sortByJoinedAt
    (List.filter (fun p => Nat.eqb (part_roomId p) roomId) (participants d)).

(** [prisma.message.create({ data })]; [createdAt] defaults to the clock. *)
Definition message_create (t : nat) (roomId : nat)
    (authorName : option string) (type : MessageType) (content : string)
    (metadata : option (string * EventSource)) (d : Db) : Message * Db :=
  let m := mkMessage (nextId d) roomId authorName type content metadata t in
  (m, mkDb (rooms d) (participants d) (messages d ++ [m]) (crisisEvents d)
           (S (nextId d))).

(** [prisma.crisisEvent.create({ data })]; [triggeredAt] is given by the
    scheduler path and defaults to the clock on the manual path. *)
Definition crisisEvent_create (roomId : nat) (title description : string)
    (severity : CrisisSeverity) (source : EventSource) (triggeredAt : nat)
    (d : Db) : CrisisEvent * Db :=
  let ev := mkCrisisEvent (nextId d) roomId title description severity source
                          None triggeredAt None None in
  (ev, mkDb (rooms d) (participants d) (messages d) (crisisEvents d ++ [ev])
            (S (nextId d))).

Definition acknowledge (t : nat) (ev : CrisisEvent) : CrisisEvent :=
  mkCrisisEvent (ev_id ev) (ev_roomId ev) (ev_title ev) (ev_description ev)
                (ev_severity ev) (ev_source ev) (ev_scheduledFor ev)
                (ev_triggeredAt ev) (Some t) (ev_payload ev).

(** [prisma.crisisEvent.updateMany({ where: { id: eventId },
    data: { ackAt: new Date() } })] *)
Definition crisisEvent_ack (t : nat) (eventId : nat) (d : Db) : Db :=
  mkDb (rooms d) (participants d) (messages d)
       (List.map (fun ev => if Nat.eqb (ev_id ev) eventId
                            then acknowledge t ev else ev) (crisisEvents d))
       (nextId d).

End Prisma.

(** ** The crisis scheduler *)

(** The payload of the emitter's ["event"]. Indexing [severityOptions] out of
    range would give [undefined], hence the option. *)
Record ScheduledEventPayload := mkPayload {
  pl_roomCode : string;
  pl_severity : option string;
  pl_title : string;
  pl_description : string;
  pl_triggeredAt : nat
}.

(** A pending [setTimeout(tick, delay)]: the room code the [tick] closure
    captured, and the delay. *)
Record Timer := mkTimer {
  timer_room : string;
  timer_delay : N
}.

Record Sched := mkSched {
  activeSchedulers : gmap string nat;   (* room code -> timer handle *)
  timers : gmap nat Timer;              (* the event loop's pending timeouts *)
  nextTimer : nat;                      (* the next fresh handle *)
  emitted : list ScheduledEventPayload  (* every [schedulerEvents.emit] *)
}.

Module Scheduler.

Definition empty : Sched := mkSched ∅ ∅ 0 [].

(** [randomBetween(minMs, maxMs)] on integer bounds. *)
Definition randomBetween (r : N) (minMs maxMs : N) : N :=
  (Js.floorRandomTimes r (maxMs - minMs + 1) + minMs)%N.

Definition severityOptions : list string := ["LOW"; "MODERATE"; "HIGH"].

(** [setTimeout(tick, delay)] for the closure of [roomCode]. *)
Definition setTimeout (roomCode : string) (delay : N) (sc : Sched)
  : nat * Sched :=
  (nextTimer sc,
   mkSched (activeSchedulers sc)
           (<[nextTimer sc := mkTimer roomCode delay]> (timers sc))
           (S (nextTimer sc)) (emitted sc)).

Definition clearTimeout (h : nat) (sc : Sched) : Sched :=
  mkSched (activeSchedulers sc) (delete h (timers sc)) (nextTimer sc)
          (emitted sc).

Definition setActive (roomCode : string) (h : nat) (sc : Sched) : Sched :=
  mkSched (<[roomCode := h]> (activeSchedulers sc)) (timers sc)
          (nextTimer sc) (emitted sc).

Definition startRoomScheduler (r : N) (roomCode : string) (sc : Sched)
  : Sched :=
  match activeSchedulers sc !! roomCode with
  | Some _ => sc
  | None =>
      let intervalMs := randomBetween r 15000 30000 in
      let '(timeout, sc1) := setTimeout roomCode intervalMs sc in
      setActive roomCode timeout sc1
  end.

Definition stopRoomScheduler (roomCode : string) (sc : Sched) : Sched :=
  match activeSchedulers sc !! roomCode with
  | Some scheduler =>
      let sc1 := clearTimeout scheduler sc in
      mkSched (delete roomCode (activeSchedulers sc1)) (timers sc1)
              (nextTimer sc1) (emitted sc1)
  | None => sc
  end.

(** The event a [tick] for [roomCode] emits. *)
Definition tickPayload (e : Env) (roomCode : string) : ScheduledEventPayload :=
  let severity :=
    severityOptions
      !! N.to_nat (Js.floorRandomTimes (rnd1 e)
                                       (N.of_nat (length severityOptions))) in
  mkPayload roomCode severity
            ("Événement aléatoire (" ++ default "undefined" severity ++ ")")
            "Placeholder – brancher le générateur métier."
            (now e).

(** The body of [tick] up to and including the emission: the timeout that
    fired is no longer pending, and the payload is recorded as emitted. *)
Definition tickEmit (h : nat) (pl : ScheduledEventPayload) (sc : Sched)
  : Sched :=
  mkSched (activeSchedulers sc) (delete h (timers sc)) (nextTimer sc)
          (emitted sc ++ [pl]).

(** The end of [tick]: [activeSchedulers.set(roomCode, setTimeout(tick,
    nextInterval))]. *)
Definition tickRearm (e : Env) (roomCode : string) (sc : Sched) : Sched :=
  let nextInterval := randomBetween (rnd2 e) 15000 30000 in
  let '(h', sc1) := setTimeout roomCode nextInterval sc in
  setActive roomCode h' sc1.

(** [stopAllSchedulers()]: each entry of [activeSchedulers] is visited once,
    its timeout cleared and the entry deleted. (A JavaScript [Map] is visited
    in insertion order; the result does not depend on the order.) *)
Definition stopAllSchedulers (sc : Sched) : Sched :=
  List.fold_left
    (fun acc '(roomCode, timeout) =>
       let acc1 := clearTimeout timeout acc in
       mkSched (delete roomCode (activeSchedulers acc1)) (timers acc1)
               (nextTimer acc1) (emitted acc1))
    (map_to_list (activeSchedulers sc)) sc.

(** [listActiveSchedulers()]: the keys of [activeSchedulers]. The order of the
    array (insertion order in JavaScript) is not tracked. *)
Definition listActiveSchedulers (sc : Sched) : list string :=
  (map_to_list (activeSchedulers sc)).*1.

End Scheduler.

(** ** The realtime gateway *)

Record ParticipantView := mkView {
  pv_id : nat;
  pv_displayName : string;
  pv_role : string;
  pv_isAdmin : bool;
  pv_isConnected : bool;
  pv_joinedAt : nat;
  pv_leftAt : option nat
}.

(** [ServerToClientEvents] *)
Inductive ServerEvent :=
| SystemAnnouncement (message : string)
| SystemError (message : string)
| ChatMessage (id : nat) (author content : string) (createdAt : nat)
| EventCreated (id : nat) (title description severity source : string)
               (triggeredAt : nat)
| ParticipantUpdate (views : list ParticipantView).

(** [socket.emit] reaches one connection, [server.to(room).emit] a room. *)
Inductive Target :=
| ToSocket (socketId : string)
| ToRoom (roomCode : string).

Record Emission := mkEmission {
  em_target : Target;
  em_event : ServerEvent
}.

(** [CrisisSocketData] *)
Record SocketData := mkSocketData {
  sd_roomCode : option string;
  sd_roomId : option nat;
  sd_participantId : option nat;
  sd_displayName : option string;
  sd_isAdmin : option bool
}.

Definition freshSocketData : SocketData :=
  mkSocketData None None None None None.

Record Gateway := mkGateway {
  roomConnections : gmap string (gset string);  (* room code -> socket ids *)
  socketData : gmap string SocketData;          (* socket id -> socket.data *)
  socketRooms : gmap string (gset string);      (* socket id -> joined rooms *)
  outbox : list Emission                        (* everything emitted so far *)
}.

Record State := mkState {
  db : Db;
  sched : Sched;
  gw : Gateway
}.

Definition initialState : State :=
  mkState emptyDb Scheduler.empty (mkGateway ∅ ∅ ∅ []).

Definition sourceName (src : EventSource) : string :=
  match src with MANUAL => "MANUAL" | SCHEDULER => "SCHEDULER" end.

Module Gateway.

Definition dataOf (sid : string) (g : Gateway) : SocketData :=
  default freshSocketData (socketData g !! sid).

Definition emit (t : Target) (ev : ServerEvent) (g : Gateway) : Gateway :=
  mkGateway (roomConnections g) (socketData g) (socketRooms g)
            (outbox g ++ [mkEmission t ev]).

Definition with_connections (rc : gmap string (gset string)) (g : Gateway)
  : Gateway :=
  mkGateway rc (socketData g) (socketRooms g) (outbox g).

Definition setData (sid : string) (sd : SocketData) (g : Gateway)
  : Gateway :=
  mkGateway (roomConnections g) (<[sid := sd]> (socketData g))
            (socketRooms g) (outbox g).

(** [socket.join(room)] and [socket.leave(room)] *)
Definition socketJoin (sid room : string) (g : Gateway) : Gateway :=
  mkGateway (roomConnections g) (socketData g)
            (<[sid := default ∅ (socketRooms g !! sid) ∪ {[room]}]>
               (socketRooms g))
            (outbox g).

Definition socketLeave (sid room : string) (g : Gateway) : Gateway :=
  mkGateway (roomConnections g) (socketData g)
            (match socketRooms g !! sid with
             | Some rs => <[sid := rs ∖ {[room]}]> (socketRooms g)
             | None => socketRooms g
             end)
            (outbox g).

Definition viewOf (p : Participant) : ParticipantView :=
  let role := default "participant" (part_role p) in
  mkView (part_id p) (part_displayName p) role
         (String.eqb (Js.toLowerCase role) "formateur")
         (part_isConnected p) (part_joinedAt p) (part_leftAt p).

Definition broadcastParticipants (roomCode : string) (roomId : nat)
    (d : Db) (g : Gateway) : Gateway :=
  let found := Prisma.participant_findMany roomId d in
  emit (ToRoom roomCode) (ParticipantUpdate (List.map viewOf found)) g.

(** The first part of [handleJoin]: the room of the normalised code, created
    when it is missing and the joiner is an admin; [None] when it is missing
    and the joiner is not. *)
Definition resolveRoom (e : Env) (normalizedCode : string) (isAdmin : bool)
    (d : Db) : option (Room * Db) :=
  match Prisma.room_findUnique normalizedCode d with
  | Some room => Some (room, d)
  | None =>
      if negb isAdmin then None
      else Some (Prisma.room_create (now e) normalizedCode
                   ("Salle " ++ normalizedCode) d)
  end.

(** The second part of [handleJoin]: [findFirst] by (room, displayName),
    then [update] of the row found or [create] of a new one. *)
Definition upsertParticipant (e : Env) (roomId : nat) (displayName : string)
    (isAdmin : bool) (d : Db) : Participant * Db :=
  match Prisma.participant_findFirst roomId displayName d with
  | Some existingParticipant =>
      Prisma.participant_update existingParticipant
        (Prisma.reconnect
           (if isAdmin then Some "formateur"
            else part_role existingParticipant)) d
  | None =>
      Prisma.participant_create (now e) roomId displayName
        (if isAdmin then "formateur" else "participant") d
  end.

Definition handleJoin (e : Env) (sid roomCode displayName : string)
    (isAdmin : bool) (s : State) : State :=
  let normalizedCode := Js.toUpperCase roomCode in
  match resolveRoom e normalizedCode isAdmin (db s) with
  | None =>
      mkState (db s) (sched s)
        (emit (ToSocket sid)
           (SystemError ("La salle " ++ normalizedCode ++
              " n’existe pas encore. Demandez au formateur de la créer."))
           (gw s))
  | Some (room, d1) =>
      let '(participant, d2) :=
        upsertParticipant e (room_id room) displayName isAdmin d1 in
      let g1 := socketJoin sid normalizedCode (gw s) in
      let g2 :=
        setData sid
          (mkSocketData (Some normalizedCode) (Some (room_id room))
             (Some (part_id participant))
             (Some (part_displayName participant)) (Some isAdmin)) g1 in
      let connections :=
        default ∅ (roomConnections g2 !! normalizedCode) ∪ {[sid]} in
      let g3 :=
        with_connections
          (<[normalizedCode := connections]> (roomConnections g2)) g2 in
      let sc1 :=
        if isAdmin
        then Scheduler.startRoomScheduler (rnd1 e) normalizedCode (sched s)
        else sched s in
      let g4 := broadcastParticipants normalizedCode (room_id room) d2 g3 in
      let g5 :=
        emit (ToRoom normalizedCode)
          (SystemAnnouncement
             (part_displayName participant ++ " a rejoint la salle" ++
              (if isAdmin then " (formateur)" else "") ++ ".")) g4 in
      mkState d2 sc1 g5
  end.

(** [handleJoin] awaits its queries, and the listeners of two sockets are
    not serialised: between the [findFirst] of one join and its [update] or
    [create], handlers of other sockets may run. The two halves of the
    handler on each side of that [await] are given here on their own:
    [joinLookup] runs up to and including the [findFirst], [joinCommit] is
    the rest. What a join holds while it awaits: *)
Record PendingJoin := mkPending {
  pj_code : string;                      (* normalizedCode *)
  pj_room : Room;                        (* room *)
  pj_displayName : string;
  pj_isAdmin : bool;
  pj_existing : option Participant       (* existingParticipant *)
}.

Definition joinLookup (e : Env) (sid roomCode displayName : string)
    (isAdmin : bool) (s : State) : option PendingJoin * State :=
  let normalizedCode := Js.toUpperCase roomCode in
  match resolveRoom e normalizedCode isAdmin (db s) with
  | None =>
      (None,
       mkState (db s) (sched s)
         (emit (ToSocket sid)
            (SystemError ("La salle " ++ normalizedCode ++
               " n’existe pas encore. Demandez au formateur de la créer."))
            (gw s)))
  | Some (room, d1) =>
      (Some (mkPending normalizedCode room displayName isAdmin
               (Prisma.participant_findFirst (room_id room) displayName d1)),
       mkState d1 (sched s) (gw s))
  end.

(** The rest of [handleJoin], in the state [s] in which it resumes: the
    [update] writes the role read by the [findFirst], the [create] is
    issued when the [findFirst] found nothing. *)
Definition joinCommit (e : Env) (sid : string) (pj : PendingJoin) (s : State)
  : State :=
  let normalizedCode := pj_code pj in
  let room := pj_room pj in
  let isAdmin := pj_isAdmin pj in
  let '(participant, d2) :=
    match pj_existing pj with
    | Some existingParticipant =>
        Prisma.participant_update existingParticipant
          (Prisma.reconnect
             (if isAdmin then Some "formateur"
              else part_role existingParticipant)) (db s)
    | None =>
        Prisma.participant_create (now e) (room_id room) (pj_displayName pj)
          (if isAdmin then "formateur" else "participant") (db s)
    end in
  let g1 := socketJoin sid normalizedCode (gw s) in
  let g2 :=
    setData sid
      (mkSocketData (Some normalizedCode) (Some (room_id room))
         (Some (part_id participant))
         (Some (part_displayName participant)) (Some isAdmin)) g1 in
  let connections :=
    default ∅ (roomConnections g2 !! normalizedCode) ∪ {[sid]} in
  let g3 :=
    with_connections
      (<[normalizedCode := connections]> (roomConnections g2)) g2 in
  let sc1 :=
    if isAdmin
    then Scheduler.startRoomScheduler (rnd1 e) normalizedCode (sched s)
    else sched s in
  let g4 := broadcastParticipants normalizedCode (room_id room) d2 g3 in
  let g5 :=
    emit (ToRoom normalizedCode)
      (SystemAnnouncement
         (part_displayName participant ++ " a rejoint la salle" ++
          (if isAdmin then " (formateur)" else "") ++ ".")) g4 in
  mkState d2 sc1 g5.

Definition handleLeave (e : Env) (sid roomCode : string) (s : State)
  : State :=
  let normalizedCode := Js.toUpperCase roomCode in
  let participantId := sd_participantId (dataOf sid (gw s)) in
  let roomId := sd_roomId (dataOf sid (gw s)) in
  let g1 := socketLeave sid normalizedCode (gw s) in
  let d1 :=
    match participantId with
    | Some pid =>
        Prisma.participant_updateMany
          (fun p => Nat.eqb (part_id p) pid) (Prisma.disconnect (now e))
          (db s)
    | None => db s
    end in
  let '(g2, sc1) :=
    match roomConnections g1 !! normalizedCode with
    | Some connections =>
        let connections' := connections ∖ {[sid]} in
        if Nat.eqb (size connections') 0
        then (with_connections (delete normalizedCode (roomConnections g1))
                g1,
              Scheduler.stopRoomScheduler normalizedCode (sched s))
        else (with_connections
                (<[normalizedCode := connections']> (roomConnections g1)) g1,
              sched s)
    | None => (g1, sched s)
    end in
  let g3 :=
    match roomId with
    | Some rid => broadcastParticipants normalizedCode rid d1 g2
    | None => g2
    end in
  let g4 :=
    match sd_displayName (dataOf sid (gw s)) with
    | Some name =>
        if Js.truthy name
        then emit (ToRoom normalizedCode)
               (SystemAnnouncement (name ++ " a quitté la salle.")) g3
        else g3
    | None => g3
    end in
  mkState d1 sc1 g4.

(** The [disconnect] listener. *)
Definition handleDisconnect (e : Env) (sid : string) (s : State) : State :=
  match sd_roomCode (dataOf sid (gw s)) with
  | Some roomCode =>
      if Js.truthy roomCode then handleLeave e sid roomCode s else s
  | None => s
  end.

(** [handleChatMessage]; the handler reads [payload.content] only, the room
    is the one recorded in [socket.data]. *)
Definition handleChatMessage (e : Env) (sid : string) (content : string)
    (s : State) : State :=
  let sd := dataOf sid (gw s) in
  match sd_roomId sd, sd_roomCode sd with
  | Some roomId, Some roomCode =>
      if negb (Js.truthy roomCode)
      then mkState (db s) (sched s)
             (emit (ToSocket sid)
                (SystemError "Impossible d’identifier la salle courante.")
                (gw s))
      else
        let content' := Js.trim content in
        if negb (Js.truthy content') then s
        else
          let '(message, d1) :=
            Prisma.message_create (now e) roomId (sd_displayName sd) CHAT
              content' None (db s) in
          mkState d1 (sched s)
            (emit (ToRoom roomCode)
               (ChatMessage (msg_id message)
                  (default "Anonyme" (msg_authorName message))
                  (msg_content message) (msg_createdAt message))
               (gw s))
  | _, _ =>
      mkState (db s) (sched s)
        (emit (ToSocket sid)
           (SystemError "Impossible d’identifier la salle courante.")
           (gw s))
  end.

(** The payload of [event:create]. *)
Record EventCreatePayload := mkEventCreate {
  ec_roomCode : string;
  ec_title : string;
  ec_description : string;
  ec_severity : string
}.

Definition handleManualEvent (e : Env) (sid : string)
    (payload : EventCreatePayload) (s : State) : State :=
  let sd := dataOf sid (gw s) in
  let fail (message : string) :=
    mkState (db s) (sched s)
      (emit (ToSocket sid) (SystemError message) (gw s)) in
  if negb (default false (sd_isAdmin sd))
  then fail "Seul un formateur peut injecter un événement."
  else
    match sd_roomId sd, sd_roomCode sd with
    | Some roomId, Some roomCode =>
        if negb (Js.truthy roomCode)
        then fail "Salle introuvable côté serveur."
        else
          let normalizedSeverity := Js.toUpperCase (ec_severity payload) in
          match severityOfKey normalizedSeverity with
          | None => fail "Sévérité invalide pour l’événement."
          | Some severity =>
              let '(crisisEvent, d1) :=
                Prisma.crisisEvent_create roomId (ec_title payload)
                  (ec_description payload) severity MANUAL (now e) (db s) in
              let '(_, d2) :=
                Prisma.message_create (now e) roomId
                  (Some (default "Formateur" (sd_displayName sd))) EVENT
                  (ec_description payload)
                  (Some (normalizedSeverity, MANUAL)) d1 in
              let g1 :=
                emit (ToRoom roomCode)
                  (EventCreated (ev_id crisisEvent) (ev_title crisisEvent)
                     (ev_description crisisEvent)
                     (severityName (ev_severity crisisEvent))
                     (sourceName (ev_source crisisEvent))
                     (ev_triggeredAt crisisEvent)) (gw s) in
              let g2 :=
                emit (ToRoom roomCode)
                  (SystemAnnouncement
                     ("Injection formateur : " ++ ev_title crisisEvent)) g1 in
              mkState d2 (sched s) g2
          end
    | _, _ => fail "Salle introuvable côté serveur."
    end.

(** The [event:ack] listener; it reads nothing of the socket. *)
Definition handleEventAck (e : Env) (sid : string) (eventId : nat)
    (s : State) : State :=
  mkState (Prisma.crisisEvent_ack (now e) eventId (db s)) (sched s) (gw s).

(** The listener [subscribeToScheduler] registers with [onScheduledEvent]. *)
Definition onScheduledEvent (e : Env) (event : ScheduledEventPayload)
    (s : State) : State :=
  let roomCode := Js.toUpperCase (pl_roomCode event) in
  match Prisma.room_findUnique roomCode (db s) with
  | None => s
  | Some room =>
      match pl_severity event with
      | None => s   (* [undefined.toUpperCase()] throws: nothing is done *)
      | Some eventSeverity =>
          match severityOfKey (Js.toUpperCase eventSeverity) with
          | None => s
          | Some severityValue =>
              let '(crisisEvent, d1) :=
                Prisma.crisisEvent_create (room_id room) (pl_title event)
                  (pl_description event) severityValue SCHEDULER
                  (pl_triggeredAt event) (db s) in
              let '(_, d2) :=
                Prisma.message_create (now e) (room_id room)
                  (Some "Scheduler") EVENT
                  (pl_title event ++ " – " ++ pl_description event)
                  (Some (eventSeverity, SCHEDULER)) d1 in
              let g1 :=
                emit (ToRoom roomCode)
                  (EventCreated (ev_id crisisEvent) (ev_title crisisEvent)
                     (ev_description crisisEvent)
                     (severityName (ev_severity crisisEvent))
                     (sourceName (ev_source crisisEvent))
                     (ev_triggeredAt crisisEvent)) (gw s) in
              let g2 :=
                emit (ToRoom roomCode)
                  (SystemAnnouncement
                     ("Événement automatique " ++
                      Js.toLowerCase
                        (severityName (ev_severity crisisEvent)) ++
                      " déclenché : " ++ ev_title crisisEvent)) g1 in
              mkState d2 (sched s) g2
          end
      end
  end.

End Gateway.

(** ** Timers firing, room closure, and the commands of the system *)

(** The timeout [h] fires: [tick] runs for the room code it captured, the
    gateway's listener consumes the emitted event, and [tick] re-arms itself.
    A handle that is not pending (never set, already fired, or cleared) fires
    nothing. *)
Definition fireTimer (e : Env) (h : nat) (s : State) : State :=
  match timers (sched s) !! h with
  | None => s
  | Some t =>
      let roomCode := timer_room t in
      let pl := Scheduler.tickPayload e roomCode in
      let sc1 := Scheduler.tickEmit h pl (sched s) in
      let s1 := Gateway.onScheduledEvent e pl (mkState (db s) sc1 (gw s)) in
      mkState (db s1) (Scheduler.tickRearm e roomCode (sched s1)) (gw s1)
  end.

(** [closeRoomAction({ roomId, roomCode })], the action's own code, in the
    branch where [getSocketServer()] returns the server. The loop over the room's sockets makes each of them
    leave the room and closes its connection; closing is asynchronous, and
    the [disconnect] listener of each closed socket then runs as a step of
    its own, a [Disconnect] command ([forcedDisconnects] below). *)
Definition closeRoomAction (e : Env) (roomId : nat) (roomCode : string)
    (s : State) : State :=
  if negb (Js.truthy roomCode) then s
  else
    match Prisma.room_update_inactive (now e) roomId (db s) with
    | None => s   (* the update throws; the error is caught and logged *)
    | Some d1 =>
        let d2 :=
          Prisma.participant_updateMany
            (fun p => Nat.eqb (part_roomId p) roomId && part_isConnected p)
            (Prisma.disconnect (now e)) d1 in
        let sc1 :=
          Scheduler.stopRoomScheduler (Js.toUpperCase roomCode) (sched s) in
        let g1 :=
          Gateway.emit (ToRoom (Js.toUpperCase roomCode))
            (SystemAnnouncement
               "Cette salle a été fermée par un administrateur. Vous allez être déconnecté.")
            (gw s) in
        let g2 :=
          mkGateway (roomConnections g1) (socketData g1)
            ((fun rs : gset string => rs ∖ {[Js.toUpperCase roomCode]})
               <$> socketRooms g1)
            (outbox g1) in
        mkState d2 sc1 g2
    end.

Inductive Command :=
| RoomJoin (sid roomCode displayName : string) (isAdmin : bool)
| RoomLeave (sid roomCode : string)
| Chat (sid content : string)
| EventCreate (sid : string) (payload : Gateway.EventCreatePayload)
| EventAck (sid : string) (eventId : nat)
| Disconnect (sid : string)
| TimerFires (h : nat)
| CloseRoom (roomId : nat) (roomCode : string).

Definition step (s : State) (ec : Env * Command) : State :=
  let '(e, c) := ec in
  match c with
  | RoomJoin sid roomCode displayName isAdmin =>
      Gateway.handleJoin e sid roomCode displayName isAdmin s
  | RoomLeave sid roomCode => Gateway.handleLeave e sid roomCode s
  | Chat sid content => Gateway.handleChatMessage e sid content s
  | EventCreate sid payload => Gateway.handleManualEvent e sid payload s
  | EventAck sid eventId => Gateway.handleEventAck e sid eventId s
  | Disconnect sid => Gateway.handleDisconnect e sid s
  | TimerFires h => fireTimer e h s
  | CloseRoom roomId roomCode => closeRoomAction e roomId roomCode s
  end.

(** Running a sequence of commands, oldest first. *)
Definition run (cmds : list (Env * Command)) (s : State) : State :=
  List.fold_left step cmds s.

(** ** Schedules in which joins overlap

    A command of [run] is a handler that runs to its end before the next
    one starts. In a schedule a join may also be cut at its [await]: its
    first half runs, other segments follow, and its second half resumes
    later with what the first half read. A socket has at most one join
    awaiting. *)
Inductive Segment :=
| Whole (c : Command)
| JoinLookup (sid roomCode displayName : string) (isAdmin : bool)
| JoinCommit (sid : string).

Record Process := mkProcess {
  current : State;
  awaiting : gmap string Gateway.PendingJoin
}.

Definition segment (p : Process) (es : Env * Segment) : Process :=
  let '(e, sg) := es in
  match sg with
  | Whole c => mkProcess (step (current p) (e, c)) (awaiting p)
  | JoinLookup sid roomCode displayName isAdmin =>
      match Gateway.joinLookup e sid roomCode displayName isAdmin (current p)
      with
      | (Some pj, s1) => mkProcess s1 (<[sid := pj]> (awaiting p))
      | (None, s1) => mkProcess s1 (awaiting p)
      end
  | JoinCommit sid =>
      match awaiting p !! sid with
      | Some pj =>
          mkProcess (Gateway.joinCommit e sid pj (current p))
            (delete sid (awaiting p))
      | None => p
      end
  end.

Definition schedule (l : list (Env * Segment)) (p : Process) : Process :=
  List.fold_left segment l p.

(** The process at a state of [run], with no join awaiting. *)
Definition settled (s : State) : Process := mkProcess s ∅.

(** ** The room access form ([components/forms/room-access-form.tsx]) *)

Module RoomAccessForm.

Definition alphabet : string := "ABCDEFGHJKLMNPQRSTUVWXYZ23456789".

(** [alphabet[i]] as [join] renders it: an index out of range reads
    [undefined], which joins as the empty string. *)
Definition charAt (i : nat) (s : string) : string :=
  match String.get i s with
  | Some c => String c EmptyString
  | None => EmptyString
  end.

(** [generateCode(length)]: [Array.from({ length }, ...)] draws one
    [Math.random()] for each index; [random i] is the sample of index [i]. *)
Definition generateCode (length : nat) (random : nat -> N) : string :=
  String.concat EmptyString
    (List.map
       (fun i =>
          charAt (N.to_nat (Js.floorRandomTimes (random i)
                              (N.of_nat (String.length alphabet))))
            alphabet)
       (List.seq 0 length)).

End RoomAccessForm.

(** ** The room page ([RoomPage]) up to its 404 *)

(** A value of [searchParams]: absent, one string, or several. *)
Inductive SearchParam :=
| Absent
| Single (value : string)
| Multiple (values : list string).

Module RoomPage.

(** [resolvedParams.code.toUpperCase()] *)
Definition code (paramCode : string) : string := Js.toUpperCase paramCode.

Definition displayName (name : SearchParam) : string :=
  match name with
  | Single s =>
      if (0 <? String.length (Js.trim s))%nat then Js.trim s else "Invité"
  | _ => "Invité"
  end.

(** [Array.isArray(rawAdmin) ? rawAdmin[0] : rawAdmin] *)
Definition adminToken (rawAdmin : SearchParam) : option string :=
  match rawAdmin with
  | Multiple l => List.hd_error l
  | Single s => Some s
  | Absent => None
  end.

Definition isAdmin (rawAdmin : SearchParam) : bool :=
  match adminToken rawAdmin with
  | Some token =>
      Js.truthy token && negb (String.eqb token "0")
      && negb (String.eqb token "false")
  | None => false
  end.

(** Whether the page ends in [notFound()]: [!room && !isAdmin]. *)
Definition notFound (paramCode : string) (rawAdmin : SearchParam) (d : Db)
  : bool :=
  match Prisma.room_findUnique (code paramCode) d with
  | Some _ => false
  | None => negb (isAdmin rawAdmin)
  end.

End RoomPage.

(** * Vocabulary of the properties *)

Local Open Scope list_scope.

(** The key of the upsert in [handleJoin]. *)
Definition keyOf (p : Participant) : nat * string :=
  (part_roomId p, part_displayName p).

(** The [where] clause of the [findFirst] in [handleJoin]. *)
Definition hasKey (roomId : nat) (displayName : string) (p : Participant)
  : bool :=
  Nat.eqb (part_roomId p) roomId && String.eqb (part_displayName p) displayName.

(** The rows of a (room, displayName) pair. *)
Definition rowsOf (roomId : nat) (displayName : string) (d : Db)
  : list Participant :=
  List.filter (hasKey roomId displayName) (participants d).

(** What a rewrite of a row may change: never its id, room or name, and
    never a stored role "formateur". *)
Definition evolves (p p' : Participant) : Prop :=
  part_id p' = part_id p /\ part_roomId p' = part_roomId p /\
  part_displayName p' = part_displayName p /\
  (part_role p = Some "formateur" -> part_role p' = Some "formateur").

(** The primary key and the upsert key are unique, and the identifiers in use
    were all generated already. *)
Definition DbInv (d : Db) : Prop :=
  NoDup (List.map part_id (participants d)) /\
  Forall (fun p => part_id p < nextId d) (participants d) /\
  NoDup (List.map keyOf (participants d)).

(** The table after a step: the old rows, rewritten in place, followed by at
    most one new row, whose key was free and whose identifier is fresh. *)
Definition grows (d d' : Db) : Prop :=
  nextId d <= nextId d' /\
  exists l' tail : list Participant,
    participants d' = l' ++ tail /\
    Forall2 evolves (participants d) l' /\
    (tail = [] \/
     exists p, tail = [p] /\
       rowsOf (part_roomId p) (part_displayName p) d = [] /\
       nextId d <= part_id p < nextId d').

(** The identifier of the room a code resolves to. *)
Definition roomIdOf (code : string) (d : Db) : option nat :=
  room_id <$> Prisma.room_findUnique code d.

(** Every code that resolved to a room still resolves to the same room. *)
Definition roomsKept (d d' : Db) : Prop :=
  forall code rid, roomIdOf code d = Some rid -> roomIdOf code d' = Some rid.

(** A pair is known once some row carries it. *)
Definition known (roomId : nat) (displayName : string) (d : Db) : Prop :=
  In (roomId, displayName) (List.map keyOf (participants d)).

(** The environment of the examples: the clock reads [t], the random samples
    are zero. *)
Definition env (t : nat) : Env := mkEnv t 0 0.

(** A connection holds admin privilege when its last successful join carried
    the admin flag. *)
Definition isAdminConnection (sid : string) (s : State) : bool :=
  default false (sd_isAdmin (Gateway.dataOf sid (gw s))).

(** A severity value lies outside the enumeration when it is the name of none
    of its four members. *)
Definition outsideEnumeration (severity : string) : Prop :=
  forall v : CrisisSeverity, severityName v <> severity.

(** What an acknowledgment of [eventId] at time [t] does to one event row:
    every column but [ackAt] is kept; [ackAt] becomes [t] when the id matches
    and is kept otherwise. *)
Definition ackOnly (eventId t : nat) (ev ev' : CrisisEvent) : Prop :=
  ev_id ev' = ev_id ev /\ ev_roomId ev' = ev_roomId ev /\
  ev_title ev' = ev_title ev /\ ev_description ev' = ev_description ev /\
  ev_severity ev' = ev_severity ev /\ ev_source ev' = ev_source ev /\
  ev_scheduledFor ev' = ev_scheduledFor ev /\
  ev_triggeredAt ev' = ev_triggeredAt ev /\
  ev_payload ev' = ev_payload ev /\
  ev_ackAt ev' = if Nat.eqb (ev_id ev) eventId then Some t else ev_ackAt ev.

(** A connection is unjoined while no join of it succeeded: its
    [socket.data] is still empty. *)
Definition unjoined (sid : string) (s : State) : Prop :=
  socketData (gw s) !! sid = None.

(** Case analysis along the branches of a handler. *)
Ltac handler_cases :=
  repeat (simpl;
          match goal with
          | |- context [match ?x with _ => _ end] => destruct x eqn:?
          end).

(** The connection [sid] is the last one of the room [code]: leaving empties
    the room's entry. *)
Definition lastConnection (sid code : string) (s : State) : bool :=
  match roomConnections (gw s) !! code with
  | Some connections => Nat.eqb (size (connections ∖ {[sid]})) 0
  | None => false
  end.

(** Every pending timeout is the one registered for the room its [tick]
    captured, and its handle was allocated already. *)
Definition SchedInv (sc : Sched) : Prop :=
  forall h t, timers sc !! h = Some t ->
              activeSchedulers sc !! timer_room t = Some h /\ h < nextTimer sc.



(** No scheduler is registered for [code]. *)
Definition stopped (code : string) (s : State) : Prop :=
  SchedInv (sched s) /\ activeSchedulers (sched s) !! code = None.

(** The pool the scheduler draws severities from, as names and as members of
    the enumeration. *)
Definition poolName (severity : option string) : Prop :=
  severity = Some "LOW" \/ severity = Some "MODERATE" \/ severity = Some "HIGH".

Definition poolSeverity (v : CrisisSeverity) : Prop :=
  v = LOW \/ v = MODERATE \/ v = HIGH.

(** Emitted payloads and persisted scheduler events stay within the pool. *)
Definition SevInv (s : State) : Prop :=
  Forall (fun pl => poolName (pl_severity pl)) (emitted (sched s)) /\
  Forall (fun ev => ev_source ev = SCHEDULER -> poolSeverity (ev_severity ev))
         (crisisEvents (db s)).

(** Every room code of the registry maps to a non-empty set. *)
Definition RegInv (g : Gateway) : Prop :=
  forall code connections,
    roomConnections g !! code = Some connections -> connections <> ∅.

(** The join, leave and disconnect handlers. *)
Definition lifecycle (c : Command) : bool :=
  match c with
  | RoomJoin _ _ _ _ | RoomLeave _ _ | Disconnect _ => true
  | _ => false
  end.

(** The socket and the normalised room code a command detaches: those of an
    explicit leave, and those of a disconnect whose socket recorded a room. *)
Definition leaves (c : Command) (s : State) : option (string * string) :=
  match c with
  | RoomLeave sid roomCode => Some (sid, Js.toUpperCase roomCode)
  | Disconnect sid =>
      match sd_roomCode (Gateway.dataOf sid (gw s)) with
      | Some roomCode =>
          if Js.truthy roomCode then Some (sid, Js.toUpperCase roomCode)
          else None
      | None => None
      end
  | _ => None
  end.

(** The command removes the last connection of [code]. *)
Definition removesLast (c : Command) (s : State) (code : string) : Prop :=
  exists sid, leaves c s = Some (sid, code) /\
              roomConnections (gw s) !! code = Some {[sid]}.

(** Every registered scheduler has its timeout pending, for its own room. *)
Definition Registered (sc : Sched) : Prop :=
  forall code h, activeSchedulers sc !! code = Some h ->
                 exists t, timers sc !! h = Some t /\ timer_room t = code.

(** Every pending delay lies in the interval the scheduler draws from. *)
Definition DelaysInRange (sc : Sched) : Prop :=
  forall h t, timers sc !! h = Some t ->
              (15000 <= timer_delay t <= 30000)%N.

(** An error goes to one socket, everything else to a room. *)
Definition wellTargeted (em : Emission) : Prop :=
  match em_event em with
  | SystemError _ => exists sid, em_target em = ToSocket sid
  | _ => exists code, em_target em = ToRoom code
  end.

(** [l'] is [l] followed by new elements that all satisfy [P]. *)
Definition extendsWith {A : Type} (P : A -> Prop) (l l' : list A) : Prop :=
  exists new, l' = l ++ new /\ Forall P new.

(** The columns of an event that are fixed at creation (all but [ackAt]; the
    two the gateway never sets, [scheduledFor] and [payload], included). *)
Definition eventCore (ev : CrisisEvent)
  : nat * nat * string * string * CrisisSeverity * EventSource * option nat
    * nat * option string :=
  (ev_id ev, ev_roomId ev, ev_title ev, ev_description ev, ev_severity ev,
   ev_source ev, ev_scheduledFor ev, ev_triggeredAt ev, ev_payload ev).

(** What the companion message of an event carries: its room, and the
    severity and source of the event as metadata. *)
Definition companion (ev : CrisisEvent) : nat * option (string * EventSource) :=
  (ev_roomId ev, Some (severityName (ev_severity ev), ev_source ev)).

Definition isEventMessage (m : Message) : bool :=
  match msg_type m with EVENT => true | _ => false end.

(** A chat message as [handleChatMessage] stores it: trimmed and not
    empty. *)
Definition chatContentOk (m : Message) : Prop :=
  msg_type m = CHAT ->
  Js.trim (msg_content m) = msg_content m /\ msg_content m <> "".

(** What one step may do to the message and event tables: rewrite [ackAt]
    columns, and append either nothing, or one chat message, or one event
    together with its companion message. *)
Definition storeStep (d d' : Db) : Prop :=
  exists (newM : list Message) (newE l' : list CrisisEvent),
    messages d' = messages d ++ newM /\
    crisisEvents d' = l' ++ newE /\
    List.map eventCore l' = List.map eventCore (crisisEvents d) /\
    ((newM = [] /\ newE = []) \/
     (exists m, newM = [m] /\ newE = [] /\ msg_type m = CHAT /\
                chatContentOk m) \/
     (exists m ev, newM = [m] /\ newE = [ev] /\ msg_type m = EVENT /\
                   (msg_roomId m, msg_metadata m) = companion ev /\
                   ev_ackAt ev = None)).

(** Messages are kept as a prefix; events are kept, up to [ackAt], as a
    prefix. *)
Definition storeKept (d d' : Db) : Prop :=
  (exists newM, messages d' = messages d ++ newM) /\
  (exists l' newE,
      crisisEvents d' = l' ++ newE /\
      List.map eventCore l' = List.map eventCore (crisisEvents d)).

(** The invariant of the two tables: every event has its companion message,
    in the same order; chat messages are trimmed and not empty; no message of
    type SYSTEM is stored. *)
Definition StoreInv (d : Db) : Prop :=
  List.map (fun m => (msg_roomId m, msg_metadata m))
           (List.filter isEventMessage (messages d))
  = List.map companion (crisisEvents d) /\
  Forall chatContentOk (messages d) /\
  Forall (fun m => msg_type m <> SYSTEM) (messages d).

(** A string that does not start with white space. *)
Definition noLeadingSpace (s : string) : Prop :=
  match s with
  | EmptyString => True
  | String c _ => Js.isSpace c = false
  end.

(** What a step may change in a room row: neither its identifier nor its
    code, and never an inactive room back to active. *)
Definition roomEvolves (r r' : Room) : Prop :=
  room_id r' = room_id r /\ room_code r' = room_code r /\
  (room_isActive r = false -> room_isActive r' = false).

(** The room table after a step: the old rows, rewritten in place, followed
    by at most one new row, active, whose code is normalised and was free. *)
Definition roomsStep (d d' : Db) : Prop :=
  exists l' tail : list Room,
    rooms d' = l' ++ tail /\
    Forall2 roomEvolves (rooms d) l' /\
    (tail = [] \/
     exists r, tail = [r] /\ Prisma.room_findUnique (room_code r) d = None /\
               Js.toUpperCase (room_code r) = room_code r /\
               room_isActive r = true).

(** Room codes are pairwise distinct and in normalised (upper) case. *)
Definition RoomsInv (d : Db) : Prop :=
  NoDup (List.map room_code (rooms d)) /\
  Forall (fun r => Js.toUpperCase (room_code r) = room_code r) (rooms d).

(** Every pending timeout is for a normalised code that resolves to a
    persisted room. *)
Definition TimerRooms (s : State) : Prop :=
  forall h t, timers (sched s) !! h = Some t ->
    Js.toUpperCase (timer_room t) = timer_room t /\
    is_Some (roomIdOf (timer_room t) (db s)).

(** Every registered scheduler is for a room code with an entry in the
    connection registry. *)
Definition ConnInv (s : State) : Prop :=
  forall code h, activeSchedulers (sched s) !! code = Some h ->
                 is_Some (roomConnections (gw s) !! code).

(** A participant row as the gateway writes it: the role is one of the two
    the code knows, and the row is connected exactly when it has no leave
    time. *)
Definition rowOk (p : Participant) : Prop :=
  (part_role p = Some "formateur" \/ part_role p = Some "participant") /\
  (part_isConnected p = true <-> part_leftAt p = None).

(** White space only (the empty string included). *)
Fixpoint allSpaces (s : string) : bool :=
  match s with
  | EmptyString => true
  | String c rest => Js.isSpace c && allSpaces rest
  end.

(** Every socket attached to a room in the registry has completed a join:
    its [socket.data] is set. *)
Definition MemberInv (g : Gateway) : Prop :=
  forall code connections sid,
    roomConnections g !! code = Some connections -> sid ∈ connections ->
    is_Some (socketData g !! sid).

(** Ascending order of [joinedAt]. *)
Definition joinedBefore (p q : Participant) : Prop :=
  part_joinedAt p <= part_joinedAt q.

(** What [socket.data] holds after a join, against the store [d]: all five
    fields are set, the room code is in upper case and resolves to the
    recorded room id, and the recorded participant id and display name are
    those of a row of that room. *)
Definition boundTo (d : Db) (sd : SocketData) : Prop :=
  exists code roomId p isAdmin,
    sd = mkSocketData (Some code) (Some roomId) (Some (part_id p))
           (Some (part_displayName p)) (Some isAdmin) /\
    Js.toUpperCase code = code /\
    roomIdOf code d = Some roomId /\
    In p (participants d) /\ part_roomId p = roomId.

Definition BoundInv (s : State) : Prop :=
  forall sid sd, socketData (gw s) !! sid = Some sd -> boundTo (db s) sd.

(** The characters of a string. *)
Fixpoint chars (s : string) : list ascii :=
  match s with
  | EmptyString => []
  | String c rest => c :: chars rest
  end.

(** A join is refused when its only effect is one error sent to the
    socket. *)
Definition joinRefused (sid : string) (s s' : State) : Prop :=
  db s' = db s /\
  exists message,
    outbox (gw s')
    = outbox (gw s) ++ [mkEmission (ToSocket sid) (SystemError message)].

(** The [disconnect] listeners of the sockets whose connection a closure
    closes: one disconnect for each socket, at its own time. *)
Definition forcedDisconnects (ds : list (Env * string))
  : list (Env * Command) :=
  List.map (fun d => (fst d, Disconnect (snd d))) ds.

(** What disconnections may do to a row: nothing but turn it disconnected
    and set its leave time. *)
Definition quieter (p p' : Participant) : Prop :=
  part_id p' = part_id p /\ keyOf p' = keyOf p /\
  part_role p' = part_role p /\ part_joinedAt p' = part_joinedAt p /\
  (part_isConnected p = false -> part_isConnected p' = false) /\
  (is_Some (part_leftAt p) -> is_Some (part_leftAt p')).

(** A row before and after the closure of the room [roomId]: it keeps its
    id, room, name, role and join time; it is not reconnected; and a row of
    the room is disconnected, with a leave time if it was connected. *)
Definition closedRow (roomId : nat) (p p' : Participant) : Prop :=
  part_id p' = part_id p /\ keyOf p' = keyOf p /\
  part_role p' = part_role p /\ part_joinedAt p' = part_joinedAt p /\
  (part_isConnected p = false -> part_isConnected p' = false) /\
  (part_roomId p = roomId -> part_isConnected p' = false) /\
  (part_roomId p = roomId -> part_isConnected p = true ->
   is_Some (part_leftAt p')).

(** * Properties *)

(** ** Lists of rows: finding, filtering and rewriting in place *)

Section RowLists.
Context {A : Type}.
Implicit Types (P : A -> bool) (f : A -> A) (l : list A).

Lemma find_app_Some P l t x :
  List.find P l = Some x -> List.find P (l ++ t) = Some x.
Proof.
  induction l as [|a l IH]; simpl; [discriminate|].
  destruct (P a); auto.
Qed.

Lemma find_app_None P l t :
  List.find P l = None -> List.find P (l ++ t) = List.find P t.
Proof.
  induction l as [|a l IH]; simpl; [reflexivity|].
  destruct (P a); [discriminate | auto].
Qed.

Lemma find_map_stable P f l :
  (forall a, P (f a) = P a) ->
  List.find P (List.map f l) = f <$> List.find P l.
Proof.
  intros Hf. induction l as [|a l IH]; simpl; [reflexivity|].
  rewrite Hf. destruct (P a); auto.
Qed.

Lemma find_Some_holds P l x : List.find P l = Some x -> P x = true /\ In x l.
Proof.
  intros H. apply List.find_some in H. tauto.
Qed.

Lemma find_None_filter P l : List.find P l = None -> List.filter P l = [].
Proof.
  induction l as [|a l IH]; simpl; [reflexivity|].
  destruct (P a); [discriminate | auto].
Qed.

Lemma filter_map_stable P f l :
  (forall a, P (f a) = P a) ->
  List.filter P (List.map f l) = List.map f (List.filter P l).
Proof.
  intros Hf. induction l as [|a l IH]; simpl; [reflexivity|].
  rewrite Hf. destruct (P a); simpl; congruence.
Qed.

End RowLists.

(** ** How the participant table evolves *)

Lemma evolves_refl p : evolves p p.
Proof. unfold evolves; auto. Qed.

Lemma evolves_trans p q r : evolves p q -> evolves q r -> evolves p r.
Proof.
  unfold evolves. intros (?&?&?&?) (?&?&?&?).
  repeat split; try congruence; auto.
Qed.

Lemma evolves_key p p' : evolves p p' -> keyOf p' = keyOf p.
Proof. unfold evolves, keyOf. intros (_&->&->&_). reflexivity. Qed.

Lemma evolves_reconnect role p :
  (part_role p = Some "formateur" -> role = Some "formateur") ->
  evolves p (Prisma.reconnect role p).
Proof. unfold evolves; simpl; auto. Qed.

Lemma evolves_disconnect t p : evolves p (Prisma.disconnect t p).
Proof. unfold evolves; simpl; auto. Qed.

Lemma Forall2_evolves_refl l : Forall2 evolves l l.
Proof. induction l; constructor; auto using evolves_refl. Qed.

Lemma Forall2_evolves_map (g : Participant -> Participant) l :
  (forall p, In p l -> evolves p (g p)) -> Forall2 evolves l (List.map g l).
Proof.
  induction l as [|a l IH]; simpl; intros H; constructor; auto.
Qed.

Lemma Forall2_evolves_keys l l' :
  Forall2 evolves l l' -> List.map keyOf l' = List.map keyOf l.
Proof.
  induction 1 as [|p p' l l' Hp _ IH]; simpl; [reflexivity|].
  rewrite IH, (evolves_key _ _ Hp). reflexivity.
Qed.

Lemma Forall2_evolves_ids l l' :
  Forall2 evolves l l' -> List.map part_id l' = List.map part_id l.
Proof.
  induction 1 as [|p p' l l' Hp _ IH]; simpl; [reflexivity|].
  rewrite IH. destruct Hp as (->&_). reflexivity.
Qed.

Lemma grows_same d d' :
  participants d' = participants d -> nextId d <= nextId d' -> grows d d'.
Proof.
  intros H Hn. split; [exact Hn|].
  exists (participants d), []. rewrite app_nil_r.
  auto using Forall2_evolves_refl.
Qed.

Lemma grows_refl d : grows d d.
Proof. apply grows_same; auto. Qed.

Lemma grows_rewrite (g : Participant -> Participant) d d' :
  participants d' = List.map g (participants d) ->
  nextId d <= nextId d' ->
  (forall p, In p (participants d) -> evolves p (g p)) ->
  grows d d'.
Proof.
  intros H Hn Hg. split; [exact Hn|].
  exists (List.map g (participants d)), [].
  rewrite app_nil_r. auto using Forall2_evolves_map.
Qed.

Lemma grows_create p d d' :
  participants d' = participants d ++ [p] ->
  rowsOf (part_roomId p) (part_displayName p) d = [] ->
  nextId d <= part_id p < nextId d' ->
  grows d d'.
Proof.
  intros H Hk Hn. split; [lia|].
  exists (participants d), [p]. split; [exact H|].
  split; [apply Forall2_evolves_refl|]. right. exists p. auto.
Qed.

Lemma same_id_same_row (l : list Participant) p q :
  NoDup (List.map part_id l) -> In p l -> In q l ->
  part_id p = part_id q -> p = q.
Proof.
  induction l as [|a l IH]; simpl; [tauto|].
  intros Hnd [->|Hp] [->|Hq] Hid; auto.
  - apply NoDup_cons_1_1 in Hnd. exfalso. apply Hnd.
    rewrite Hid. apply list_elem_of_In, in_map, Hq.
  - apply NoDup_cons_1_1 in Hnd. exfalso. apply Hnd.
    rewrite <- Hid. apply list_elem_of_In, in_map, Hp.
  - apply NoDup_cons_1_2 in Hnd. auto.
Qed.

Lemma findFirst_is_find roomId displayName d :
  Prisma.participant_findFirst roomId displayName d
  = List.find (hasKey roomId displayName) (participants d).
Proof. reflexivity. Qed.

Lemma grows_inv d d' : DbInv d -> grows d d' -> DbInv d'.
Proof.
  intros (Hid & Hlt & Hkey) (Hn & l' & tail & Hp & Hev & Htail).
  pose proof (Forall2_evolves_ids _ _ Hev) as Hids.
  pose proof (Forall2_evolves_keys _ _ Hev) as Hkeys.
  assert (Hlt' : Forall (fun p => part_id p < nextId d') l').
  { apply Forall_forall. intros p Hp'.
    apply list_elem_of_In, (in_map part_id) in Hp'. rewrite Hids in Hp'.
    apply in_map_iff in Hp' as (q & Hq & Hin).
    rewrite Forall_forall in Hlt. apply list_elem_of_In, Hlt in Hin. lia. }
  unfold DbInv. rewrite Hp.
  destruct Htail as [->|(p & -> & Hfree & Hfresh)].
  - rewrite app_nil_r, Hids, Hkeys. auto.
  - rewrite !map_app, Hids, Hkeys. simpl. repeat split.
    + apply NoDup_app. split; [exact Hid|]. split; [|apply NoDup_singleton].
      intros x Hx Hx'. apply list_elem_of_singleton in Hx'. subst x.
      apply list_elem_of_In, in_map_iff in Hx as (q & Hq & Hin).
      rewrite Forall_forall in Hlt. apply list_elem_of_In, Hlt in Hin. lia.
    + apply Forall_app. split; [exact Hlt'|].
      apply Forall_singleton. lia.
    + apply NoDup_app. split; [exact Hkey|]. split; [|apply NoDup_singleton].
      intros x Hx Hx'. apply list_elem_of_singleton in Hx'. subst x.
      apply list_elem_of_In, in_map_iff in Hx as (q & Hq & Hin).
      assert (Hm : In q (rowsOf (part_roomId p) (part_displayName p) d)).
      { apply filter_In. split; [exact Hin|].
        unfold keyOf in Hq. injection Hq as Hr Hname.
        unfold hasKey. rewrite Hr, Hname, Nat.eqb_refl, String.eqb_refl.
        reflexivity. }
      rewrite Hfree in Hm. destruct Hm.
Qed.

Lemma upsert_grows e roomId displayName isAdmin d d1 :
  participants d1 = participants d -> nextId d <= nextId d1 ->
  NoDup (List.map part_id (participants d)) ->
  grows d (snd (Gateway.upsertParticipant e roomId displayName isAdmin d1)).
Proof.
  intros Hp Hn Hnd. unfold Gateway.upsertParticipant.
  rewrite findFirst_is_find, Hp.
  destruct (List.find _ (participants d)) as [ex|] eqn:Hf; simpl.
  - eapply grows_rewrite; simpl; [rewrite Hp; reflexivity|exact Hn|].
    apply find_Some_holds in Hf as [_ Hex].
    intros p Hin. destruct (Nat.eqb _ _) eqn:Hid; [|apply evolves_refl].
    apply Nat.eqb_eq in Hid.
    assert (p = ex) as -> by eauto using same_id_same_row.
    apply evolves_reconnect. destruct isAdmin; auto.
  - eapply grows_create; simpl; [rewrite Hp; reflexivity| |simpl; lia].
    simpl. apply find_None_filter, Hf.
Qed.

Lemma handleJoin_grows e sid roomCode displayName isAdmin s :
  DbInv (db s) ->
  grows (db s) (db (Gateway.handleJoin e sid roomCode displayName isAdmin s)).
Proof.
  intros (Hnd & _). unfold Gateway.handleJoin, Gateway.resolveRoom.
  destruct (Prisma.room_findUnique _ (db s)) as [room|];
    [|destruct isAdmin; simpl; [|apply grows_refl]].
  - pose proof (upsert_grows e (room_id room) displayName isAdmin (db s) (db s)
                  eq_refl (le_n _) Hnd) as H.
    destruct (Gateway.upsertParticipant _ _ _ _ _) as [participant d2].
    exact H.
  - match goal with
    | |- context [Gateway.upsertParticipant e ?rid _ _ ?d1] =>
        pose proof (upsert_grows e rid displayName true (db s) d1
                      eq_refl (Nat.le_succ_diag_r _) Hnd) as H;
        destruct (Gateway.upsertParticipant e rid displayName true d1)
          as [participant d2]
    end.
    exact H.
Qed.

Lemma updateMany_grows where_ t d :
  grows d (Prisma.participant_updateMany where_ (Prisma.disconnect t) d).
Proof.
  eapply grows_rewrite; simpl; [reflexivity|lia|].
  intros p _. simpl. destruct (where_ p); auto using evolves_refl, evolves_disconnect.
Qed.

Lemma handleLeave_db e sid roomCode s :
  db (Gateway.handleLeave e sid roomCode s)
  = match sd_participantId (Gateway.dataOf sid (gw s)) with
    | Some pid =>
        Prisma.participant_updateMany (fun p => Nat.eqb (part_id p) pid)
          (Prisma.disconnect (now e)) (db s)
    | None => db s
    end.
Proof.
  unfold Gateway.handleLeave.
  destruct (roomConnections _ !! _) as [c|]; [destruct (Nat.eqb _ _)|];
    reflexivity.
Qed.

Lemma handleLeave_grows e sid roomCode s :
  grows (db s) (db (Gateway.handleLeave e sid roomCode s)).
Proof.
  rewrite handleLeave_db.
  destruct (sd_participantId _); auto using updateMany_grows, grows_refl.
Qed.

Lemma handleDisconnect_grows e sid s :
  grows (db s) (db (Gateway.handleDisconnect e sid s)).
Proof.
  unfold Gateway.handleDisconnect.
  destruct (sd_roomCode _) as [c|]; [destruct (Js.truthy c)|];
    auto using handleLeave_grows, grows_refl.
Qed.

Lemma handleChatMessage_grows e sid content s :
  grows (db s) (db (Gateway.handleChatMessage e sid content s)).
Proof.
  unfold Gateway.handleChatMessage. cbv zeta.
  destruct (sd_roomId (Gateway.dataOf sid (gw s))),
    (sd_roomCode (Gateway.dataOf sid (gw s))) as [c|]; try apply grows_refl.
  destruct (Js.truthy c); simpl; [|apply grows_refl].
  destruct (Js.truthy (Js.trim content)); simpl; [|apply grows_refl].
  apply grows_same; simpl; auto.
Qed.

Lemma handleManualEvent_grows e sid payload s :
  grows (db s) (db (Gateway.handleManualEvent e sid payload s)).
Proof.
  unfold Gateway.handleManualEvent. cbv zeta.
  destruct (default false _); simpl; [|apply grows_refl].
  destruct (sd_roomId (Gateway.dataOf sid (gw s))),
    (sd_roomCode (Gateway.dataOf sid (gw s))) as [c|]; try apply grows_refl.
  destruct (Js.truthy c); simpl; [|apply grows_refl].
  destruct (severityOfKey _); simpl; [|apply grows_refl].
  apply grows_same; simpl; auto.
Qed.

Lemma handleEventAck_grows e sid eventId s :
  grows (db s) (db (Gateway.handleEventAck e sid eventId s)).
Proof. apply grows_same; simpl; auto. Qed.

Lemma onScheduledEvent_grows e pl s :
  grows (db s) (db (Gateway.onScheduledEvent e pl s)).
Proof.
  unfold Gateway.onScheduledEvent.
  destruct (Prisma.room_findUnique _ _); [|apply grows_refl].
  destruct (pl_severity pl); [|apply grows_refl].
  destruct (severityOfKey _); simpl; [|apply grows_refl].
  apply grows_same; simpl; auto.
Qed.

Lemma fireTimer_grows e h s : grows (db s) (db (fireTimer e h s)).
Proof.
  unfold fireTimer. destruct (timers _ !! h) as [t|]; [|apply grows_refl].
  simpl.
  exact (onScheduledEvent_grows e _
           (mkState (db s) (Scheduler.tickEmit h _ (sched s)) (gw s))).
Qed.

Lemma closeRoomAction_grows e roomId roomCode s :
  grows (db s) (db (closeRoomAction e roomId roomCode s)).
Proof.
  unfold closeRoomAction, Prisma.room_update_inactive.
  destruct (Js.truthy roomCode); simpl; [|apply grows_refl].
  destruct (List.find _ (rooms (db s))); simpl; [|apply grows_refl].
  eapply grows_rewrite; simpl; [reflexivity|lia|].
  intros p _. simpl.
  destruct (_ && _); auto using evolves_refl, evolves_disconnect.
Qed.

Lemma step_grows s ec : DbInv (db s) -> grows (db s) (db (step s ec)).
Proof.
  intros Hinv. destruct ec as [e []]; unfold step;
    auto using handleJoin_grows, handleLeave_grows, handleChatMessage_grows,
      handleManualEvent_grows, handleEventAck_grows, handleDisconnect_grows,
      fireTimer_grows, closeRoomAction_grows.
Qed.

Lemma run_snoc cmds ec s : run (cmds ++ [ec]) s = step (run cmds s) ec.
Proof. unfold run. rewrite fold_left_app. reflexivity. Qed.

Lemma run_app cmds1 cmds2 s : run (cmds1 ++ cmds2) s = run cmds2 (run cmds1 s).
Proof. unfold run. apply fold_left_app. Qed.

Lemma DbInv_initial : DbInv (db initialState).
Proof. repeat split; simpl; constructor. Qed.

Lemma step_DbInv s ec : DbInv (db s) -> DbInv (db (step s ec)).
Proof. intros H. eapply grows_inv; eauto using step_grows. Qed.

Lemma run_DbInv cmds s : DbInv (db s) -> DbInv (db (run cmds s)).
Proof.
  revert s. induction cmds as [|ec cmds IH]; intros s H; simpl; [exact H|].
  apply IH, step_DbInv, H.
Qed.

(** ** Rooms are never deleted and keep their code and identifier *)

Lemma roomsKept_same d d' : rooms d' = rooms d -> roomsKept d d'.
Proof.
  intros H code rid. unfold roomIdOf, Prisma.room_findUnique.
  rewrite H. auto.
Qed.

Lemma roomsKept_refl d : roomsKept d d.
Proof. apply roomsKept_same. reflexivity. Qed.

Lemma roomsKept_trans d1 d2 d3 :
  roomsKept d1 d2 -> roomsKept d2 d3 -> roomsKept d1 d3.
Proof. unfold roomsKept. eauto. Qed.

Lemma roomsKept_create t code title d :
  roomsKept d (snd (Prisma.room_create t code title d)).
Proof.
  intros c rid. unfold roomIdOf, Prisma.room_findUnique. simpl.
  destruct (List.find _ (rooms d)) as [r|] eqn:Hf; [|discriminate].
  rewrite (find_app_Some _ _ _ _ Hf). auto.
Qed.

Lemma roomsKept_deactivate t id d d' :
  Prisma.room_update_inactive t id d = Some d' -> roomsKept d d'.
Proof.
  unfold Prisma.room_update_inactive.
  destruct (List.find _ (rooms d)) as [r0|]; [|discriminate].
  intros [= <-] c rid. unfold roomIdOf, Prisma.room_findUnique. simpl.
  rewrite find_map_stable.
  - destruct (List.find _ (rooms d)) as [r|]; simpl; [|discriminate].
    destruct (Nat.eqb _ _); auto.
  - intros r. destruct (Nat.eqb _ _); reflexivity.
Qed.

Lemma upsert_rooms e roomId displayName isAdmin d :
  rooms (snd (Gateway.upsertParticipant e roomId displayName isAdmin d))
  = rooms d.
Proof.
  unfold Gateway.upsertParticipant.
  destruct (Prisma.participant_findFirst _ _ _); reflexivity.
Qed.

Lemma resolveRoom_kept e code isAdmin d room d1 :
  Gateway.resolveRoom e code isAdmin d = Some (room, d1) -> roomsKept d d1.
Proof.
  unfold Gateway.resolveRoom.
  destruct (Prisma.room_findUnique code d).
  - intros [= _ <-]. apply roomsKept_refl.
  - destruct isAdmin; simpl; [|discriminate].
    intros [= _ <-]. apply (roomsKept_create (now e)).
Qed.

Lemma handleJoin_db e sid roomCode displayName isAdmin s :
  db (Gateway.handleJoin e sid roomCode displayName isAdmin s)
  = match Gateway.resolveRoom e (Js.toUpperCase roomCode) isAdmin (db s) with
    | None => db s
    | Some (room, d1) =>
        snd (Gateway.upsertParticipant e (room_id room) displayName isAdmin d1)
    end.
Proof.
  unfold Gateway.handleJoin.
  destruct (Gateway.resolveRoom _ _ _ _) as [[room d1]|]; [|reflexivity].
  destruct (Gateway.upsertParticipant _ _ _ _ _); reflexivity.
Qed.

Lemma handleJoin_roomsKept e sid roomCode displayName isAdmin s :
  roomsKept (db s)
    (db (Gateway.handleJoin e sid roomCode displayName isAdmin s)).
Proof.
  rewrite handleJoin_db.
  destruct (Gateway.resolveRoom _ _ _ _) as [[room d1]|] eqn:Hr;
    [|apply roomsKept_refl].
  eapply roomsKept_trans; [eapply resolveRoom_kept, Hr|].
  apply roomsKept_same, upsert_rooms.
Qed.

Lemma handleLeave_roomsKept e sid roomCode s :
  roomsKept (db s) (db (Gateway.handleLeave e sid roomCode s)).
Proof.
  rewrite handleLeave_db.
  destruct (sd_participantId _); apply roomsKept_same; reflexivity.
Qed.

Lemma handleDisconnect_roomsKept e sid s :
  roomsKept (db s) (db (Gateway.handleDisconnect e sid s)).
Proof.
  unfold Gateway.handleDisconnect.
  destruct (sd_roomCode _) as [c|]; [destruct (Js.truthy c)|];
    auto using handleLeave_roomsKept, roomsKept_refl.
Qed.

Lemma handleChatMessage_roomsKept e sid content s :
  roomsKept (db s) (db (Gateway.handleChatMessage e sid content s)).
Proof.
  unfold Gateway.handleChatMessage. cbv zeta.
  destruct (sd_roomId (Gateway.dataOf sid (gw s))),
    (sd_roomCode (Gateway.dataOf sid (gw s))) as [c|];
    try apply roomsKept_refl.
  destruct (Js.truthy c); simpl; [|apply roomsKept_refl].
  destruct (Js.truthy (Js.trim content)); simpl;
    apply roomsKept_same; reflexivity.
Qed.

Lemma handleManualEvent_roomsKept e sid payload s :
  roomsKept (db s) (db (Gateway.handleManualEvent e sid payload s)).
Proof.
  unfold Gateway.handleManualEvent. cbv zeta.
  destruct (default false _); simpl; [|apply roomsKept_refl].
  destruct (sd_roomId (Gateway.dataOf sid (gw s))),
    (sd_roomCode (Gateway.dataOf sid (gw s))) as [c|];
    try apply roomsKept_refl.
  destruct (Js.truthy c); simpl; [|apply roomsKept_refl].
  destruct (severityOfKey _); simpl; apply roomsKept_same; reflexivity.
Qed.

Lemma handleEventAck_roomsKept e sid eventId s :
  roomsKept (db s) (db (Gateway.handleEventAck e sid eventId s)).
Proof. apply roomsKept_same. reflexivity. Qed.

Lemma onScheduledEvent_roomsKept e pl s :
  roomsKept (db s) (db (Gateway.onScheduledEvent e pl s)).
Proof.
  unfold Gateway.onScheduledEvent.
  destruct (Prisma.room_findUnique _ _); [|apply roomsKept_refl].
  destruct (pl_severity pl); [|apply roomsKept_refl].
  destruct (severityOfKey _); simpl; apply roomsKept_same; reflexivity.
Qed.

Lemma fireTimer_roomsKept e h s : roomsKept (db s) (db (fireTimer e h s)).
Proof.
  unfold fireTimer. destruct (timers _ !! h) as [t|]; [|apply roomsKept_refl].
  simpl.
  exact (onScheduledEvent_roomsKept e _
           (mkState (db s) (Scheduler.tickEmit h _ (sched s)) (gw s))).
Qed.

Lemma closeRoomAction_roomsKept e roomId roomCode s :
  roomsKept (db s) (db (closeRoomAction e roomId roomCode s)).
Proof.
  unfold closeRoomAction.
  destruct (Js.truthy roomCode); simpl; [|apply roomsKept_refl].
  destruct (Prisma.room_update_inactive _ _ _) as [d1|] eqn:Hu; simpl;
    [|apply roomsKept_refl].
  eapply roomsKept_trans; [eapply roomsKept_deactivate, Hu|].
  apply roomsKept_same. reflexivity.
Qed.

Lemma step_roomsKept s ec : roomsKept (db s) (db (step s ec)).
Proof.
  destruct ec as [e []]; unfold step;
    auto using handleJoin_roomsKept, handleLeave_roomsKept,
      handleChatMessage_roomsKept, handleManualEvent_roomsKept,
      handleEventAck_roomsKept, handleDisconnect_roomsKept, fireTimer_roomsKept,
      closeRoomAction_roomsKept, roomsKept_refl.
Qed.

Lemma run_roomsKept cmds s : roomsKept (db s) (db (run cmds s)).
Proof.
  revert s. induction cmds as [|ec cmds IH]; intros s; simpl.
  - apply roomsKept_refl.
  - eapply roomsKept_trans; [apply step_roomsKept | apply IH].
Qed.

(** ** The rows of a (room, displayName) pair *)

Lemma hasKey_keyOf roomId displayName p :
  hasKey roomId displayName p = true <-> keyOf p = (roomId, displayName).
Proof.
  unfold hasKey, keyOf. rewrite andb_true_iff, Nat.eqb_eq, String.eqb_eq.
  split; [intros [-> ->]; reflexivity | intros [= -> ->]; auto].
Qed.

Lemma known_rows roomId displayName d :
  known roomId displayName d <-> rowsOf roomId displayName d <> [].
Proof.
  unfold known, rowsOf. split.
  - intros Hin Hnil. apply in_map_iff in Hin as (p & Hk & Hp).
    apply hasKey_keyOf in Hk.
    assert (Hm : In p (List.filter (hasKey roomId displayName)
                         (participants d))) by (apply filter_In; auto).
    rewrite Hnil in Hm. destruct Hm.
  - destruct (List.filter _ _) as [|p l] eqn:Hf; [congruence|]. intros _.
    assert (Hm : In p (List.filter (hasKey roomId displayName)
                         (participants d))) by (rewrite Hf; left; auto).
    apply filter_In in Hm as [Hp Hk]. apply hasKey_keyOf in Hk.
    apply in_map_iff. eauto.
Qed.

Lemma grows_known roomId displayName d d' :
  grows d d' -> known roomId displayName d -> known roomId displayName d'.
Proof.
  intros (_ & l' & tail & Hp & Hev & _). unfold known.
  rewrite Hp, map_app, (Forall2_evolves_keys _ _ Hev), in_app_iff. auto.
Qed.

Lemma run_known roomId displayName cmds s :
  DbInv (db s) -> known roomId displayName (db s) ->
  known roomId displayName (db (run cmds s)).
Proof.
  revert s. induction cmds as [|ec cmds IH]; intros s Hinv Hk; simpl; auto.
  apply IH; [apply step_DbInv, Hinv|].
  eapply grows_known; [apply step_grows, Hinv | exact Hk].
Qed.

Lemma unique_row roomId displayName (l : list Participant) x :
  NoDup (List.map keyOf l) ->
  List.find (hasKey roomId displayName) l = Some x ->
  List.filter (hasKey roomId displayName) l = [x].
Proof.
  induction l as [|a l IH]; simpl; [discriminate|].
  intros Hnd. destruct (hasKey roomId displayName a) eqn:Ha.
  - intros [= <-]. f_equal.
    destruct (List.filter _ l) as [|q l'] eqn:Hf; [reflexivity|].
    assert (Hq : In q (List.filter (hasKey roomId displayName) l))
      by (rewrite Hf; left; auto).
    apply filter_In in Hq as [Hq Hk].
    apply hasKey_keyOf in Ha, Hk. apply NoDup_cons_1_1 in Hnd.
    exfalso. apply Hnd. rewrite Ha, <- Hk.
    apply list_elem_of_In, in_map, Hq.
  - apply NoDup_cons_1_2 in Hnd. auto.
Qed.

Lemma resolveRoom_participants e code isAdmin d room d1 :
  Gateway.resolveRoom e code isAdmin d = Some (room, d1) ->
  participants d1 = participants d.
Proof.
  unfold Gateway.resolveRoom.
  destruct (Prisma.room_findUnique code d).
  - intros [= _ <-]. reflexivity.
  - destruct isAdmin; simpl; [|discriminate]. intros [= _ <-]. reflexivity.
Qed.

Lemma resolveRoom_roomIdOf e code isAdmin d room d1 :
  Gateway.resolveRoom e code isAdmin d = Some (room, d1) ->
  roomIdOf code d1 = Some (room_id room).
Proof.
  unfold Gateway.resolveRoom, roomIdOf.
  destruct (Prisma.room_findUnique code d) as [r|] eqn:Hf.
  - intros [= <- <-]. rewrite Hf. reflexivity.
  - destruct isAdmin; simpl; [|discriminate]. intros [= <- <-].
    unfold Prisma.room_findUnique in *. simpl.
    rewrite (find_app_None _ _ _ Hf). simpl.
    rewrite String.eqb_refl. reflexivity.
Qed.

Lemma resolveRoom_found e code isAdmin d rid :
  roomIdOf code d = Some rid ->
  exists room, Gateway.resolveRoom e code isAdmin d = Some (room, d) /\
               room_id room = rid.
Proof.
  unfold roomIdOf, Gateway.resolveRoom.
  destruct (Prisma.room_findUnique code d) as [r|]; simpl; [|discriminate].
  intros [= <-]. eauto.
Qed.

(** What a successful join leaves in the participant table. *)
Lemma upsert_rows e roomId displayName isAdmin d :
  NoDup (List.map keyOf (participants d)) ->
  let d' := snd (Gateway.upsertParticipant e roomId displayName isAdmin d) in
  exists p,
    rowsOf roomId displayName d' = [p] /\
    part_isConnected p = true /\ part_leftAt p = None /\
    (isAdmin = true -> part_role p = Some "formateur") /\
    (isAdmin = false ->
     forall ex, rowsOf roomId displayName d = [ex] ->
                part_role p = part_role ex) /\
    (known roomId displayName d ->
     length (participants d') = length (participants d)).
Proof.
  intros Hnd. unfold Gateway.upsertParticipant. rewrite findFirst_is_find.
  destruct (List.find _ (participants d)) as [ex|] eqn:Hf; simpl.
  - pose proof (unique_row _ _ _ _ Hnd Hf) as Hrows.
    exists (Prisma.reconnect
              (if isAdmin then Some "formateur" else part_role ex) ex).
    unfold rowsOf in *. simpl. rewrite filter_map_stable, Hrows.
    + simpl. rewrite Nat.eqb_refl. repeat split; simpl; auto.
      * intros ->. reflexivity.
      * intros -> ex' [= <-]. reflexivity.
      * intros _. apply length_map.
    + intros a. destruct (Nat.eqb _ _); reflexivity.
  - pose proof (find_None_filter _ _ Hf) as Hrows.
    eexists. unfold rowsOf in *. simpl. rewrite List.filter_app, Hrows. simpl.
    unfold hasKey at 1. simpl. rewrite Nat.eqb_refl, String.eqb_refl. simpl.
    repeat split; simpl; auto.
    + intros ->. reflexivity.
    + intros _ ex' [=].
    + intros Hk. apply known_rows in Hk. unfold rowsOf in Hk. congruence.
Qed.

Lemma handleJoin_rows e sid roomCode displayName isAdmin s room d1 :
  DbInv (db s) ->
  Gateway.resolveRoom e (Js.toUpperCase roomCode) isAdmin (db s)
  = Some (room, d1) ->
  let s' := Gateway.handleJoin e sid roomCode displayName isAdmin s in
  roomIdOf (Js.toUpperCase roomCode) (db s') = Some (room_id room) /\
  exists p,
    rowsOf (room_id room) displayName (db s') = [p] /\
    part_isConnected p = true /\ part_leftAt p = None /\
    (isAdmin = true -> part_role p = Some "formateur") /\
    (isAdmin = false ->
     forall ex, rowsOf (room_id room) displayName (db s) = [ex] ->
                part_role p = part_role ex) /\
    (known (room_id room) displayName (db s) ->
     length (participants (db s')) = length (participants (db s))).
Proof.
  intros (_ & _ & Hkeys) Hr. cbv zeta. rewrite handleJoin_db, Hr.
  pose proof (resolveRoom_participants _ _ _ _ _ _ Hr) as Hp.
  split.
  - pose proof (resolveRoom_roomIdOf _ _ _ _ _ _ Hr) as Hid.
    unfold roomIdOf, Prisma.room_findUnique in *.
    rewrite upsert_rooms. exact Hid.
  - rewrite <- Hp in Hkeys.
    destruct (upsert_rows e (room_id room) displayName isAdmin d1 Hkeys)
      as (p & H1 & H2 & H3 & H4 & H5 & H6).
    exists p. unfold known, rowsOf in *. rewrite <- Hp. auto 10.
Qed.

Lemma unique_row_in roomId displayName (l : list Participant) x :
  NoDup (List.map keyOf l) -> In x l -> keyOf x = (roomId, displayName) ->
  List.filter (hasKey roomId displayName) l = [x].
Proof.
  intros Hnd Hin Hk.
  destruct (List.find (hasKey roomId displayName) l) as [y|] eqn:Hf.
  - rewrite (unique_row _ _ _ _ Hnd Hf). f_equal.
    apply find_Some_holds in Hf as [Hy Hyin]. apply hasKey_keyOf in Hy.
    clear -Hnd Hin Hyin Hk Hy. induction l as [|a l IH]; [destruct Hin|].
    simpl in Hnd. pose proof (NoDup_cons_1_1 _ _ Hnd) as Ha.
    apply NoDup_cons_1_2 in Hnd.
    destruct Hin as [->|Hin], Hyin as [Heq|Hyin]; auto.
    + exfalso. apply Ha. rewrite Hk, <- Hy.
      apply list_elem_of_In, in_map, Hyin.
    + subst a. exfalso. apply Ha. rewrite Hy, <- Hk.
      apply list_elem_of_In, in_map, Hin.
  - apply find_None_filter in Hf. apply hasKey_keyOf in Hk.
    assert (Hm : In x (List.filter (hasKey roomId displayName) l))
      by (apply filter_In; auto).
    rewrite Hf in Hm. destruct Hm.
Qed.

Lemma Forall2_evolves_in l l' p :
  Forall2 evolves l l' -> In p l -> exists p', In p' l' /\ evolves p p'.
Proof.
  induction 1 as [|a a' l l' Ha _ IH]; simpl; [tauto|].
  intros [->|Hin]; [eauto|].
  destruct (IH Hin) as (p' & Hin' & Hpp). eauto.
Qed.

Lemma grows_row d d' p :
  grows d d' -> In p (participants d) ->
  exists p', In p' (participants d') /\ evolves p p'.
Proof.
  intros (_ & l' & tail & Hp & Hev & _) Hin. rewrite Hp.
  destruct (Forall2_evolves_in _ _ _ Hev Hin) as (p' & Hin' & Hpp).
  exists p'. split; [|exact Hpp].
  apply in_app_iff. left. exact Hin'.
Qed.

Lemma run_row cmds s p :
  DbInv (db s) -> In p (participants (db s)) ->
  exists p', In p' (participants (db (run cmds s))) /\ evolves p p'.
Proof.
  revert s p. induction cmds as [|ec cmds IH]; intros s p Hinv Hin; simpl.
  - eauto using evolves_refl.
  - destruct (grows_row _ _ _ (step_grows s ec Hinv) Hin) as (q & Hq & Hpq).
    destruct (IH _ _ (step_DbInv s ec Hinv) Hq) as (r & Hr & Hqr).
    eauto using evolves_trans.
Qed.

(** Joins handled in turn. When every handler runs to its end before the
    next one starts, two joins of a (room, displayName) pair, with any
    commands in between (leaving, disconnecting, reconnecting under another
    socket, closing the room, ...), leave exactly one participant row for the
    pair: the first successful join leaves one row, and the second one
    rewrites that row (connected, [leftAt] cleared) without adding a row to
    the table. (Joins that overlap are another matter, see below.) *)
Theorem join_twice_one_row cmds0 e1 sid1 roomCode displayName isAdmin1
    cmds e2 sid2 isAdmin2 :
  let s0 := run cmds0 initialState in
  let s1 := Gateway.handleJoin e1 sid1 roomCode displayName isAdmin1 s0 in
  let s2 := run cmds s1 in
  let s3 := Gateway.handleJoin e2 sid2 roomCode displayName isAdmin2 s2 in
  is_Some (Prisma.room_findUnique (Js.toUpperCase roomCode) (db s0))
    \/ isAdmin1 = true ->
  exists roomId p,
    roomIdOf (Js.toUpperCase roomCode) (db s1) = Some roomId /\
    roomIdOf (Js.toUpperCase roomCode) (db s3) = Some roomId /\
    length (rowsOf roomId displayName (db s1)) = 1 /\
    rowsOf roomId displayName (db s3) = [p] /\
    part_isConnected p = true /\ part_leftAt p = None /\
    length (participants (db s3)) = length (participants (db s2)).
Proof.
  intros s0 s1 s2 s3 Hjoin.
  assert (Hinv0 : DbInv (db s0)) by apply run_DbInv, DbInv_initial.
  assert (Hinv1 : DbInv (db s1)) by (apply (step_DbInv s0 (e1, RoomJoin _ _ _ _)), Hinv0).
  assert (Hinv2 : DbInv (db s2)) by apply run_DbInv, Hinv1.
  assert (Hres : exists room d1,
             Gateway.resolveRoom e1 (Js.toUpperCase roomCode) isAdmin1 (db s0)
             = Some (room, d1)).
  { unfold Gateway.resolveRoom.
    destruct Hjoin as [[r ->]| ->]; [eauto|].
    destruct (Prisma.room_findUnique _ _); simpl; eauto. }
  destruct Hres as (room & d1 & Hres).
  destruct (handleJoin_rows e1 sid1 roomCode displayName isAdmin1 s0 room d1
              Hinv0 Hres) as (Hid1 & p1 & Hrows1 & _).
  fold s1 in Hid1, Hrows1.
  assert (Hid2 : roomIdOf (Js.toUpperCase roomCode) (db s2)
                 = Some (room_id room)) by (apply run_roomsKept, Hid1).
  destruct (resolveRoom_found e2 _ isAdmin2 _ _ Hid2) as (room2 & Hres2 & Heq).
  destruct (handleJoin_rows e2 sid2 roomCode displayName isAdmin2 s2 room2
              (db s2) Hinv2 Hres2) as (Hid3 & p & Hrows3 & Hc & Hl & _ & _ & Hlen).
  fold s3 in Hid3, Hrows3, Hlen. rewrite Heq in *.
  exists (room_id room), p. rewrite Hrows1. repeat split; auto.
  apply Hlen. apply run_known; [exact Hinv1|].
  apply known_rows. rewrite Hrows1. discriminate.
Qed.

Lemma join_twice_one_row_witness :
  let cmds := [(env 2, Disconnect "s1")] in
  let s0 := run [] initialState in
  let s1 := Gateway.handleJoin (env 1) "s1" "abcd1" "Alice" true s0 in
  let s2 := run cmds s1 in
  let s3 := Gateway.handleJoin (env 3) "s2" "abcd1" "Alice" false s2 in
  (is_Some (Prisma.room_findUnique (Js.toUpperCase "abcd1") (db s0))
     \/ true = true) /\
  exists roomId p,
    roomIdOf (Js.toUpperCase "abcd1") (db s1) = Some roomId /\
    roomIdOf (Js.toUpperCase "abcd1") (db s3) = Some roomId /\
    length (rowsOf roomId "Alice" (db s1)) = 1 /\
    rowsOf roomId "Alice" (db s3) = [p] /\
    part_isConnected p = true /\ part_leftAt p = None /\
    length (participants (db s3)) = length (participants (db s2)).
Proof.
  split; [right; reflexivity|].
  apply (join_twice_one_row [] (env 1) "s1" "abcd1" "Alice" true
           [(env 2, Disconnect "s1")] (env 3) "s2" false).
  right; reflexivity.
Defined.

(** Roles, for joins handled in turn. When every handler runs to its end
    before the next one starts, a participant row whose stored role is
    "formateur" keeps that role through every later join under the same
    (room, displayName), whatever the admin flag of the join and whatever
    happened in between; and an admin join always leaves the row of its pair
    with the role "formateur". (Joins that overlap are another matter, see
    below.) *)
Theorem formateur_never_downgraded :
  (forall cmds0 cmds e sid roomCode isAdmin p,
      let s := run cmds0 initialState in
      let s2 := run cmds s in
      let s3 :=
        Gateway.handleJoin e sid roomCode (part_displayName p) isAdmin s2 in
      In p (participants (db s)) ->
      part_role p = Some "formateur" ->
      roomIdOf (Js.toUpperCase roomCode) (db s) = Some (part_roomId p) ->
      exists p',
        roomIdOf (Js.toUpperCase roomCode) (db s3) = Some (part_roomId p) /\
        rowsOf (part_roomId p) (part_displayName p) (db s3) = [p'] /\
        part_id p' = part_id p /\ part_role p' = Some "formateur") /\
  (forall cmds0 e sid roomCode displayName,
      let s := run cmds0 initialState in
      let s' := Gateway.handleJoin e sid roomCode displayName true s in
      exists roomId p',
        roomIdOf (Js.toUpperCase roomCode) (db s') = Some roomId /\
        rowsOf roomId displayName (db s') = [p'] /\
        part_role p' = Some "formateur").
Proof.
  split.
  - intros cmds0 cmds e sid roomCode isAdmin p s s2 s3 Hin Hrole Hroom.
    assert (Hinv : DbInv (db s)) by apply run_DbInv, DbInv_initial.
    assert (Hinv3 : DbInv (db s3)).
    { apply (step_DbInv s2 (e, RoomJoin _ _ _ _)), run_DbInv, Hinv. }
    destruct (run_row (cmds ++ [(e, RoomJoin sid roomCode (part_displayName p)
                                      isAdmin)]) s p Hinv Hin)
      as (p' & Hin' & Hid & Hr & Hn & Hkeep).
    rewrite run_snoc in Hin'. simpl in Hin'. fold s2 s3 in Hin'.
    exists p'. split; [|split; [|auto]].
    + apply (step_roomsKept s2 (e, RoomJoin _ _ _ _)), run_roomsKept, Hroom.
    + destruct Hinv3 as (_ & _ & Hkeys).
      apply unique_row_in; auto. unfold keyOf. congruence.
  - intros cmds0 e sid roomCode displayName s s'.
    assert (Hinv : DbInv (db s)) by apply run_DbInv, DbInv_initial.
    assert (Hres : exists room d1,
               Gateway.resolveRoom e (Js.toUpperCase roomCode) true (db s)
               = Some (room, d1)).
    { unfold Gateway.resolveRoom.
      destruct (Prisma.room_findUnique _ _); simpl; eauto. }
    destruct Hres as (room & d1 & Hres).
    destruct (handleJoin_rows e sid roomCode displayName true s room d1
                Hinv Hres) as (Hid & p' & Hrows & _ & _ & Hadm & _).
    exists (room_id room), p'. auto.
Qed.

Lemma formateur_never_downgraded_witness :
  let p := mkParticipant 1 0 "FORM1" (Some "formateur") true 1 None in
  let s := run [(env 1, RoomJoin "s1" "abcd1" "FORM1" true)] initialState in
  let s2 := run [(env 2, Disconnect "s1")] s in
  let s3 := Gateway.handleJoin (env 3) "s2" "ABCD1" "FORM1" false s2 in
  In p (participants (db s)) /\
  part_role p = Some "formateur" /\
  roomIdOf (Js.toUpperCase "ABCD1") (db s) = Some (part_roomId p) /\
  exists p',
    roomIdOf (Js.toUpperCase "ABCD1") (db s3) = Some (part_roomId p) /\
    rowsOf (part_roomId p) (part_displayName p) (db s3) = [p'] /\
    part_id p' = part_id p /\ part_role p' = Some "formateur".
Proof.
  assert (H1 : In (mkParticipant 1 0 "FORM1" (Some "formateur") true 1 None)
                 (participants
                    (db (run [(env 1, RoomJoin "s1" "abcd1" "FORM1" true)]
                           initialState)))) by (left; reflexivity).
  repeat split; [exact H1|].
  exact (proj1 formateur_never_downgraded
           [(env 1, RoomJoin "s1" "abcd1" "FORM1" true)]
           [(env 2, Disconnect "s1")] (env 3) "s2" "ABCD1" false
           (mkParticipant 1 0 "FORM1" (Some "formateur") true 1 None)
           H1 eq_refl eq_refl).
Defined.

(** ** Joins that overlap *)

Lemma handleJoin_split e sid roomCode displayName isAdmin s :
  Gateway.handleJoin e sid roomCode displayName isAdmin s
  = match Gateway.joinLookup e sid roomCode displayName isAdmin s with
    | (Some pj, s1) => Gateway.joinCommit e sid pj s1
    | (None, s1) => s1
    end.
Proof.
  unfold Gateway.handleJoin, Gateway.joinLookup, Gateway.joinCommit.
  cbv zeta.
  destruct (Gateway.resolveRoom _ _ _ _) as [[room d1]|]; [|reflexivity].
  unfold Gateway.upsertParticipant.
  cbn [Gateway.pj_existing Gateway.pj_code Gateway.pj_room
       Gateway.pj_displayName Gateway.pj_isAdmin db sched gw].
  destruct (Prisma.participant_findFirst _ _ _); reflexivity.
Qed.

(** A join that nothing interrupts is the handler of [run]. *)
Lemma uninterrupted_join e sid roomCode displayName isAdmin p :
  awaiting p !! sid = None ->
  current (schedule [(e, JoinLookup sid roomCode displayName isAdmin);
                     (e, JoinCommit sid)] p)
  = step (current p) (e, RoomJoin sid roomCode displayName isAdmin).
Proof.
  intros Ha. unfold schedule, step. cbn [List.fold_left segment].
  rewrite handleJoin_split.
  destruct (Gateway.joinLookup _ _ _ _ _ _) as [[pj|] s1] eqn:Hl.
  - cbn [awaiting current]. rewrite lookup_insert_eq. reflexivity.
  - cbn [awaiting current]. rewrite Ha. reflexivity.
Qed.

(** C1 fails when two joins overlap. [handleJoin] awaits between its
    [findFirst] and its [create], nothing serialises the listeners of two
    sockets, and the table has no unique index on (roomId, displayName).
    Two sockets join room ABCD1 as Alice: both look the pair up before
    either creates its row, both find nothing, and both create one. The
    pair ends with two rows. (Handled in turn, the same two joins leave
    one row.) *)
Lemma overlapping_joins_two_rows :
  let p0 :=
    settled (run [(env 1, RoomJoin "s0" "ABCD1" "FORM1" true)] initialState) in
  let overlapped :=
    schedule [(env 2, JoinLookup "s1" "ABCD1" "Alice" false);
              (env 3, JoinLookup "s2" "ABCD1" "Alice" false);
              (env 4, JoinCommit "s1");
              (env 5, JoinCommit "s2")] p0 in
  let in_turn :=
    schedule [(env 2, JoinLookup "s1" "ABCD1" "Alice" false);
              (env 4, JoinCommit "s1");
              (env 3, JoinLookup "s2" "ABCD1" "Alice" false);
              (env 5, JoinCommit "s2")] p0 in
  roomIdOf "ABCD1" (db (current p0)) = Some 0 /\
  rowsOf 0 "Alice" (db (current p0)) = [] /\
  rowsOf 0 "Alice" (db (current overlapped))
  = [mkParticipant 2 0 "Alice" (Some "participant") true 4 None;
     mkParticipant 3 0 "Alice" (Some "participant") true 5 None] /\
  rowsOf 0 "Alice" (db (current in_turn))
  = [mkParticipant 2 0 "Alice" (Some "participant") true 4 None].
Proof. repeat split. Qed.

(** C7 fails when a join without the admin flag overlaps an admin join of
    the same pair. The [update] of [handleJoin] writes back
    [existingParticipant.role], the role its [findFirst] read before the
    [await]. Alice is a participant of ABCD1; socket s3 joins as Alice
    without the admin flag and reads her row; before it resumes, socket s4
    joins as Alice with the admin flag, which makes the stored role
    "formateur"; then s3 resumes and writes "participant" over it. *)
Lemma overlapping_join_downgrades :
  let p0 :=
    settled (run [(env 1, RoomJoin "s1" "ABCD1" "FORM1" true);
                  (env 2, RoomJoin "s2" "ABCD1" "Alice" false)]
               initialState) in
  let before :=
    schedule [(env 3, JoinLookup "s3" "ABCD1" "Alice" false);
              (env 4, Whole (RoomJoin "s4" "ABCD1" "Alice" true))] p0 in
  let after := schedule [(env 5, JoinCommit "s3")] before in
  rowsOf 0 "Alice" (db (current before))
  = [mkParticipant 2 0 "Alice" (Some "formateur") true 2 None] /\
  rowsOf 0 "Alice" (db (current after))
  = [mkParticipant 2 0 "Alice" (Some "participant") true 2 None].
Proof. repeat split. Qed.

(** ** Rejected commands *)

(** C2. A join with the admin flag false for a room code that has no
    persisted room changes nothing in the store (no room is created), in the
    scheduler, in the connection registry or in the socket's data, and emits
    one thing only: the "room not found" error, to the joining socket. *)
Theorem join_missing_room_not_admin e sid roomCode displayName s :
  Prisma.room_findUnique (Js.toUpperCase roomCode) (db s) = None ->
  let s' := Gateway.handleJoin e sid roomCode displayName false s in
  db s' = db s /\ sched s' = sched s /\
  roomConnections (gw s') = roomConnections (gw s) /\
  socketData (gw s') = socketData (gw s) /\
  socketRooms (gw s') = socketRooms (gw s) /\
  outbox (gw s')
  = outbox (gw s)
    ++ [mkEmission (ToSocket sid)
          (SystemError
             ("La salle " ++ Js.toUpperCase roomCode ++
              " n’existe pas encore. Demandez au formateur de la créer.")%string)].
Proof.
  intros Hnone. unfold Gateway.handleJoin, Gateway.resolveRoom.
  rewrite Hnone. simpl. auto 10.
Qed.

Lemma join_missing_room_not_admin_witness :
  let s' := Gateway.handleJoin (env 1) "s1" "abcd1" "Alice" false initialState in
  Prisma.room_findUnique (Js.toUpperCase "abcd1") (db initialState) = None /\
  db s' = db initialState /\ sched s' = sched initialState /\
  roomConnections (gw s') = roomConnections (gw initialState) /\
  socketData (gw s') = socketData (gw initialState) /\
  socketRooms (gw s') = socketRooms (gw initialState) /\
  outbox (gw s')
  = outbox (gw initialState)
    ++ [mkEmission (ToSocket "s1")
          (SystemError
             ("La salle " ++ Js.toUpperCase "abcd1" ++
              " n’existe pas encore. Demandez au formateur de la créer.")%string)].
Proof.
  split; [reflexivity|].
  apply (join_missing_room_not_admin (env 1) "s1" "abcd1" "Alice" initialState).
  reflexivity.
Defined.

(** C4. An event-create command from a connection without admin privilege
    persists nothing (the store is unchanged), touches neither the scheduler
    nor the registry, and emits exactly one signal: the authorization error,
    to the originating socket and not to the room. *)
Theorem manual_event_not_admin e sid payload s :
  isAdminConnection sid s = false ->
  let s' := Gateway.handleManualEvent e sid payload s in
  db s' = db s /\ sched s' = sched s /\
  roomConnections (gw s') = roomConnections (gw s) /\
  outbox (gw s')
  = outbox (gw s)
    ++ [mkEmission (ToSocket sid)
          (SystemError "Seul un formateur peut injecter un événement.")].
Proof.
  unfold isAdminConnection, Gateway.handleManualEvent. cbv zeta.
  intros ->. simpl. auto.
Qed.

Lemma manual_event_not_admin_witness :
  let s := run [(env 1, RoomJoin "s1" "ABCD1" "FORM1" true);
                (env 2, RoomJoin "s2" "ABCD1" "Alice" false)] initialState in
  let payload := Gateway.mkEventCreate "ABCD1" "Coupure" "panne" "HIGH" in
  let s' := Gateway.handleManualEvent (env 3) "s2" payload s in
  isAdminConnection "s2" s = false /\
  db s' = db s /\ sched s' = sched s /\
  roomConnections (gw s') = roomConnections (gw s) /\
  outbox (gw s')
  = outbox (gw s)
    ++ [mkEmission (ToSocket "s2")
          (SystemError "Seul un formateur peut injecter un événement.")].
Proof.
  split; [reflexivity|].
  apply (manual_event_not_admin (env 3) "s2"
           (Gateway.mkEventCreate "ABCD1" "Coupure" "panne" "HIGH")).
  reflexivity.
Defined.

(** C5, as stated, fails: the value "low" is none of LOW, MODERATE, HIGH,
    CRITICAL, yet an event-create carrying it, sent by a joined admin, is
    accepted: the severity is upper-cased before it is checked, and a
    CrisisEvent of severity LOW and its companion Message are persisted. *)
Lemma lowercase_severity_is_persisted :
  let s := run [(env 1, RoomJoin "s1" "ABCD1" "FORM1" true)] initialState in
  let payload := Gateway.mkEventCreate "ABCD1" "Coupure" "panne" "low" in
  let s' := Gateway.handleManualEvent (env 2) "s1" payload s in
  outsideEnumeration (Gateway.ec_severity payload) /\
  crisisEvents (db s) = [] /\ messages (db s) = [] /\
  crisisEvents (db s')
  = [mkCrisisEvent 2 0 "Coupure" "panne" LOW MANUAL None 2 None None] /\
  messages (db s')
  = [mkMessage 3 0 (Some "FORM1") EVENT "panne" (Some ("LOW", MANUAL)) 2].
Proof.
  split; [intros []; discriminate|]. repeat split.
Qed.

(** C5, amended. When the upper-cased severity of an event-create command is
    not an own property of the enumeration, nothing is persisted and exactly
    one error signal is emitted, to the originating socket only. The checks
    run in the order admin, room, severity, so the signal is the validation
    error exactly when the connection is a joined admin. *)
Theorem manual_event_invalid_severity e sid payload s :
  severityOfKey (Js.toUpperCase (Gateway.ec_severity payload)) = None ->
  let s' := Gateway.handleManualEvent e sid payload s in
  let sd := Gateway.dataOf sid (gw s) in
  db s' = db s /\ sched s' = sched s /\
  roomConnections (gw s') = roomConnections (gw s) /\
  exists message,
    outbox (gw s')
    = outbox (gw s) ++ [mkEmission (ToSocket sid) (SystemError message)] /\
    (isAdminConnection sid s = true -> is_Some (sd_roomId sd) ->
     Js.truthyOpt (sd_roomCode sd) = true ->
     message = "Sévérité invalide pour l’événement.").
Proof.
  unfold isAdminConnection, Gateway.handleManualEvent. cbv zeta.
  intros Hsev.
  destruct (default false _); simpl.
  - destruct (sd_roomId (Gateway.dataOf sid (gw s))) as [rid|],
      (sd_roomCode (Gateway.dataOf sid (gw s))) as [c|]; simpl;
      try (repeat split; eexists; split; [reflexivity|];
           intros _ Hs Ht; (discriminate || (destruct Hs; discriminate))).
    destruct (Js.truthy c); simpl.
    + rewrite Hsev. simpl. repeat split. eexists. split; reflexivity.
    + repeat split. eexists. split; [reflexivity|]. discriminate.
  - repeat split. eexists. split; [reflexivity|]. discriminate.
Qed.

Lemma manual_event_invalid_severity_witness :
  let s := run [(env 1, RoomJoin "s1" "ABCD1" "FORM1" true)] initialState in
  let payload := Gateway.mkEventCreate "ABCD1" "Coupure" "panne" "SEVERE" in
  let s' := Gateway.handleManualEvent (env 2) "s1" payload s in
  let sd := Gateway.dataOf "s1" (gw s) in
  severityOfKey (Js.toUpperCase (Gateway.ec_severity payload)) = None /\
  db s' = db s /\ sched s' = sched s /\
  roomConnections (gw s') = roomConnections (gw s) /\
  exists message,
    outbox (gw s')
    = outbox (gw s) ++ [mkEmission (ToSocket "s1") (SystemError message)] /\
    (isAdminConnection "s1" s = true -> is_Some (sd_roomId sd) ->
     Js.truthyOpt (sd_roomCode sd) = true ->
     message = "Sévérité invalide pour l’événement.").
Proof.
  split; [reflexivity|].
  apply (manual_event_invalid_severity (env 2) "s1"
           (Gateway.mkEventCreate "ABCD1" "Coupure" "panne" "SEVERE")).
  reflexivity.
Defined.

(** ** Acknowledging an event *)

Lemma ack_rows eventId t (l : list CrisisEvent) :
  Forall2 (ackOnly eventId t) l
    (List.map (fun ev => if Nat.eqb (ev_id ev) eventId
                         then Prisma.acknowledge t ev else ev) l).
Proof.
  induction l as [|ev l IH]; simpl; constructor; [|exact IH].
  unfold ackOnly. destruct (Nat.eqb (ev_id ev) eventId) eqn:Hid; simpl;
    rewrite ?Hid; auto 12.
Qed.

Lemma ack_twice t1 t2 eventId d :
  Prisma.crisisEvent_ack t2 eventId (Prisma.crisisEvent_ack t1 eventId d)
  = Prisma.crisisEvent_ack t2 eventId d.
Proof.
  unfold Prisma.crisisEvent_ack. simpl. f_equal.
  rewrite List.map_map. apply List.map_ext. intros ev.
  destruct (Nat.eqb (ev_id ev) eventId) eqn:Hid; simpl; rewrite Hid;
    reflexivity.
Qed.

(** C9. The event-ack handler changes nothing but the [ackAt] column of the
    events whose id matches, which it sets to the current time: the other
    tables, the id generator, the scheduler, the gateway state and every
    other column of every event are as before, row by row. Acknowledging
    again is accepted like the first time and overwrites the timestamp: the
    result is the one a single acknowledgment at the later time gives. *)
Theorem event_ack_changes_only_ackAt e sid eventId s :
  let s' := Gateway.handleEventAck e sid eventId s in
  rooms (db s') = rooms (db s) /\
  participants (db s') = participants (db s) /\
  messages (db s') = messages (db s) /\
  nextId (db s') = nextId (db s) /\
  sched s' = sched s /\ gw s' = gw s /\
  Forall2 (ackOnly eventId (now e)) (crisisEvents (db s))
    (crisisEvents (db s')) /\
  (forall e2 sid2,
      Gateway.handleEventAck e2 sid2 eventId s'
      = Gateway.handleEventAck e2 sid2 eventId s).
Proof.
  unfold Gateway.handleEventAck. simpl. repeat split.
  - apply ack_rows.
  - intros e2 sid2. rewrite ack_twice. reflexivity.
Qed.

(** ** Commands of a connection that never joined *)

(** Chat and event-create from an unjoined connection are rejected: the
    store is unchanged and the only emission is an error to that socket. *)
Lemma unjoined_chat_and_event_create_rejected e sid s :
  unjoined sid s ->
  (forall content,
      let s' := Gateway.handleChatMessage e sid content s in
      db s' = db s /\
      outbox (gw s')
      = outbox (gw s)
        ++ [mkEmission (ToSocket sid)
              (SystemError "Impossible d’identifier la salle courante.")]) /\
  (forall payload,
      let s' := Gateway.handleManualEvent e sid payload s in
      db s' = db s /\
      outbox (gw s')
      = outbox (gw s)
        ++ [mkEmission (ToSocket sid)
              (SystemError "Seul un formateur peut injecter un événement.")]).
Proof.
  unfold unjoined. intros Hnone. split.
  - intros content. unfold Gateway.handleChatMessage, Gateway.dataOf.
    rewrite Hnone. simpl. auto.
  - intros payload. unfold Gateway.handleManualEvent, Gateway.dataOf.
    rewrite Hnone. simpl. auto.
Qed.

(** C8 fails on event-ack: the [event:ack] listener checks nothing about the
    socket. A connection that never joined acknowledges the event of another
    room's formateur, and the row is rewritten. *)
Lemma event_ack_from_unjoined_connection :
  let s := run [(env 1, RoomJoin "s1" "ABCD1" "FORM1" true);
                (env 2, EventCreate "s1"
                          (Gateway.mkEventCreate "ABCD1" "Coupure" "panne"
                             "HIGH"))] initialState in
  let s' := step s (env 3, EventAck "s9" 2) in
  unjoined "s9" s /\
  crisisEvents (db s)
  = [mkCrisisEvent 2 0 "Coupure" "panne" HIGH MANUAL None 2 None None] /\
  crisisEvents (db s')
  = [mkCrisisEvent 2 0 "Coupure" "panne" HIGH MANUAL None 2 (Some 3) None] /\
  outbox (gw s') = outbox (gw s).
Proof. repeat split. Qed.

(** ** What each handler does to the scheduler *)

Lemma handleJoin_sched e sid roomCode displayName isAdmin s :
  sched (Gateway.handleJoin e sid roomCode displayName isAdmin s)
  = match Gateway.resolveRoom e (Js.toUpperCase roomCode) isAdmin (db s) with
    | None => sched s
    | Some _ =>
        if isAdmin
        then Scheduler.startRoomScheduler (rnd1 e) (Js.toUpperCase roomCode)
               (sched s)
        else sched s
    end.
Proof.
  unfold Gateway.handleJoin.
  destruct (Gateway.resolveRoom _ _ _ _) as [[room d1]|]; [|reflexivity].
  destruct (Gateway.upsertParticipant _ _ _ _ _); reflexivity.
Qed.

Lemma handleLeave_sched e sid roomCode s :
  sched (Gateway.handleLeave e sid roomCode s)
  = if lastConnection sid (Js.toUpperCase roomCode) s
    then Scheduler.stopRoomScheduler (Js.toUpperCase roomCode) (sched s)
    else sched s.
Proof.
  unfold Gateway.handleLeave, lastConnection, Gateway.socketLeave. simpl.
  destruct (roomConnections (gw s) !! _) as [c|]; [|reflexivity].
  destruct (Nat.eqb _ _); reflexivity.
Qed.

Lemma handleLeave_connections e sid roomCode s :
  roomConnections (gw (Gateway.handleLeave e sid roomCode s))
  = match roomConnections (gw s) !! Js.toUpperCase roomCode with
    | Some connections =>
        if Nat.eqb (size (connections ∖ {[sid]})) 0
        then delete (Js.toUpperCase roomCode) (roomConnections (gw s))
        else <[Js.toUpperCase roomCode := connections ∖ {[sid]}]>
               (roomConnections (gw s))
    | None => roomConnections (gw s)
    end.
Proof.
  unfold Gateway.handleLeave, Gateway.socketLeave,
    Gateway.broadcastParticipants. simpl.
  destruct (roomConnections (gw s) !! _) as [c|];
    [destruct (Nat.eqb _ _)|]; handler_cases; reflexivity.
Qed.

Lemma handleJoin_connections e sid roomCode displayName isAdmin s :
  roomConnections (gw (Gateway.handleJoin e sid roomCode displayName isAdmin s))
  = match Gateway.resolveRoom e (Js.toUpperCase roomCode) isAdmin (db s) with
    | None => roomConnections (gw s)
    | Some _ =>
        <[Js.toUpperCase roomCode :=
            default ∅ (roomConnections (gw s) !! Js.toUpperCase roomCode)
            ∪ {[sid]}]> (roomConnections (gw s))
    end.
Proof.
  unfold Gateway.handleJoin.
  destruct (Gateway.resolveRoom _ _ _ _) as [[room d1]|]; [|reflexivity].
  destruct (Gateway.upsertParticipant _ _ _ _ _); reflexivity.
Qed.

Lemma handleChatMessage_frame e sid content s :
  let s' := Gateway.handleChatMessage e sid content s in
  sched s' = sched s /\ roomConnections (gw s') = roomConnections (gw s) /\
  crisisEvents (db s') = crisisEvents (db s).
Proof.
  unfold Gateway.handleChatMessage. cbv zeta. handler_cases; simpl; auto.
Qed.

Lemma handleManualEvent_frame e sid payload s :
  let s' := Gateway.handleManualEvent e sid payload s in
  sched s' = sched s /\ roomConnections (gw s') = roomConnections (gw s).
Proof.
  unfold Gateway.handleManualEvent. cbv zeta. handler_cases; simpl; auto.
Qed.

Lemma onScheduledEvent_frame e pl s :
  let s' := Gateway.onScheduledEvent e pl s in
  sched s' = sched s /\ roomConnections (gw s') = roomConnections (gw s).
Proof.
  unfold Gateway.onScheduledEvent. handler_cases; simpl; auto.
Qed.

Lemma fireTimer_sched e h s :
  sched (fireTimer e h s)
  = match timers (sched s) !! h with
    | None => sched s
    | Some t =>
        Scheduler.tickRearm e (timer_room t)
          (Scheduler.tickEmit h (Scheduler.tickPayload e (timer_room t))
             (sched s))
    end.
Proof.
  unfold fireTimer. destruct (timers _ !! h) as [t|]; [|reflexivity]. simpl.
  f_equal.
  exact (proj1 (onScheduledEvent_frame e _ (mkState (db s) _ (gw s)))).
Qed.

Lemma fireTimer_connections e h s :
  roomConnections (gw (fireTimer e h s)) = roomConnections (gw s).
Proof.
  unfold fireTimer. destruct (timers _ !! h) as [t|]; [|reflexivity]. simpl.
  exact (proj2 (onScheduledEvent_frame e _ (mkState (db s) _ (gw s)))).
Qed.

Lemma closeRoomAction_sched e roomId roomCode s :
  sched (closeRoomAction e roomId roomCode s)
  = if Js.truthy roomCode
    then match Prisma.room_update_inactive (now e) roomId (db s) with
         | Some _ =>
             Scheduler.stopRoomScheduler (Js.toUpperCase roomCode) (sched s)
         | None => sched s
         end
    else sched s.
Proof.
  unfold closeRoomAction. destruct (Js.truthy roomCode); simpl; [|reflexivity].
  destruct (Prisma.room_update_inactive _ _ _); reflexivity.
Qed.

Lemma closeRoomAction_connections e roomId roomCode s :
  roomConnections (gw (closeRoomAction e roomId roomCode s))
  = roomConnections (gw s).
Proof.
  unfold closeRoomAction. handler_cases; reflexivity.
Qed.

(** ** The scheduler's invariant *)

Lemma SchedInv_empty : SchedInv Scheduler.empty.
Proof. intros h t. simpl. rewrite lookup_empty. discriminate. Qed.

Lemma SchedInv_arm r code sc :
  SchedInv sc ->
  (forall h t, timers sc !! h = Some t -> timer_room t <> code) ->
  SchedInv (Scheduler.setActive code (nextTimer sc)
              (snd (Scheduler.setTimeout code r sc))).
Proof.
  intros Hinv Hfree h t. simpl.
  destruct (decide (h = nextTimer sc)) as [->|Hne].
  - rewrite lookup_insert_eq. intros [= <-]. simpl.
    rewrite lookup_insert_eq. split; [reflexivity|lia].
  - rewrite lookup_insert_ne by congruence. intros Ht.
    destruct (Hinv _ _ Ht) as [Ha Hlt].
    rewrite lookup_insert_ne by (apply not_eq_sym; eauto).
    split; [exact Ha|lia].
Qed.

Lemma startRoomScheduler_inv r code sc :
  SchedInv sc -> SchedInv (Scheduler.startRoomScheduler r code sc).
Proof.
  intros Hinv. unfold Scheduler.startRoomScheduler.
  destruct (activeSchedulers sc !! code) eqn:Ha; [exact Hinv|].
  apply SchedInv_arm; [exact Hinv|].
  intros h t Ht Heq. destruct (Hinv _ _ Ht) as [Ha' _].
  rewrite Heq, Ha in Ha'. discriminate.
Qed.

Lemma stopRoomScheduler_inv code sc :
  SchedInv sc -> SchedInv (Scheduler.stopRoomScheduler code sc).
Proof.
  intros Hinv. unfold Scheduler.stopRoomScheduler.
  destruct (activeSchedulers sc !! code) as [h0|] eqn:Ha; [|exact Hinv].
  intros h t. simpl. intros Ht.
  apply lookup_delete_Some in Ht as [Hne Ht].
  destruct (Hinv _ _ Ht) as [Ha' Hlt]. split; [|exact Hlt].
  rewrite lookup_delete_ne; [exact Ha'|].
  intros Heq. subst code. congruence.
Qed.

Lemma tick_inv e h t pl sc :
  SchedInv sc -> timers sc !! h = Some t ->
  SchedInv (Scheduler.tickRearm e (timer_room t) (Scheduler.tickEmit h pl sc)).
Proof.
  intros Hinv Ht. unfold Scheduler.tickRearm.
  change (SchedInv
            (Scheduler.setActive (timer_room t)
               (nextTimer (Scheduler.tickEmit h pl sc))
               (snd (Scheduler.setTimeout (timer_room t)
                       (Scheduler.randomBetween (rnd2 e) 15000 30000)
                       (Scheduler.tickEmit h pl sc))))).
  apply SchedInv_arm.
  - intros h' t'. simpl. intros Ht'.
    apply lookup_delete_Some in Ht' as [_ Ht']. apply Hinv, Ht'.
  - intros h' t'. simpl. intros Ht' Heq.
    apply lookup_delete_Some in Ht' as [Hne Ht'].
    destruct (Hinv _ _ Ht) as [Ha _], (Hinv _ _ Ht') as [Ha' _].
    rewrite Heq, Ha in Ha'. congruence.
Qed.

Lemma handleDisconnect_sched e sid s :
  sched (Gateway.handleDisconnect e sid s) = sched s \/
  exists roomCode,
    sched (Gateway.handleDisconnect e sid s)
    = Scheduler.stopRoomScheduler (Js.toUpperCase roomCode) (sched s).
Proof.
  unfold Gateway.handleDisconnect.
  destruct (sd_roomCode _) as [c|]; [destruct (Js.truthy c)|]; auto.
  rewrite handleLeave_sched. destruct (lastConnection _ _ _); eauto.
Qed.

Lemma step_SchedInv s ec : SchedInv (sched s) -> SchedInv (sched (step s ec)).
Proof.
  intros Hinv. destruct ec as [e []]; unfold step.
  - rewrite handleJoin_sched.
    destruct (Gateway.resolveRoom _ _ _ _), isAdmin;
      auto using startRoomScheduler_inv.
  - rewrite handleLeave_sched.
    destruct (lastConnection _ _ _); auto using stopRoomScheduler_inv.
  - rewrite (proj1 (handleChatMessage_frame e sid content s)). exact Hinv.
  - rewrite (proj1 (handleManualEvent_frame e sid payload s)). exact Hinv.
  - exact Hinv.
  - destruct (handleDisconnect_sched e sid s) as [->|[c ->]];
      auto using stopRoomScheduler_inv.
  - rewrite fireTimer_sched.
    destruct (timers (sched s) !! h) as [t|] eqn:Ht; auto using tick_inv.
  - rewrite closeRoomAction_sched.
    destruct (Js.truthy roomCode); [|exact Hinv].
    destruct (Prisma.room_update_inactive _ _ _);
      auto using stopRoomScheduler_inv.
Qed.

Lemma run_SchedInv cmds s : SchedInv (sched s) -> SchedInv (sched (run cmds s)).
Proof.
  revert s. induction cmds as [|ec cmds IH]; intros s H; simpl; [exact H|].
  apply IH, step_SchedInv, H.
Qed.

(** ** Ticks of a room, and the scheduler after a closure *)

Lemma start_other r code' code sc :
  code' <> code ->
  activeSchedulers (Scheduler.startRoomScheduler r code' sc) !! code
  = activeSchedulers sc !! code.
Proof.
  intros Hne. unfold Scheduler.startRoomScheduler.
  destruct (activeSchedulers sc !! code'); [reflexivity|]. simpl.
  apply lookup_insert_ne, Hne.
Qed.

Lemma start_emitted r code sc :
  emitted (Scheduler.startRoomScheduler r code sc) = emitted sc.
Proof.
  unfold Scheduler.startRoomScheduler.
  destruct (activeSchedulers sc !! code); reflexivity.
Qed.

Lemma stop_emitted code sc :
  emitted (Scheduler.stopRoomScheduler code sc) = emitted sc.
Proof.
  unfold Scheduler.stopRoomScheduler.
  destruct (activeSchedulers sc !! code); reflexivity.
Qed.


Lemma stop_is_none code sc :
  activeSchedulers (Scheduler.stopRoomScheduler code sc) !! code = None.
Proof.
  unfold Scheduler.stopRoomScheduler.
  destruct (activeSchedulers sc !! code) eqn:Ha; [|exact Ha]. simpl.
  apply lookup_delete_eq.
Qed.







(** ** Severities of scheduler-sourced events *)

Lemma floorRandomTimes_lt r n : (0 < n)%N -> (Js.floorRandomTimes r n < n)%N.
Proof.
  intros Hn. unfold Js.floorRandomTimes.
  assert (Hd : (0 < Js.randomDen)%N) by reflexivity.
  apply N.Div0.div_lt_upper_bound.
  pose proof (N.mod_upper_bound r Js.randomDen). nia.
Qed.

Lemma tick_severity_pool e code :
  poolName (pl_severity (Scheduler.tickPayload e code)).
Proof.
  unfold Scheduler.tickPayload, poolName. cbn [pl_severity].
  change (N.of_nat (length Scheduler.severityOptions)) with 3%N.
  pose proof (floorRandomTimes_lt (rnd1 e) 3 eq_refl) as Hlt.
  set (k := Js.floorRandomTimes (rnd1 e) 3) in *.
  destruct (N.to_nat k) as [|[|[|n]]] eqn:Hn; simpl; auto.
  lia.
Qed.

Lemma pool_severityOfKey severity v :
  poolName (Some severity) ->
  severityOfKey (Js.toUpperCase severity) = Some v -> poolSeverity v.
Proof.
  unfold poolName, poolSeverity.
  intros [[= ->]|[[= ->]|[= ->]]]; simpl; intros [= <-]; auto.
Qed.

Lemma handleJoin_crisisEvents e sid roomCode displayName isAdmin s :
  crisisEvents (db (Gateway.handleJoin e sid roomCode displayName isAdmin s))
  = crisisEvents (db s).
Proof.
  rewrite handleJoin_db.
  destruct (Gateway.resolveRoom _ _ _ _) as [[room d1]|] eqn:Hr;
    [|reflexivity].
  transitivity (crisisEvents d1).
  - unfold Gateway.upsertParticipant.
    destruct (Prisma.participant_findFirst _ _ _); reflexivity.
  - unfold Gateway.resolveRoom in Hr.
    destruct (Prisma.room_findUnique _ _); [|destruct isAdmin];
      cbv [Prisma.room_create negb] in Hr; simplify_eq; reflexivity.
Qed.

Lemma handleLeave_crisisEvents e sid roomCode s :
  crisisEvents (db (Gateway.handleLeave e sid roomCode s))
  = crisisEvents (db s).
Proof. rewrite handleLeave_db. destruct (sd_participantId _); reflexivity. Qed.

Lemma handleDisconnect_crisisEvents e sid s :
  crisisEvents (db (Gateway.handleDisconnect e sid s)) = crisisEvents (db s).
Proof.
  unfold Gateway.handleDisconnect.
  destruct (sd_roomCode _) as [c|]; [destruct (Js.truthy c)|];
    auto using handleLeave_crisisEvents.
Qed.

Lemma closeRoomAction_crisisEvents e roomId roomCode s :
  crisisEvents (db (closeRoomAction e roomId roomCode s)) = crisisEvents (db s).
Proof.
  unfold closeRoomAction, Prisma.room_update_inactive.
  destruct (negb _); [reflexivity|].
  destruct (List.find _ (rooms (db s))); reflexivity.
Qed.

Lemma handleManualEvent_crisisEvents e sid payload s :
  crisisEvents (db (Gateway.handleManualEvent e sid payload s))
  = crisisEvents (db s) \/
  exists ev,
    crisisEvents (db (Gateway.handleManualEvent e sid payload s))
    = crisisEvents (db s) ++ [ev] /\ ev_source ev = MANUAL.
Proof.
  unfold Gateway.handleManualEvent. cbv zeta. handler_cases; simpl; eauto.
Qed.

Lemma onScheduledEvent_crisisEvents e pl s :
  poolName (pl_severity pl) ->
  crisisEvents (db (Gateway.onScheduledEvent e pl s)) = crisisEvents (db s) \/
  exists ev,
    crisisEvents (db (Gateway.onScheduledEvent e pl s))
    = crisisEvents (db s) ++ [ev] /\ poolSeverity (ev_severity ev).
Proof.
  intros Hpool. unfold Gateway.onScheduledEvent.
  destruct (Prisma.room_findUnique _ _); [|auto].
  destruct (pl_severity pl) as [severity|]; [|auto].
  destruct (severityOfKey _) as [v|] eqn:Hv; [|auto].
  right. eexists. split; [reflexivity|]. simpl.
  eapply pool_severityOfKey; eauto.
Qed.

Lemma step_SevInv s ec : SevInv s -> SevInv (step s ec).
Proof.
  intros [Hem Hev]. unfold SevInv. destruct ec as [e []]; unfold step.
  - rewrite handleJoin_crisisEvents, handleJoin_sched.
    destruct (Gateway.resolveRoom _ _ _ _), isAdmin;
      rewrite ?start_emitted; auto.
  - rewrite handleLeave_crisisEvents, handleLeave_sched.
    destruct (lastConnection _ _ _); rewrite ?stop_emitted; auto.
  - destruct (handleChatMessage_frame e sid content s) as (-> & _ & ->). auto.
  - rewrite (proj1 (handleManualEvent_frame e sid payload s)).
    split; [exact Hem|].
    destruct (handleManualEvent_crisisEvents e sid payload s)
      as [->|(ev & -> & Hsrc)]; [exact Hev|].
    apply Forall_app. split; [exact Hev|]. apply Forall_singleton. congruence.
  - split; [exact Hem|]. simpl.
    apply Forall_forall. intros ev Hin.
    apply list_elem_of_In, in_map_iff in Hin as (ev0 & <- & Hin0).
    rewrite Forall_forall in Hev. apply list_elem_of_In in Hin0.
    specialize (Hev _ Hin0). destruct (Nat.eqb _ _); exact Hev.
  - rewrite handleDisconnect_crisisEvents. split; [|exact Hev].
    destruct (handleDisconnect_sched e sid s) as [->|[c ->]];
      rewrite ?stop_emitted; exact Hem.
  - rewrite fireTimer_sched. unfold fireTimer.
    destruct (timers (sched s) !! h) as [t|]; [|auto]. simpl. split.
    + apply Forall_app. split; [exact Hem|].
      apply Forall_singleton, tick_severity_pool.
    + destruct (onScheduledEvent_crisisEvents e
                  (Scheduler.tickPayload e (timer_room t))
                  (mkState (db s)
                     (Scheduler.tickEmit h
                        (Scheduler.tickPayload e (timer_room t)) (sched s))
                     (gw s)) (tick_severity_pool e _))
        as [->|(ev & -> & Hpool)]; [exact Hev|].
      apply Forall_app. split; [exact Hev|]. apply Forall_singleton. auto.
  - rewrite closeRoomAction_crisisEvents, closeRoomAction_sched.
    destruct (Js.truthy roomCode); [|auto].
    destruct (Prisma.room_update_inactive _ _ _); rewrite ?stop_emitted; auto.
Qed.

Lemma run_SevInv cmds s : SevInv s -> SevInv (run cmds s).
Proof.
  revert s. induction cmds as [|ec cmds IH]; intros s H; simpl; [exact H|].
  apply IH, step_SevInv, H.
Qed.

(** C6. Every event the scheduler's tick emits has a severity drawn from LOW,
    MODERATE and HIGH, never CRITICAL: this holds for the payload of any
    tick, hence for every event emitted in any run of the system, and for
    every persisted CrisisEvent whose source is the scheduler. A timeout that
    fires does emit exactly that payload. *)
Theorem scheduler_severity_never_critical :
  (forall e roomCode,
      let pl := Scheduler.tickPayload e roomCode in
      poolName (pl_severity pl) /\ pl_severity pl <> Some "CRITICAL") /\
  (forall s e h t,
      timers (sched s) !! h = Some t ->
      emitted (sched (fireTimer e h s))
      = emitted (sched s) ++ [Scheduler.tickPayload e (timer_room t)]) /\
  (forall cmds pl,
      In pl (emitted (sched (run cmds initialState))) ->
      poolName (pl_severity pl) /\ pl_severity pl <> Some "CRITICAL") /\
  (forall cmds ev,
      In ev (crisisEvents (db (run cmds initialState))) ->
      ev_source ev = SCHEDULER ->
      poolSeverity (ev_severity ev) /\ ev_severity ev <> CRITICAL).
Proof.
  assert (Hname : forall o, poolName o -> o <> Some "CRITICAL").
  { intros o [-> | [-> | ->]]; discriminate. }
  assert (Hinit : SevInv initialState) by (split; constructor).
  split; [|split; [|split]].
  - intros e roomCode pl. split; [|apply Hname]; apply tick_severity_pool.
  - intros s e h t Ht. rewrite fireTimer_sched, Ht. reflexivity.
  - intros cmds pl Hin. destruct (run_SevInv cmds _ Hinit) as [Hem _].
    rewrite Forall_forall in Hem. apply list_elem_of_In, Hem in Hin. auto.
  - intros cmds ev Hin Hsrc. destruct (run_SevInv cmds _ Hinit) as [_ Hev].
    rewrite Forall_forall in Hev. apply list_elem_of_In in Hin.
    specialize (Hev _ Hin Hsrc). split; [exact Hev|].
    destruct Hev as [-> | [-> | ->]]; discriminate.
Qed.

Lemma scheduler_severity_never_critical_witness :
  let top := mkEnv 2 (2 ^ 53 - 1) 7 in
  let s := run [(env 1, RoomJoin "s1" "ABCD1" "FORM1" true)] initialState in
  let cmds := [(env 1, RoomJoin "s1" "ABCD1" "FORM1" true);
               (top, TimerFires 0)] in
  let pl := mkPayload "ABCD1" (Some "HIGH") "Événement aléatoire (HIGH)"
              "Placeholder – brancher le générateur métier." 2 in
  let ev := mkCrisisEvent 2 0 "Événement aléatoire (HIGH)"
              "Placeholder – brancher le générateur métier." HIGH SCHEDULER
              None 2 None None in
  (timers (sched s) !! 0 = Some (mkTimer "ABCD1" 15000) /\
   emitted (sched (fireTimer top 0 s))
   = emitted (sched s) ++ [Scheduler.tickPayload top "ABCD1"]) /\
  (In pl (emitted (sched (run cmds initialState))) /\
   poolName (pl_severity pl) /\ pl_severity pl <> Some "CRITICAL") /\
  (In ev (crisisEvents (db (run cmds initialState))) /\
   ev_source ev = SCHEDULER /\
   poolSeverity (ev_severity ev) /\ ev_severity ev <> CRITICAL).
Proof.
  destruct scheduler_severity_never_critical as (_ & Hfire & Hem & Hev).
  split; [|split].
  - split; [reflexivity|].
    exact (Hfire (run [(env 1, RoomJoin "s1" "ABCD1" "FORM1" true)]
                    initialState)
             (mkEnv 2 (2 ^ 53 - 1) 7) 0 (mkTimer "ABCD1" 15000) eq_refl).
  - assert (Hin : In (mkPayload "ABCD1" (Some "HIGH")
                        "Événement aléatoire (HIGH)"
                        "Placeholder – brancher le générateur métier." 2)
                     (emitted
                        (sched
                           (run [(env 1, RoomJoin "s1" "ABCD1" "FORM1" true);
                                 (mkEnv 2 (2 ^ 53 - 1) 7, TimerFires 0)]
                              initialState)))) by (left; reflexivity).
    split; [exact Hin|]. exact (Hem _ _ Hin).
  - assert (Hin : In (mkCrisisEvent 2 0 "Événement aléatoire (HIGH)"
                        "Placeholder – brancher le générateur métier." HIGH
                        SCHEDULER None 2 None None)
                     (crisisEvents
                        (db
                           (run [(env 1, RoomJoin "s1" "ABCD1" "FORM1" true);
                                 (mkEnv 2 (2 ^ 53 - 1) 7, TimerFires 0)]
                              initialState)))) by (left; reflexivity).
    split; [exact Hin|]. split; [reflexivity|]. exact (Hev _ _ Hin eq_refl).
Defined.

(** ** The connection registry *)

Lemma RegInv_initial : RegInv (gw initialState).
Proof. intros code c. simpl. rewrite lookup_empty. discriminate. Qed.

Lemma lastConnection_spec sid code s :
  RegInv (gw s) ->
  lastConnection sid code s = true
  <-> roomConnections (gw s) !! code = Some {[sid]}.
Proof.
  intros Hinv. unfold lastConnection.
  destruct (roomConnections (gw s) !! code) as [c|] eqn:Hc.
  - rewrite Nat.eqb_eq. split.
    + intros Hsize. apply size_empty_inv in Hsize.
      pose proof (Hinv _ _ Hc) as Hne. f_equal.
      apply set_choose_L in Hne as [x Hx].
      assert (Hall : forall y, y ∈ c -> y = sid).
      { intros y Hy. destruct (decide (y = sid)) as [|Hn]; [assumption|].
        exfalso. apply (not_elem_of_empty (C:=gset string) y).
        rewrite <- Hsize. apply elem_of_difference. split; [exact Hy|].
        rewrite elem_of_singleton. exact Hn. }
      apply set_eq. intros y. rewrite elem_of_singleton. split; [apply Hall|].
      intros ->. rewrite <- (Hall x Hx). exact Hx.
    + intros [= ->]. apply size_empty_iff, difference_diag.
  - split; discriminate.
Qed.

Lemma handleLeave_RegInv e sid roomCode s :
  RegInv (gw s) -> RegInv (gw (Gateway.handleLeave e sid roomCode s)).
Proof.
  intros Hinv code c. rewrite handleLeave_connections.
  destruct (roomConnections (gw s) !! Js.toUpperCase roomCode) as [c0|] eqn:Hc;
    [|apply Hinv].
  destruct (Nat.eqb _ _) eqn:Hsize.
  - intros Hl. apply lookup_delete_Some in Hl as [_ Hl]. eapply Hinv, Hl.
  - destruct (decide (Js.toUpperCase roomCode = code)) as [<-|Hne].
    + rewrite lookup_insert_eq. intros [= <-] Hempty.
      rewrite Hempty, size_empty in Hsize. discriminate.
    + rewrite lookup_insert_ne by exact Hne. apply Hinv.
Qed.

Lemma handleJoin_RegInv e sid roomCode displayName isAdmin s :
  RegInv (gw s) ->
  RegInv (gw (Gateway.handleJoin e sid roomCode displayName isAdmin s)).
Proof.
  intros Hinv code c. rewrite handleJoin_connections.
  destruct (Gateway.resolveRoom _ _ _ _); [|apply Hinv].
  destruct (decide (Js.toUpperCase roomCode = code)) as [<-|Hne].
  - rewrite lookup_insert_eq. intros [= <-]. set_solver.
  - rewrite lookup_insert_ne by exact Hne. apply Hinv.
Qed.

Lemma handleDisconnect_RegInv e sid s :
  RegInv (gw s) -> RegInv (gw (Gateway.handleDisconnect e sid s)).
Proof.
  unfold Gateway.handleDisconnect.
  destruct (sd_roomCode _) as [c|]; [destruct (Js.truthy c)|];
    auto using handleLeave_RegInv.
Qed.

Lemma step_RegInv s ec : RegInv (gw s) -> RegInv (gw (step s ec)).
Proof.
  intros Hinv. destruct ec as [e []]; unfold step, RegInv.
  - apply handleJoin_RegInv, Hinv.
  - apply handleLeave_RegInv, Hinv.
  - rewrite (proj1 (proj2 (handleChatMessage_frame e sid content s))).
    exact Hinv.
  - rewrite (proj2 (handleManualEvent_frame e sid payload s)). exact Hinv.
  - exact Hinv.
  - apply handleDisconnect_RegInv, Hinv.
  - rewrite fireTimer_connections. exact Hinv.
  - rewrite closeRoomAction_connections. exact Hinv.
Qed.

Lemma run_RegInv cmds s : RegInv (gw s) -> RegInv (gw (run cmds s)).
Proof.
  revert s. induction cmds as [|ec cmds IH]; intros s H; simpl; [exact H|].
  apply IH, step_RegInv, H.
Qed.

Lemma stop_other code' code sc :
  code' <> code ->
  activeSchedulers (Scheduler.stopRoomScheduler code' sc) !! code
  = activeSchedulers sc !! code.
Proof.
  intros Hne. unfold Scheduler.stopRoomScheduler.
  destruct (activeSchedulers sc !! code'); [|reflexivity]. simpl.
  apply lookup_delete_ne, Hne.
Qed.

Lemma start_keeps r code' code sc :
  activeSchedulers (Scheduler.startRoomScheduler r code' sc) !! code = None ->
  activeSchedulers sc !! code = None.
Proof.
  unfold Scheduler.startRoomScheduler.
  destruct (activeSchedulers sc !! code') eqn:Ha; [auto|]. simpl.
  intros Hnone. apply lookup_insert_None in Hnone. tauto.
Qed.

(** What an entry of the registry and a scheduler undergo in [handleLeave]. *)
Lemma handleLeave_registry e sid roomCode s code :
  RegInv (gw s) ->
  let s' := Gateway.handleLeave e sid roomCode s in
  let last :=
    Js.toUpperCase roomCode = code /\
    roomConnections (gw s) !! code = Some {[sid]} in
  (is_Some (roomConnections (gw s) !! code) /\
   roomConnections (gw s') !! code = None <-> last) /\
  (is_Some (activeSchedulers (sched s) !! code) ->
   activeSchedulers (sched s') !! code = None -> last) /\
  (last -> activeSchedulers (sched s') !! code = None).
Proof.
  intros Hinv. cbv zeta.
  rewrite handleLeave_connections, handleLeave_sched.
  pose proof (lastConnection_spec sid (Js.toUpperCase roomCode) s Hinv) as Hlast.
  unfold lastConnection in *.
  destruct (decide (Js.toUpperCase roomCode = code)) as [Heq|Hne].
  - rewrite Heq in *.
    destruct (roomConnections (gw s) !! code) as [c0|] eqn:Hc.
    + destruct (Nat.eqb _ _) eqn:Hsize.
      * assert (Hc0 : Some c0 = Some {[sid]}) by (apply Hlast; reflexivity).
        rewrite lookup_delete_eq, stop_is_none, <- Hc0.
        split; [split|split]; eauto.
      * rewrite lookup_insert_eq.
        assert (Hno : Some c0 <> Some {[sid]}).
        { intros H. apply Hlast in H. discriminate. }
        split; [split|split].
        -- intros [_ [=]].
        -- intros [_ H]. contradiction.
        -- intros [x Hx] Hnone. congruence.
        -- intros [_ H]. contradiction.
    + split; [split|split].
      * intros [[x [=]] _].
      * intros [_ [=]].
      * intros [x Hx] Hnone. congruence.
      * intros [_ [=]].
  - assert (Hrc : forall c0 : gset string,
               (if Nat.eqb (size (c0 ∖ {[sid]})) 0
                then delete (Js.toUpperCase roomCode) (roomConnections (gw s))
                else <[Js.toUpperCase roomCode := c0 ∖ {[sid]}]>
                       (roomConnections (gw s))) !! code
               = roomConnections (gw s) !! code).
    { intros c0. destruct (Nat.eqb _ _);
        [apply lookup_delete_ne | apply lookup_insert_ne]; exact Hne. }
    assert (Hsc : forall b : bool,
               activeSchedulers
                 (if b
                  then Scheduler.stopRoomScheduler (Js.toUpperCase roomCode)
                         (sched s)
                  else sched s) !! code
               = activeSchedulers (sched s) !! code).
    { intros []; [apply stop_other, Hne | reflexivity]. }
    rewrite Hsc.
    assert (Hsame : match roomConnections (gw s) !! Js.toUpperCase roomCode with
                    | Some connections =>
                        if Nat.eqb (size (connections ∖ {[sid]})) 0
                        then delete (Js.toUpperCase roomCode)
                               (roomConnections (gw s))
                        else <[Js.toUpperCase roomCode :=
                                 connections ∖ {[sid]}]>
                               (roomConnections (gw s))
                    | None => roomConnections (gw s)
                    end !! code = roomConnections (gw s) !! code).
    { destruct (roomConnections (gw s) !! Js.toUpperCase roomCode);
        [apply Hrc | reflexivity]. }
    rewrite Hsame. split; [split|split].
    + intros [[x Hx] Hnone]. congruence.
    + intros [H _]. contradiction.
    + intros [x Hx] Hnone. congruence.
    + intros [H _]. contradiction.
Qed.

Lemma unchanged_registry s c :
  leaves c s = None ->
  forall code,
    (is_Some (roomConnections (gw s) !! code) /\
     roomConnections (gw s) !! code = None <-> removesLast c s code) /\
    (is_Some (activeSchedulers (sched s) !! code) ->
     activeSchedulers (sched s) !! code = None -> removesLast c s code) /\
    (removesLast c s code -> activeSchedulers (sched s) !! code = None).
Proof.
  intros Hl code. unfold removesLast. rewrite Hl. split; [split|split].
  - intros [[x Hx] Hnone]. congruence.
  - intros (sid & [=] & _).
  - intros [x Hx] Hnone. congruence.
  - intros (sid & [=] & _).
Qed.

Lemma leave_registry e sid roomCode s c :
  RegInv (gw s) ->
  leaves c s = Some (sid, Js.toUpperCase roomCode) ->
  let s' := Gateway.handleLeave e sid roomCode s in
  forall code,
    (is_Some (roomConnections (gw s) !! code) /\
     roomConnections (gw s') !! code = None <-> removesLast c s code) /\
    (is_Some (activeSchedulers (sched s) !! code) ->
     activeSchedulers (sched s') !! code = None -> removesLast c s code) /\
    (removesLast c s code -> activeSchedulers (sched s') !! code = None).
Proof.
  intros Hinv Hl s' code.
  destruct (handleLeave_registry e sid roomCode s code Hinv) as (H1 & H2 & H3).
  assert (Hiff : removesLast c s code <->
                 Js.toUpperCase roomCode = code /\
                 roomConnections (gw s) !! code = Some {[sid]}).
  { unfold removesLast. rewrite Hl. split.
    - intros (sid0 & [= -> ->] & Hc). auto.
    - intros [<- Hc]. eauto. }
  rewrite Hiff. auto.
Qed.

(** C10. In every state the process reaches, each room code of the
    connection registry maps to a non-empty set; a join, leave or disconnect
    handler keeps it so. Such a handler deletes the entry of a code exactly
    when it removes the code's last connection, and it stops a code's
    scheduler only then (and then it does). *)
Theorem registry_entries_nonempty cmds e c :
  let s := run cmds initialState in
  let s' := step s (e, c) in
  lifecycle c = true ->
  RegInv (gw s) /\ RegInv (gw s') /\
  forall code,
    (is_Some (roomConnections (gw s) !! code) /\
     roomConnections (gw s') !! code = None <-> removesLast c s code) /\
    (is_Some (activeSchedulers (sched s) !! code) ->
     activeSchedulers (sched s') !! code = None -> removesLast c s code) /\
    (removesLast c s code -> activeSchedulers (sched s') !! code = None).
Proof.
  intros s s' Hc.
  assert (Hinv : RegInv (gw s)) by apply run_RegInv, RegInv_initial.
  split; [exact Hinv|]. split; [apply step_RegInv, Hinv|].
  unfold s'. destruct c; try discriminate; unfold step.
  - intros code. unfold removesLast. simpl.
    rewrite handleJoin_connections, handleJoin_sched.
    split; [split|split].
    + intros [[x Hx] Hnone]. exfalso.
      destruct (Gateway.resolveRoom _ _ _ _); [|congruence].
      apply lookup_insert_None in Hnone. destruct Hnone. congruence.
    + intros (sid0 & [=] & _).
    + intros [x Hx] Hnone. exfalso.
      destruct (Gateway.resolveRoom _ _ _ _), isAdmin;
        try apply start_keeps in Hnone; congruence.
    + intros (sid0 & [=] & _).
  - apply leave_registry; [exact Hinv | reflexivity].
  - unfold Gateway.handleDisconnect.
    destruct (sd_roomCode (Gateway.dataOf sid s.(gw))) as [roomCode|] eqn:Hd.
    + destruct (Js.truthy roomCode) eqn:Ht.
      * apply leave_registry; [exact Hinv|]. simpl. rewrite Hd, Ht.
        reflexivity.
      * apply unchanged_registry. simpl. rewrite Hd, Ht. reflexivity.
    + apply unchanged_registry. simpl. rewrite Hd. reflexivity.
Qed.

Lemma registry_entries_nonempty_witness :
  let cmds := [(env 1, RoomJoin "s1" "ABCD1" "FORM1" true)] in
  let c := Disconnect "s1" in
  let s := run cmds initialState in
  let s' := step s (env 2, c) in
  lifecycle c = true /\
  RegInv (gw s) /\ RegInv (gw s') /\
  forall code,
    (is_Some (roomConnections (gw s) !! code) /\
     roomConnections (gw s') !! code = None <-> removesLast c s code) /\
    (is_Some (activeSchedulers (sched s) !! code) ->
     activeSchedulers (sched s') !! code = None -> removesLast c s code) /\
    (removesLast c s code -> activeSchedulers (sched s') !! code = None).
Proof.
  split; [reflexivity|].
  exact (registry_entries_nonempty
           [(env 1, RoomJoin "s1" "ABCD1" "FORM1" true)] (env 2)
           (Disconnect "s1") eq_refl).
Defined.

(** The witness is not vacuous: disconnecting the only connection of ABCD1
    deletes its entry and stops its scheduler. *)
Example last_disconnect_empties_room :
  let s := run [(env 1, RoomJoin "s1" "ABCD1" "FORM1" true)] initialState in
  let s' := step s (env 2, Disconnect "s1") in
  roomConnections (gw s) !! "ABCD1" = Some {[ "s1" ]} /\
  activeSchedulers (sched s) !! "ABCD1" = Some 0 /\
  roomConnections (gw s') = ∅ /\ activeSchedulers (sched s') = ∅ /\
  timers (sched s') = ∅.
Proof. repeat split. Qed.

(** * Further properties of the scheduler *)

Lemma interval_in_range r :
  (15000 <= Scheduler.randomBetween r 15000 30000 <= 30000)%N.
Proof.
  unfold Scheduler.randomBetween.
  pose proof (floorRandomTimes_lt r (30000 - 15000 + 1) eq_refl) as Hlt. lia.
Qed.

(** X1. [randomBetween] stays within its bounds, whatever the sample. *)
Theorem randomBetween_bounds r minMs maxMs :
  (minMs <= maxMs)%N ->
  (minMs <= Scheduler.randomBetween r minMs maxMs <= maxMs)%N.
Proof.
  intros Hle. unfold Scheduler.randomBetween.
  pose proof (floorRandomTimes_lt r (maxMs - minMs + 1)) as Hlt. lia.
Qed.

Lemma randomBetween_bounds_witness :
  (15000 <= 30000)%N /\
  (15000 <= Scheduler.randomBetween 123456789 15000 30000 <= 30000)%N.
Proof.
  split; [discriminate|].
  apply (randomBetween_bounds 123456789 15000 30000). discriminate.
Defined.

Lemma Registered_empty : Registered Scheduler.empty.
Proof. intros code h. simpl. rewrite lookup_empty. discriminate. Qed.

Lemma DelaysInRange_empty : DelaysInRange Scheduler.empty.
Proof. intros h t. simpl. rewrite lookup_empty. discriminate. Qed.

Lemma Registered_arm delay code sc :
  SchedInv sc -> Registered sc ->
  Registered (Scheduler.setActive code (nextTimer sc)
                (snd (Scheduler.setTimeout code delay sc))).
Proof.
  intros Hinv Hreg c h. simpl.
  destruct (decide (code = c)) as [->|Hne].
  - rewrite lookup_insert_eq. intros [= <-].
    rewrite lookup_insert_eq. eauto.
  - rewrite lookup_insert_ne by exact Hne. intros Ha.
    destruct (Hreg _ _ Ha) as (t & Ht & Hroom).
    destruct (Hinv _ _ Ht) as [_ Hlt].
    rewrite lookup_insert_ne by lia. eauto.
Qed.

Lemma DelaysInRange_arm r code sc :
  DelaysInRange sc ->
  DelaysInRange
    (Scheduler.setActive code (nextTimer sc)
       (snd (Scheduler.setTimeout code
               (Scheduler.randomBetween r 15000 30000) sc))).
Proof.
  intros Hd h t. simpl.
  destruct (decide (nextTimer sc = h)) as [->|Hne].
  - rewrite lookup_insert_eq. intros [= <-]. simpl.
    apply interval_in_range.
  - rewrite lookup_insert_ne by exact Hne. apply Hd.
Qed.

Lemma start_Registered r code sc :
  SchedInv sc -> Registered sc ->
  Registered (Scheduler.startRoomScheduler r code sc).
Proof.
  intros Hinv Hreg. unfold Scheduler.startRoomScheduler.
  destruct (activeSchedulers sc !! code); [exact Hreg|].
  apply Registered_arm; assumption.
Qed.

Lemma start_DelaysInRange r code sc :
  DelaysInRange sc -> DelaysInRange (Scheduler.startRoomScheduler r code sc).
Proof.
  intros Hd. unfold Scheduler.startRoomScheduler.
  destruct (activeSchedulers sc !! code); [exact Hd|].
  apply DelaysInRange_arm, Hd.
Qed.

Lemma stop_Registered code sc :
  SchedInv sc -> Registered sc ->
  Registered (Scheduler.stopRoomScheduler code sc).
Proof.
  intros Hinv Hreg. unfold Scheduler.stopRoomScheduler.
  destruct (activeSchedulers sc !! code) as [h0|] eqn:Ha; [|exact Hreg].
  intros c h. simpl. intros Hc.
  apply lookup_delete_Some in Hc as [Hne Hc].
  destruct (Hreg _ _ Hc) as (t & Ht & Hroom). exists t. split; [|exact Hroom].
  rewrite lookup_delete_ne; [exact Ht|].
  intros <-. destruct (Hreg _ _ Ha) as (t0 & Ht0 & Hroom0). congruence.
Qed.

Lemma stop_DelaysInRange code sc :
  DelaysInRange sc -> DelaysInRange (Scheduler.stopRoomScheduler code sc).
Proof.
  intros Hd. unfold Scheduler.stopRoomScheduler.
  destruct (activeSchedulers sc !! code) as [h0|]; [|exact Hd].
  intros h t. simpl. intros Ht.
  apply lookup_delete_Some in Ht as [_ Ht]. eapply Hd, Ht.
Qed.

Lemma tick_Registered e h t pl sc :
  SchedInv sc -> Registered sc -> timers sc !! h = Some t ->
  Registered (Scheduler.tickRearm e (timer_room t)
                (Scheduler.tickEmit h pl sc)).
Proof.
  intros Hinv Hreg Ht c h'. unfold Scheduler.tickRearm. simpl.
  destruct (decide (timer_room t = c)) as [->|Hne].
  - rewrite lookup_insert_eq. intros [= <-].
    rewrite lookup_insert_eq. eauto.
  - rewrite lookup_insert_ne by exact Hne. intros Ha.
    destruct (Hreg _ _ Ha) as (t' & Ht' & Hroom).
    destruct (Hinv _ _ Ht') as [_ Hlt].
    rewrite lookup_insert_ne by lia. exists t'. split; [|exact Hroom].
    rewrite lookup_delete_ne; [exact Ht'|].
    intros <-. congruence.
Qed.

Lemma tick_DelaysInRange e h code pl sc :
  DelaysInRange sc ->
  DelaysInRange (Scheduler.tickRearm e code (Scheduler.tickEmit h pl sc)).
Proof.
  intros Hd h' t'. unfold Scheduler.tickRearm. simpl.
  destruct (decide (nextTimer sc = h')) as [->|Hne].
  - rewrite lookup_insert_eq. intros [= <-]. simpl.
    apply interval_in_range.
  - rewrite lookup_insert_ne by exact Hne. intros Ht'.
    apply lookup_delete_Some in Ht' as [_ Ht']. eapply Hd, Ht'.
Qed.

(** The three facts about the scheduler's maps, as one invariant. *)
Lemma step_scheduler_maps s ec :
  SchedInv (sched s) /\ Registered (sched s) /\ DelaysInRange (sched s) ->
  SchedInv (sched (step s ec)) /\ Registered (sched (step s ec)) /\
  DelaysInRange (sched (step s ec)).
Proof.
  intros (Hinv & Hreg & Hd). split; [apply step_SchedInv, Hinv|].
  destruct ec as [e []]; unfold step.
  - rewrite handleJoin_sched.
    destruct (Gateway.resolveRoom _ _ _ _), isAdmin;
      auto using start_Registered, start_DelaysInRange.
  - rewrite handleLeave_sched.
    destruct (lastConnection _ _ _);
      auto using stop_Registered, stop_DelaysInRange.
  - rewrite (proj1 (handleChatMessage_frame e sid content s)). auto.
  - rewrite (proj1 (handleManualEvent_frame e sid payload s)). auto.
  - auto.
  - destruct (handleDisconnect_sched e sid s) as [->|[c ->]];
      auto using stop_Registered, stop_DelaysInRange.
  - rewrite fireTimer_sched.
    destruct (timers (sched s) !! h) as [t|] eqn:Ht;
      auto using tick_Registered, tick_DelaysInRange.
  - rewrite closeRoomAction_sched.
    destruct (Js.truthy roomCode); [|auto].
    destruct (Prisma.room_update_inactive _ _ _);
      auto using stop_Registered, stop_DelaysInRange.
Qed.

Lemma run_scheduler_maps cmds s :
  SchedInv (sched s) /\ Registered (sched s) /\ DelaysInRange (sched s) ->
  SchedInv (sched (run cmds s)) /\ Registered (sched (run cmds s)) /\
  DelaysInRange (sched (run cmds s)).
Proof.
  revert s. induction cmds as [|ec cmds IH]; intros s H; simpl; [exact H|].
  apply IH, step_scheduler_maps, H.
Qed.

(** X2. In every state the process reaches, registered schedulers and
    pending timeouts correspond one to one: a pending timeout is the one
    registered for its room, a registered scheduler has its timeout pending,
    a room never has two pending timeouts, and every pending delay lies
    between 15 000 and 30 000 ms. *)
Theorem scheduler_timers_one_to_one cmds :
  let sc := sched (run cmds initialState) in
  (forall h t, timers sc !! h = Some t ->
               activeSchedulers sc !! timer_room t = Some h /\
               (15000 <= timer_delay t <= 30000)%N) /\
  (forall code h, activeSchedulers sc !! code = Some h ->
                  exists t, timers sc !! h = Some t /\ timer_room t = code) /\
  (forall h1 h2 t1 t2,
      timers sc !! h1 = Some t1 -> timers sc !! h2 = Some t2 ->
      timer_room t1 = timer_room t2 -> h1 = h2).
Proof.
  intros sc.
  destruct (run_scheduler_maps cmds initialState) as (Hinv & Hreg & Hd).
  { auto using SchedInv_empty, Registered_empty, DelaysInRange_empty. }
  fold sc in Hinv, Hreg, Hd. split; [|split].
  - intros h t Ht. split; [apply Hinv, Ht | eapply Hd, Ht].
  - exact Hreg.
  - intros h1 h2 t1 t2 H1 H2 Heq.
    destruct (Hinv _ _ H1) as [Ha1 _], (Hinv _ _ H2) as [Ha2 _]. congruence.
Qed.

Lemma scheduler_timers_one_to_one_witness :
  let cmds := [(env 1, RoomJoin "s1" "ABCD1" "FORM1" true);
               (env 2, RoomJoin "s2" "WXYZ2" "FORM2" true);
               (mkEnv 3 5 (2 ^ 52), TimerFires 0)] in
  let sc := sched (run cmds initialState) in
  timers sc !! 2 = Some (mkTimer "ABCD1" 22500) /\
  activeSchedulers sc !! "WXYZ2" = Some 1 /\
  (activeSchedulers sc !! timer_room (mkTimer "ABCD1" 22500) = Some 2 /\
   (15000 <= timer_delay (mkTimer "ABCD1" 22500) <= 30000)%N) /\
  (exists t, timers sc !! 1 = Some t /\ timer_room t = "WXYZ2").
Proof.
  pose proof (scheduler_timers_one_to_one
                [(env 1, RoomJoin "s1" "ABCD1" "FORM1" true);
                 (env 2, RoomJoin "s2" "WXYZ2" "FORM2" true);
                 (mkEnv 3 5 (2 ^ 52), TimerFires 0)]) as (H1 & H2 & _).
  split; [reflexivity|]. split; [reflexivity|]. split.
  - exact (H1 2 (mkTimer "ABCD1" 22500) eq_refl).
  - exact (H2 "WXYZ2" 1 eq_refl).
Defined.

(** X3. Starting the scheduler of a room that already has one changes
    nothing: a second start, with whatever random sample, keeps the pending
    timeout and its delay, and allocates no new handle. *)
Theorem startRoomScheduler_idempotent r1 r2 roomCode sc :
  Scheduler.startRoomScheduler r2 roomCode
    (Scheduler.startRoomScheduler r1 roomCode sc)
  = Scheduler.startRoomScheduler r1 roomCode sc.
Proof.
  unfold Scheduler.startRoomScheduler at 1.
  destruct (activeSchedulers
              (Scheduler.startRoomScheduler r1 roomCode sc) !! roomCode)
    eqn:Hstarted; [reflexivity|].
  exfalso. unfold Scheduler.startRoomScheduler in Hstarted.
  destruct (activeSchedulers sc !! roomCode) eqn:Ha; [congruence|].
  simpl in Hstarted. rewrite lookup_insert_eq in Hstarted. discriminate.
Qed.

(** X4. Stopping is idempotent, stopping a room without a scheduler changes
    nothing, and it undoes a start: after start then stop on a room that had
    no scheduler, the registrations and the pending timeouts are the ones
    from before (only the handle counter has advanced). Neither operation
    touches the registration of another room. *)
Theorem stopRoomScheduler_undoes_start r roomCode sc :
  SchedInv sc ->
  activeSchedulers sc !! roomCode = None ->
  let started := Scheduler.startRoomScheduler r roomCode sc in
  let stopped := Scheduler.stopRoomScheduler roomCode started in
  Scheduler.stopRoomScheduler roomCode sc = sc /\
  is_Some (activeSchedulers started !! roomCode) /\
  activeSchedulers stopped = activeSchedulers sc /\
  timers stopped = timers sc /\
  emitted stopped = emitted sc /\
  Scheduler.stopRoomScheduler roomCode stopped = stopped /\
  (forall other, other <> roomCode ->
     activeSchedulers started !! other = activeSchedulers sc !! other /\
     activeSchedulers (Scheduler.stopRoomScheduler other started) !! roomCode
     = activeSchedulers started !! roomCode).
Proof.
  intros Hinv Hnone started stopped.
  assert (Hfresh : timers sc !! nextTimer sc = None).
  { destruct (timers sc !! nextTimer sc) as [t|] eqn:Ht; [|reflexivity].
    destruct (Hinv _ _ Ht). lia. }
  assert (Hst : started
                = Scheduler.setActive roomCode (nextTimer sc)
                    (snd (Scheduler.setTimeout roomCode
                            (Scheduler.randomBetween r 15000 30000) sc))).
  { unfold started, Scheduler.startRoomScheduler. rewrite Hnone. reflexivity. }
  assert (Hsp : stopped
                = mkSched (activeSchedulers sc) (timers sc) (S (nextTimer sc))
                    (emitted sc)).
  { unfold stopped, Scheduler.stopRoomScheduler. rewrite Hst. simpl.
    rewrite lookup_insert_eq. simpl.
    rewrite !delete_insert_id by assumption. reflexivity. }
  split; [unfold Scheduler.stopRoomScheduler; rewrite Hnone; reflexivity|].
  split; [rewrite Hst; simpl; rewrite lookup_insert_eq; eauto|].
  rewrite Hsp. simpl. repeat split.
  - unfold Scheduler.stopRoomScheduler. simpl. rewrite Hnone. reflexivity.
  - rewrite Hst. simpl. apply lookup_insert_ne. congruence.
  - apply stop_other. assumption.
Qed.

Lemma stopRoomScheduler_undoes_start_witness :
  let sc := sched (run [(env 1, RoomJoin "s1" "ABCD1" "FORM1" true)]
                     initialState) in
  let started := Scheduler.startRoomScheduler 7 "WXYZ2" sc in
  let stopped := Scheduler.stopRoomScheduler "WXYZ2" started in
  activeSchedulers sc !! "WXYZ2" = None /\
  Scheduler.stopRoomScheduler "WXYZ2" sc = sc /\
  is_Some (activeSchedulers started !! "WXYZ2") /\
  activeSchedulers stopped = activeSchedulers sc /\
  timers stopped = timers sc /\
  emitted stopped = emitted sc /\
  Scheduler.stopRoomScheduler "WXYZ2" stopped = stopped /\
  (forall other, other <> "WXYZ2" ->
     activeSchedulers started !! other = activeSchedulers sc !! other /\
     activeSchedulers (Scheduler.stopRoomScheduler other started) !! "WXYZ2"
     = activeSchedulers started !! "WXYZ2").
Proof.
  split; [reflexivity|].
  apply (stopRoomScheduler_undoes_start 7 "WXYZ2"
           (sched (run [(env 1, RoomJoin "s1" "ABCD1" "FORM1" true)]
                     initialState))).
  - apply run_SchedInv, SchedInv_empty.
  - reflexivity.
Defined.

Lemma stopAll_fold (l : list (string * nat)) sc :
  let sc' :=
    List.fold_left
      (fun acc '(roomCode, timeout) =>
         let acc1 := Scheduler.clearTimeout timeout acc in
         mkSched (delete roomCode (activeSchedulers acc1)) (timers acc1)
                 (nextTimer acc1) (emitted acc1)) l sc in
  (forall code, activeSchedulers sc' !! code
                = if bool_decide (code ∈ l.*1) then None
                  else activeSchedulers sc !! code) /\
  (forall h, timers sc' !! h
             = if bool_decide (h ∈ l.*2) then None else timers sc !! h) /\
  emitted sc' = emitted sc /\ nextTimer sc' = nextTimer sc.
Proof.
  revert sc. induction l as [|[c h0] l IH]; intros sc; simpl.
  - repeat split; intros; case_bool_decide as H; auto;
      apply elem_of_nil in H; destruct H.
  - specialize (IH (mkSched (delete c (activeSchedulers sc))
                            (delete h0 (timers sc)) (nextTimer sc)
                            (emitted sc))).
    cbv zeta in IH. simpl in IH. destruct IH as (Ha & Ht & He & Hn).
    unfold Scheduler.clearTimeout. simpl.
    split; [|split; [|auto]].
    + intros code. rewrite Ha.
      change (list_fmap (string * nat)%type string fst l) with (l.*1).
      destruct (decide (code = c)) as [Heq|Hne]; [subst code|].
      * rewrite (bool_decide_eq_true_2 (c ∈ c :: l.*1)) by left.
        case_bool_decide; [reflexivity | apply lookup_delete_eq].
      * rewrite lookup_delete_ne by congruence.
        rewrite (bool_decide_ext (code ∈ c :: l.*1) (code ∈ l.*1));
          [reflexivity|].
        rewrite elem_of_cons. tauto.
    + intros h. rewrite Ht.
      change (list_fmap (string * nat)%type nat snd l) with (l.*2).
      destruct (decide (h = h0)) as [Heq|Hne]; [subst h|].
      * rewrite (bool_decide_eq_true_2 (h0 ∈ h0 :: l.*2)) by left.
        case_bool_decide; [reflexivity | apply lookup_delete_eq].
      * rewrite lookup_delete_ne by congruence.
        rewrite (bool_decide_ext (h ∈ h0 :: l.*2) (h ∈ l.*2));
          [reflexivity|].
        rewrite elem_of_cons. tauto.
Qed.

(** X5. [stopAllSchedulers] leaves no scheduler registered, whatever the
    state; when every pending timeout is a registered one (as in every state
    the process reaches), it leaves no timeout pending either. It emits
    nothing. *)
Theorem stopAllSchedulers_clears sc :
  let sc' := Scheduler.stopAllSchedulers sc in
  activeSchedulers sc' = ∅ /\ emitted sc' = emitted sc /\
  (SchedInv sc -> timers sc' = ∅) /\
  Scheduler.listActiveSchedulers sc' = [].
Proof.
  cbv zeta. unfold Scheduler.stopAllSchedulers.
  destruct (stopAll_fold (map_to_list (activeSchedulers sc)) sc)
    as (Ha & Ht & He & _).
  cbv zeta in Ha, Ht, He.
  set (sc' := List.fold_left _ _ sc) in *.
  assert (Hempty : activeSchedulers sc' = ∅).
  { apply map_empty. intros code. rewrite Ha.
    case_bool_decide as Hin; [reflexivity|].
    destruct (activeSchedulers sc !! code) as [h|] eqn:Hc; [|reflexivity].
    exfalso. apply Hin. apply list_elem_of_fmap. exists (code, h).
    split; [reflexivity|]. apply elem_of_map_to_list, Hc. }
  split; [exact Hempty|]. split; [exact He|]. split.
  - intros Hinv. apply map_empty. intros h. rewrite Ht.
    case_bool_decide as Hin; [reflexivity|].
    destruct (timers sc !! h) as [t|] eqn:Hh; [|reflexivity].
    exfalso. apply Hin. apply list_elem_of_fmap. exists (timer_room t, h).
    split; [reflexivity|]. apply elem_of_map_to_list, Hinv, Hh.
  - unfold Scheduler.listActiveSchedulers. rewrite Hempty, map_to_list_empty.
    reflexivity.
Qed.

Lemma stopAllSchedulers_clears_witness :
  let sc := sched (run [(env 1, RoomJoin "s1" "ABCD1" "FORM1" true);
                        (env 2, RoomJoin "s2" "WXYZ2" "FORM2" true)]
                     initialState) in
  let sc' := Scheduler.stopAllSchedulers sc in
  SchedInv sc /\ size (timers sc) = 2 /\
  activeSchedulers sc' = ∅ /\ emitted sc' = emitted sc /\
  timers sc' = ∅ /\ Scheduler.listActiveSchedulers sc' = [].
Proof.
  assert (Hinv : SchedInv
                   (sched (run [(env 1, RoomJoin "s1" "ABCD1" "FORM1" true);
                                (env 2, RoomJoin "s2" "WXYZ2" "FORM2" true)]
                             initialState)))
    by apply run_SchedInv, SchedInv_empty.
  destruct (stopAllSchedulers_clears
              (sched (run [(env 1, RoomJoin "s1" "ABCD1" "FORM1" true);
                           (env 2, RoomJoin "s2" "WXYZ2" "FORM2" true)]
                        initialState))) as (H1 & H2 & H3 & H4).
  split; [exact Hinv|]. split; [reflexivity|].
  split; [exact H1|]. split; [exact H2|]. split; [exact (H3 Hinv)|exact H4].
Defined.

(** X6. [listActiveSchedulers] lists exactly the rooms with a registered
    scheduler, each once: a room is listed after [startRoomScheduler] and no
    longer after [stopRoomScheduler]. *)
Theorem listActiveSchedulers_exact r roomCode sc :
  NoDup (Scheduler.listActiveSchedulers sc) /\
  (forall code, code ∈ Scheduler.listActiveSchedulers sc
                <-> is_Some (activeSchedulers sc !! code)) /\
  roomCode ∈ Scheduler.listActiveSchedulers
               (Scheduler.startRoomScheduler r roomCode sc) /\
  roomCode ∉ Scheduler.listActiveSchedulers
               (Scheduler.stopRoomScheduler roomCode sc).
Proof.
  assert (Hmem : forall sc0 code,
             code ∈ Scheduler.listActiveSchedulers sc0
             <-> is_Some (activeSchedulers sc0 !! code)).
  { intros sc0 code. unfold Scheduler.listActiveSchedulers.
    rewrite list_elem_of_fmap. split.
    - intros ([c h] & -> & Hin). apply elem_of_map_to_list in Hin. eauto.
    - intros [h Hh]. exists (code, h). split; [reflexivity|].
      apply elem_of_map_to_list, Hh. }
  split; [apply NoDup_fst_map_to_list|]. split; [apply Hmem|]. split.
  - apply Hmem. unfold Scheduler.startRoomScheduler.
    destruct (activeSchedulers sc !! roomCode) eqn:Ha; [rewrite Ha; eauto|].
    simpl. rewrite lookup_insert_eq. eauto.
  - rewrite Hmem, stop_is_none. intros [h [=]].
Qed.

(** * Further properties of the gateway *)

Lemma extendsWith_refl {A} (P : A -> Prop) l : extendsWith P l l.
Proof. exists []. rewrite app_nil_r. auto. Qed.

Lemma extendsWith_snoc {A} (P : A -> Prop) l l' x :
  extendsWith P l l' -> P x -> extendsWith P l (l' ++ [x]).
Proof.
  intros (new & -> & Hnew) Hx. exists (new ++ [x]).
  rewrite app_assoc. split; [reflexivity|].
  apply Forall_app. auto.
Qed.

Lemma extendsWith_trans {A} (P : A -> Prop) l1 l2 l3 :
  extendsWith P l1 l2 -> extendsWith P l2 l3 -> extendsWith P l1 l3.
Proof.
  intros (n1 & -> & H1) (n2 & -> & H2). exists (n1 ++ n2).
  rewrite app_assoc. split; [reflexivity|]. apply Forall_app. auto.
Qed.

Lemma extendsWith_Forall {A} (P : A -> Prop) l l' :
  extendsWith P l l' -> Forall P l -> Forall P l'.
Proof. intros (new & -> & Hnew) Hl. apply Forall_app. auto. Qed.

Ltac outbox_grows :=
  repeat (apply extendsWith_snoc; [|simpl; eauto]);
  try apply extendsWith_refl.

Lemma handleJoin_outbox e sid roomCode displayName isAdmin s :
  extendsWith wellTargeted (outbox (gw s))
    (outbox (gw (Gateway.handleJoin e sid roomCode displayName isAdmin s))).
Proof.
  unfold Gateway.handleJoin, wellTargeted.
  destruct (Gateway.resolveRoom _ _ _ _) as [[room d1]|]; simpl.
  - destruct (Gateway.upsertParticipant _ _ _ _ _). simpl. outbox_grows.
  - outbox_grows.
Qed.

Lemma handleLeave_outbox e sid roomCode s :
  extendsWith wellTargeted (outbox (gw s))
    (outbox (gw (Gateway.handleLeave e sid roomCode s))).
Proof.
  unfold Gateway.handleLeave, wellTargeted, Gateway.broadcastParticipants.
  destruct (roomConnections (Gateway.socketLeave sid _ (gw s)) !! _) as [c|];
    [destruct (Nat.eqb _ _)|];
    destruct (sd_roomId _), (sd_displayName _) as [name|];
    try destruct (Js.truthy name); simpl;
    unfold Gateway.socketLeave; simpl; outbox_grows.
Qed.

Lemma handleDisconnect_outbox e sid s :
  extendsWith wellTargeted (outbox (gw s))
    (outbox (gw (Gateway.handleDisconnect e sid s))).
Proof.
  unfold Gateway.handleDisconnect.
  destruct (sd_roomCode _) as [c|]; [destruct (Js.truthy c)|];
    auto using handleLeave_outbox, extendsWith_refl.
Qed.

Lemma handleChatMessage_outbox e sid content s :
  extendsWith wellTargeted (outbox (gw s))
    (outbox (gw (Gateway.handleChatMessage e sid content s))).
Proof.
  unfold Gateway.handleChatMessage, wellTargeted. cbv zeta.
  handler_cases; simpl; outbox_grows.
Qed.

Lemma handleManualEvent_outbox e sid payload s :
  extendsWith wellTargeted (outbox (gw s))
    (outbox (gw (Gateway.handleManualEvent e sid payload s))).
Proof.
  unfold Gateway.handleManualEvent, wellTargeted. cbv zeta.
  handler_cases; simpl; outbox_grows.
Qed.

Lemma onScheduledEvent_outbox e pl s :
  extendsWith wellTargeted (outbox (gw s))
    (outbox (gw (Gateway.onScheduledEvent e pl s))).
Proof.
  unfold Gateway.onScheduledEvent, wellTargeted.
  handler_cases; simpl; outbox_grows.
Qed.

Lemma fireTimer_outbox e h s :
  extendsWith wellTargeted (outbox (gw s)) (outbox (gw (fireTimer e h s))).
Proof.
  unfold fireTimer. destruct (timers _ !! h) as [t|]; simpl.
  - exact (onScheduledEvent_outbox e _ (mkState (db s) _ (gw s))).
  - apply extendsWith_refl.
Qed.

Lemma closeRoomAction_outbox e roomId roomCode s :
  extendsWith wellTargeted (outbox (gw s))
    (outbox (gw (closeRoomAction e roomId roomCode s))).
Proof.
  unfold closeRoomAction, wellTargeted.
  destruct (negb _); [apply extendsWith_refl|].
  destruct (Prisma.room_update_inactive _ _ _); simpl; outbox_grows.
Qed.

Lemma step_outbox s ec :
  extendsWith wellTargeted (outbox (gw s)) (outbox (gw (step s ec))).
Proof.
  destruct ec as [e []]; unfold step;
    auto using handleJoin_outbox, handleLeave_outbox, handleChatMessage_outbox,
      handleManualEvent_outbox, handleDisconnect_outbox, fireTimer_outbox,
      closeRoomAction_outbox, extendsWith_refl.
Qed.

Lemma run_outbox cmds s :
  extendsWith wellTargeted (outbox (gw s)) (outbox (gw (run cmds s))).
Proof.
  revert s. induction cmds as [|ec cmds IH]; intros s; simpl.
  - apply extendsWith_refl.
  - eapply extendsWith_trans; [apply step_outbox | apply IH].
Qed.

(** X7. Errors are never broadcast and nothing else is sent privately: over
    any sequence of commands, from any state, what has been emitted is kept
    (the log only grows) and every new [system:error] is addressed to a
    single socket, while every new announcement, chat message, event and
    participant list is addressed to a room. *)
Theorem errors_private_rest_broadcast cmds s :
  (exists new, outbox (gw (run cmds s)) = outbox (gw s) ++ new) /\
  forall em, In em (outbox (gw (run cmds s))) ->
    In em (outbox (gw s)) \/
    match em_event em with
    | SystemError _ => exists sid, em_target em = ToSocket sid
    | _ => exists code, em_target em = ToRoom code
    end.
Proof.
  destruct (run_outbox cmds s) as (new & Heq & Hall).
  split; [eauto|]. rewrite Heq.
  intros em Hin. apply in_app_iff in Hin as [Hin|Hin]; [auto|right].
  rewrite Forall_forall in Hall.
  apply (Hall em), list_elem_of_In, Hin.
Qed.

Lemma errors_private_rest_broadcast_witness :
  let cmds := [(env 1, RoomJoin "s1" "ABCD1" "FORM1" true);
               (env 2, Chat "s9" "bonjour")] in
  let em := mkEmission (ToSocket "s9")
              (SystemError "Impossible d’identifier la salle courante.") in
  In em (outbox (gw (run cmds initialState))) /\
  (In em (outbox (gw initialState)) \/
   exists sid, em_target em = ToSocket sid).
Proof.
  assert (Hin : In (mkEmission (ToSocket "s9")
                      (SystemError
                         "Impossible d’identifier la salle courante."))
                   (outbox
                      (gw (run [(env 1, RoomJoin "s1" "ABCD1" "FORM1" true);
                                (env 2, Chat "s9" "bonjour")] initialState))))
    by (right; right; left; reflexivity).
  split; [exact Hin|].
  exact (proj2 (errors_private_rest_broadcast _ _) _ Hin).
Defined.

(** ** Strings: case folding, trimming, and the names of the severities *)

Lemma upperAscii_idempotent c : Js.upperAscii (Js.upperAscii c) = Js.upperAscii c.
Proof. destruct c as [[] [] [] [] [] [] [] []]; reflexivity. Qed.

Lemma toUpperCase_idempotent s :
  Js.toUpperCase (Js.toUpperCase s) = Js.toUpperCase s.
Proof.
  unfold Js.toUpperCase.
  induction s as [|c s IH]; cbn [Js.mapString]; [reflexivity|].
  rewrite upperAscii_idempotent, IH. reflexivity.
Qed.

Lemma severityOfKey_name key v :
  severityOfKey key = Some v -> key = severityName v.
Proof.
  unfold severityOfKey.
  destruct (String.eqb key "LOW") eqn:H1;
    [apply String.eqb_eq in H1; intros [= <-]; exact H1|].
  destruct (String.eqb key "MODERATE") eqn:H2;
    [apply String.eqb_eq in H2; intros [= <-]; exact H2|].
  destruct (String.eqb key "HIGH") eqn:H3;
    [apply String.eqb_eq in H3; intros [= <-]; exact H3|].
  destruct (String.eqb key "CRITICAL") eqn:H4;
    [apply String.eqb_eq in H4; intros [= <-]; exact H4|].
  discriminate.
Qed.

Lemma severityOfKey_severityName v : severityOfKey (severityName v) = Some v.
Proof. destruct v; reflexivity. Qed.

Lemma trimStart_noLeadingSpace s : noLeadingSpace (Js.trimStart s).
Proof.
  induction s as [|c s IH]; simpl; [exact I|].
  destruct (Js.isSpace c) eqn:Hc; [exact IH | simpl; exact Hc].
Qed.

Lemma trimStart_fixed s : noLeadingSpace s -> Js.trimStart s = s.
Proof. destruct s as [|c s]; simpl; [auto|]. intros ->. reflexivity. Qed.

Lemma trimEnd_noLeadingSpace s :
  noLeadingSpace s -> noLeadingSpace (Js.trimEnd s).
Proof.
  destruct s as [|c s]; simpl; [auto|]. intros Hc.
  destruct (Js.trimEnd s); [rewrite Hc|]; simpl; exact Hc.
Qed.

Lemma trimEnd_idempotent s : Js.trimEnd (Js.trimEnd s) = Js.trimEnd s.
Proof.
  induction s as [|c s IH]; simpl; [reflexivity|].
  destruct (Js.trimEnd s) as [|c' r] eqn:Hr.
  - destruct (Js.isSpace c) eqn:Hc; simpl; [reflexivity|].
    rewrite Hc. reflexivity.
  - simpl. simpl in IH. rewrite IH. reflexivity.
Qed.

Lemma trim_idempotent s : Js.trim (Js.trim s) = Js.trim s.
Proof.
  unfold Js.trim.
  rewrite (trimStart_fixed (Js.trimEnd (Js.trimStart s))).
  - apply trimEnd_idempotent.
  - apply trimEnd_noLeadingSpace, trimStart_noLeadingSpace.
Qed.

(** ** Messages and events: what a step may do to the two tables *)

Lemma storeStep_same d d' :
  messages d' = messages d -> crisisEvents d' = crisisEvents d ->
  storeStep d d'.
Proof.
  intros Hm He. exists [], [], (crisisEvents d).
  rewrite !app_nil_r. auto 6.
Qed.

Lemma handleJoin_messages e sid roomCode displayName isAdmin s :
  messages (db (Gateway.handleJoin e sid roomCode displayName isAdmin s))
  = messages (db s).
Proof.
  rewrite handleJoin_db.
  destruct (Gateway.resolveRoom _ _ _ _) as [[room d1]|] eqn:Hr;
    [|reflexivity].
  transitivity (messages d1).
  - unfold Gateway.upsertParticipant.
    destruct (Prisma.participant_findFirst _ _ _); reflexivity.
  - unfold Gateway.resolveRoom in Hr.
    destruct (Prisma.room_findUnique _ _); [|destruct isAdmin];
      cbv [Prisma.room_create negb] in Hr; simplify_eq; reflexivity.
Qed.

Lemma handleLeave_messages e sid roomCode s :
  messages (db (Gateway.handleLeave e sid roomCode s)) = messages (db s).
Proof. rewrite handleLeave_db. destruct (sd_participantId _); reflexivity. Qed.

Lemma handleDisconnect_messages e sid s :
  messages (db (Gateway.handleDisconnect e sid s)) = messages (db s).
Proof.
  unfold Gateway.handleDisconnect.
  destruct (sd_roomCode _) as [c|]; [destruct (Js.truthy c)|];
    auto using handleLeave_messages.
Qed.

Lemma closeRoomAction_messages e roomId roomCode s :
  messages (db (closeRoomAction e roomId roomCode s)) = messages (db s).
Proof.
  unfold closeRoomAction, Prisma.room_update_inactive.
  destruct (negb _); [reflexivity|].
  destruct (List.find _ (rooms (db s))); reflexivity.
Qed.

Lemma handleEventAck_storeStep e sid eventId s :
  storeStep (db s) (db (Gateway.handleEventAck e sid eventId s)).
Proof.
  exists [], [].
  exists (List.map (fun ev => if Nat.eqb (ev_id ev) eventId
                              then Prisma.acknowledge (now e) ev else ev)
            (crisisEvents (db s))).
  simpl. rewrite !app_nil_r. repeat split; auto.
  rewrite List.map_map. apply List.map_ext. intros ev.
  destruct (Nat.eqb _ _); reflexivity.
Qed.

Lemma handleChatMessage_storeStep e sid content s :
  storeStep (db s) (db (Gateway.handleChatMessage e sid content s)).
Proof.
  unfold Gateway.handleChatMessage. cbv zeta.
  destruct (sd_roomId (Gateway.dataOf sid (gw s))) as [roomId|],
    (sd_roomCode (Gateway.dataOf sid (gw s))) as [c|];
    try (apply storeStep_same; reflexivity).
  destruct (Js.truthy c); simpl; [|apply storeStep_same; reflexivity].
  destruct (Js.truthy (Js.trim content)) eqn:Ht; simpl;
    [|apply storeStep_same; reflexivity].
  eexists [_], [], (crisisEvents (db s)). rewrite app_nil_r.
  split; [reflexivity|]. split; [reflexivity|]. split; [reflexivity|].
  right. left. eexists. split; [reflexivity|].
  split; [reflexivity|]. split; [reflexivity|].
  intros _. simpl. split; [apply trim_idempotent|].
  intros Hempty. rewrite Hempty in Ht. discriminate.
Qed.

Lemma handleManualEvent_storeStep e sid payload s :
  storeStep (db s) (db (Gateway.handleManualEvent e sid payload s)).
Proof.
  unfold Gateway.handleManualEvent. cbv zeta.
  destruct (default false _); simpl; [|apply storeStep_same; reflexivity].
  destruct (sd_roomId (Gateway.dataOf sid (gw s))) as [roomId|],
    (sd_roomCode (Gateway.dataOf sid (gw s))) as [c|];
    try (apply storeStep_same; reflexivity).
  destruct (Js.truthy c); simpl; [|apply storeStep_same; reflexivity].
  destruct (severityOfKey _) as [v|] eqn:Hv; simpl;
    [|apply storeStep_same; reflexivity].
  eexists [_], [_], (crisisEvents (db s)).
  split; [reflexivity|]. split; [reflexivity|]. split; [reflexivity|].
  right. right. do 2 eexists. split; [reflexivity|].
  split; [reflexivity|]. split; [reflexivity|]. split; [|reflexivity].
  unfold companion. simpl. rewrite (severityOfKey_name _ _ Hv). reflexivity.
Qed.

Lemma onScheduledEvent_storeStep e pl s :
  poolName (pl_severity pl) ->
  storeStep (db s) (db (Gateway.onScheduledEvent e pl s)).
Proof.
  intros Hpool. unfold Gateway.onScheduledEvent.
  destruct (Prisma.room_findUnique _ _) as [room|];
    [|apply storeStep_same; reflexivity].
  destruct (pl_severity pl) as [severity|];
    [|apply storeStep_same; reflexivity].
  destruct (severityOfKey _) as [v|] eqn:Hv; simpl;
    [|apply storeStep_same; reflexivity].
  eexists [_], [_], (crisisEvents (db s)).
  split; [reflexivity|]. split; [reflexivity|]. split; [reflexivity|].
  right. right. do 2 eexists. split; [reflexivity|].
  split; [reflexivity|]. split; [reflexivity|]. split; [|reflexivity].
  unfold companion. simpl.
  destruct Hpool as [[= ->] | [[= ->] | [= ->]]]; simpl in Hv;
    injection Hv as <-; reflexivity.
Qed.

Lemma step_storeStep s ec : storeStep (db s) (db (step s ec)).
Proof.
  destruct ec as [e []]; unfold step.
  - apply storeStep_same;
      auto using handleJoin_messages, handleJoin_crisisEvents.
  - apply storeStep_same;
      auto using handleLeave_messages, handleLeave_crisisEvents.
  - apply handleChatMessage_storeStep.
  - apply handleManualEvent_storeStep.
  - apply handleEventAck_storeStep.
  - apply storeStep_same;
      auto using handleDisconnect_messages, handleDisconnect_crisisEvents.
  - unfold fireTimer. destruct (timers _ !! h) as [t|];
      [|apply storeStep_same; reflexivity]. simpl.
    exact (onScheduledEvent_storeStep e _ (mkState (db s) _ (gw s))
             (tick_severity_pool e _)).
  - apply storeStep_same;
      auto using closeRoomAction_messages, closeRoomAction_crisisEvents.
Qed.

Lemma storeStep_kept d d' : storeStep d d' -> storeKept d d'.
Proof.
  intros (newM & newE & l' & Hm & He & Hcore & _). split; eauto.
Qed.

Lemma storeKept_refl d : storeKept d d.
Proof.
  split; [exists []|exists (crisisEvents d), []]; rewrite app_nil_r; auto.
Qed.

Lemma map_eq_app_split {A B} (f : A -> B) (l : list A) (k1 k2 : list B) :
  List.map f l = k1 ++ k2 ->
  exists l1 l2, l = l1 ++ l2 /\ List.map f l1 = k1 /\ List.map f l2 = k2.
Proof.
  revert l. induction k1 as [|b k1 IH]; intros l Hl.
  - exists [], l. auto.
  - destruct l as [|a l]; [discriminate|]. simpl in Hl.
    injection Hl as Ha Hl. destruct (IH l Hl) as (l1 & l2 & -> & H1 & H2).
    exists (a :: l1), l2. simpl. rewrite Ha, H1. auto.
Qed.

Lemma storeKept_trans d1 d2 d3 :
  storeKept d1 d2 -> storeKept d2 d3 -> storeKept d1 d3.
Proof.
  intros [(m1 & Hm1) (l1 & e1 & He1 & Hc1)] [(m2 & Hm2) (l2 & e2 & He2 & Hc2)].
  split.
  - exists (m1 ++ m2). rewrite Hm2, Hm1, app_assoc. reflexivity.
  - rewrite He1, map_app in Hc2.
    destruct (map_eq_app_split _ _ _ _ Hc2) as (la & lb & -> & Ha & Hb).
    exists la, (lb ++ e2). rewrite He2, app_assoc. split; [reflexivity|].
    congruence.
Qed.

Lemma run_storeKept cmds s : storeKept (db s) (db (run cmds s)).
Proof.
  revert s. induction cmds as [|ec cmds IH]; intros s; simpl.
  - apply storeKept_refl.
  - eapply storeKept_trans; [apply storeStep_kept, step_storeStep | apply IH].
Qed.

Lemma storeStep_inv d d' : StoreInv d -> storeStep d d' -> StoreInv d'.
Proof.
  intros (Hcomp & Hchat & Hsys) (newM & newE & l' & Hm & He & Hcore & Hnew).
  assert (Hcomp' : List.map companion l'
                   = List.map companion (crisisEvents d)).
  { clear -Hcore. revert Hcore. generalize (crisisEvents d).
    induction l' as [|a l' IH]; intros [|b l]; simpl; try discriminate; auto.
    intros [= H1 H2 H3 H4 H5 H6 H7 H8 H9 Hl]. f_equal; [|eauto].
    unfold companion. congruence. }
  unfold StoreInv. rewrite Hm, He, List.filter_app, !map_app, Hcomp', Hcomp.
  destruct Hnew as [[-> ->] | [(m & -> & -> & Hty & Hok)
                             | (m & ev & -> & -> & Hty & Hmeta & _)]].
  - rewrite !app_nil_r. auto.
  - simpl. unfold isEventMessage at 1. rewrite Hty. simpl.
    rewrite !app_nil_r. split; [reflexivity|]. split.
    + apply Forall_app. split; [exact Hchat | apply Forall_singleton, Hok].
    + apply Forall_app. split; [exact Hsys|].
      apply Forall_singleton. congruence.
  - simpl. unfold isEventMessage at 1. rewrite Hty. simpl. rewrite Hmeta.
    split; [reflexivity|]. split.
    + apply Forall_app. split; [exact Hchat|].
      apply Forall_singleton. unfold chatContentOk. congruence.
    + apply Forall_app. split; [exact Hsys|].
      apply Forall_singleton. congruence.
Qed.

Lemma run_StoreInv cmds s : StoreInv (db s) -> StoreInv (db (run cmds s)).
Proof.
  revert s. induction cmds as [|ec cmds IH]; intros s H; simpl; [exact H|].
  apply IH. eapply storeStep_inv; [exact H | apply step_storeStep].
Qed.

Lemma StoreInv_initial : StoreInv (db initialState).
Proof. repeat split; constructor. Qed.

(** X8. The message table is append-only and the event table is never
    shortened: over any sequence of commands, from any state, the messages of
    before are a prefix, unchanged, of the messages of after, and the events
    of before are still there, in order, with every column except [ackAt]
    unchanged. *)
Theorem messages_append_only cmds s :
  (exists newM,
      messages (db (run cmds s)) = messages (db s) ++ newM) /\
  (exists kept newE,
      crisisEvents (db (run cmds s)) = kept ++ newE /\
      List.map eventCore kept = List.map eventCore (crisisEvents (db s))).
Proof. apply run_storeKept. Qed.

(** X9. In every state the process reaches, each persisted CrisisEvent has
    its companion Message: the messages of type EVENT, in order, are in one
    to one correspondence with the events, each carrying its event's room
    and, as metadata, its event's severity name and source; and no message of
    type SYSTEM is ever stored (announcements are not persisted). *)
Theorem events_have_companion_messages cmds :
  let d := db (run cmds initialState) in
  List.map (fun m => (msg_roomId m, msg_metadata m))
           (List.filter isEventMessage (messages d))
  = List.map companion (crisisEvents d) /\
  length (List.filter isEventMessage (messages d)) = length (crisisEvents d) /\
  Forall (fun m => msg_type m <> SYSTEM) (messages d).
Proof.
  destruct (run_StoreInv cmds _ StoreInv_initial) as (Hcomp & _ & Hsys).
  split; [exact Hcomp|]. split; [|exact Hsys].
  rewrite <- (length_map (fun m => (msg_roomId m, msg_metadata m))), Hcomp.
  apply length_map.
Qed.

(** X10. Every chat message the gateway stores is trimmed and not empty:
    in every state the process reaches, the content of a CHAT message is its
    own [trim()] and is not the empty string. *)
Theorem chat_messages_trimmed cmds m :
  In m (messages (db (run cmds initialState))) ->
  msg_type m = CHAT ->
  Js.trim (msg_content m) = msg_content m /\ msg_content m <> "".
Proof.
  destruct (run_StoreInv cmds _ StoreInv_initial) as (_ & Hchat & _).
  intros Hin. rewrite Forall_forall in Hchat.
  apply (Hchat m), list_elem_of_In, Hin.
Qed.

Lemma chat_messages_trimmed_witness :
  let cmds := [(env 1, RoomJoin "s1" "ABCD1" "FORM1" true);
               (env 2, Chat "s1" "  bonjour a tous  ")] in
  let m := mkMessage 2 0 (Some "FORM1") CHAT "bonjour a tous" None 2 in
  In m (messages (db (run cmds initialState))) /\
  msg_type m = CHAT /\
  Js.trim (msg_content m) = msg_content m /\ msg_content m <> "".
Proof.
  assert (Hin : In (mkMessage 2 0 (Some "FORM1") CHAT "bonjour a tous" None 2)
                   (messages
                      (db (run [(env 1, RoomJoin "s1" "ABCD1" "FORM1" true);
                                (env 2, Chat "s1" "  bonjour a tous  ")]
                             initialState)))) by (left; reflexivity).
  split; [exact Hin|]. split; [reflexivity|].
  exact (chat_messages_trimmed _ _ Hin eq_refl).
Defined.

(** ** The room table *)

Lemma roomEvolves_refl r : roomEvolves r r.
Proof. unfold roomEvolves. auto. Qed.

Lemma roomEvolves_trans r1 r2 r3 :
  roomEvolves r1 r2 -> roomEvolves r2 r3 -> roomEvolves r1 r3.
Proof.
  unfold roomEvolves. intros (?&?&?) (?&?&?).
  repeat split; try congruence; auto.
Qed.

Lemma Forall2_roomEvolves_refl l : Forall2 roomEvolves l l.
Proof. induction l; constructor; auto using roomEvolves_refl. Qed.

Lemma roomsStep_same d d' : rooms d' = rooms d -> roomsStep d d'.
Proof.
  intros H. exists (rooms d), []. rewrite app_nil_r.
  auto using Forall2_roomEvolves_refl.
Qed.

Lemma handleJoin_roomsStep e sid roomCode displayName isAdmin s :
  roomsStep (db s)
    (db (Gateway.handleJoin e sid roomCode displayName isAdmin s)).
Proof.
  rewrite handleJoin_db. unfold Gateway.resolveRoom.
  destruct (Prisma.room_findUnique _ (db s)) as [room|] eqn:Hf.
  - apply roomsStep_same, upsert_rooms.
  - destruct isAdmin; simpl; [|apply roomsStep_same; reflexivity].
    eexists (rooms (db s)), [_]. rewrite upsert_rooms. simpl.
    split; [reflexivity|]. split; [apply Forall2_roomEvolves_refl|].
    right. eexists. split; [reflexivity|]. simpl.
    auto using toUpperCase_idempotent.
Qed.

Lemma closeRoomAction_roomsStep e roomId roomCode s :
  roomsStep (db s) (db (closeRoomAction e roomId roomCode s)).
Proof.
  unfold closeRoomAction, Prisma.room_update_inactive.
  destruct (negb _); [apply roomsStep_same; reflexivity|].
  destruct (List.find _ (rooms (db s))) as [found|];
    [|apply roomsStep_same; reflexivity]. simpl. clear found.
  eexists _, []. rewrite app_nil_r. split; [reflexivity|]. split; [|auto].
  induction (rooms (db s)) as [|r0 l IH]; simpl; constructor; [|exact IH].
  destruct (Nat.eqb _ _); [|apply roomEvolves_refl].
  unfold roomEvolves. simpl. auto.
Qed.

Lemma handleLeave_rooms e sid roomCode s :
  rooms (db (Gateway.handleLeave e sid roomCode s)) = rooms (db s).
Proof. rewrite handleLeave_db. destruct (sd_participantId _); reflexivity. Qed.

Lemma handleDisconnect_rooms e sid s :
  rooms (db (Gateway.handleDisconnect e sid s)) = rooms (db s).
Proof.
  unfold Gateway.handleDisconnect.
  destruct (sd_roomCode _) as [c|]; [destruct (Js.truthy c)|];
    auto using handleLeave_rooms.
Qed.

Lemma handleChatMessage_rooms e sid content s :
  rooms (db (Gateway.handleChatMessage e sid content s)) = rooms (db s).
Proof.
  unfold Gateway.handleChatMessage. cbv zeta. handler_cases; reflexivity.
Qed.

Lemma handleManualEvent_rooms e sid payload s :
  rooms (db (Gateway.handleManualEvent e sid payload s)) = rooms (db s).
Proof.
  unfold Gateway.handleManualEvent. cbv zeta. handler_cases; reflexivity.
Qed.

Lemma onScheduledEvent_rooms e pl s :
  rooms (db (Gateway.onScheduledEvent e pl s)) = rooms (db s).
Proof. unfold Gateway.onScheduledEvent. handler_cases; reflexivity. Qed.

Lemma fireTimer_rooms e h s : rooms (db (fireTimer e h s)) = rooms (db s).
Proof.
  unfold fireTimer. destruct (timers _ !! h) as [t|]; [|reflexivity]. simpl.
  exact (onScheduledEvent_rooms e _ (mkState (db s) _ (gw s))).
Qed.

Lemma step_roomsStep s ec : roomsStep (db s) (db (step s ec)).
Proof.
  destruct ec as [e []]; unfold step;
    auto using handleJoin_roomsStep, closeRoomAction_roomsStep;
    apply roomsStep_same;
    auto using handleLeave_rooms, handleChatMessage_rooms,
      handleManualEvent_rooms, handleDisconnect_rooms, fireTimer_rooms.
Qed.

Lemma Forall2_roomEvolves_codes l l' :
  Forall2 roomEvolves l l' -> List.map room_code l' = List.map room_code l.
Proof.
  induction 1 as [|r r' l l' Hr _ IH]; simpl; [reflexivity|].
  destruct Hr as (_ & -> & _). rewrite IH. reflexivity.
Qed.

Lemma findUnique_None_code code d :
  Prisma.room_findUnique code d = None ->
  ~ In code (List.map room_code (rooms d)).
Proof.
  unfold Prisma.room_findUnique. intros Hf Hin.
  apply in_map_iff in Hin as (r & Hc & Hr).
  apply (List.find_none _ _ Hf) in Hr. simpl in Hr.
  rewrite Hc, String.eqb_refl in Hr. discriminate.
Qed.

Lemma roomsStep_inv d d' : RoomsInv d -> roomsStep d d' -> RoomsInv d'.
Proof.
  intros [Hnd Hup] (l' & tail & Hr & Hev & Htail).
  pose proof (Forall2_roomEvolves_codes _ _ Hev) as Hcodes.
  assert (Hup' : Forall (fun r => Js.toUpperCase (room_code r) = room_code r)
                   l').
  { clear -Hev Hup. induction Hev as [|r r' l l' Hr _ IH]; [constructor|].
    apply Forall_cons in Hup as [H1 H2]. constructor; [|auto].
    destruct Hr as (_ & -> & _). exact H1. }
  unfold RoomsInv. rewrite Hr, map_app, Hcodes.
  destruct Htail as [->|(r & -> & Hfree & Hnorm & _)].
  - rewrite !app_nil_r. auto.
  - split.
    + apply NoDup_app. split; [exact Hnd|]. split; [|apply NoDup_singleton].
      intros c Hc Hc'. apply list_elem_of_singleton in Hc'. subst c.
      apply (findUnique_None_code _ _ Hfree), list_elem_of_In, Hc.
    + apply Forall_app. split; [exact Hup'|]. apply Forall_singleton, Hnorm.
Qed.

Lemma run_RoomsInv cmds s : RoomsInv (db s) -> RoomsInv (db (run cmds s)).
Proof.
  revert s. induction cmds as [|ec cmds IH]; intros s H; simpl; [exact H|].
  apply IH. eapply roomsStep_inv; [exact H | apply step_roomsStep].
Qed.

(** X11. In every state the process reaches, the codes of the persisted
    rooms are pairwise distinct and in upper case, so that the room a join
    resolves is the only one with that code, whatever the case the client
    typed the code in. *)
Theorem room_codes_unique_normalised cmds :
  let d := db (run cmds initialState) in
  NoDup (List.map room_code (rooms d)) /\
  (forall r, In r (rooms d) -> Js.toUpperCase (room_code r) = room_code r) /\
  (forall r roomCode,
      In r (rooms d) -> Js.toUpperCase roomCode = room_code r ->
      Prisma.room_findUnique (Js.toUpperCase roomCode) d = Some r).
Proof.
  intros d.
  destruct (run_RoomsInv cmds initialState) as [Hnd Hup];
    [split; constructor|]. fold d in Hnd, Hup.
  split; [exact Hnd|]. split.
  - intros r Hin. rewrite Forall_forall in Hup.
    apply Hup, list_elem_of_In, Hin.
  - intros r roomCode Hin Hcode. rewrite Hcode.
    unfold Prisma.room_findUnique. clear Hup Hcode.
    induction (rooms d) as [|a l IH]; [destruct Hin|]. simpl in *.
    pose proof (NoDup_cons_1_1 _ _ Hnd) as Ha.
    apply NoDup_cons_1_2 in Hnd.
    destruct Hin as [->|Hin]; [rewrite String.eqb_refl; reflexivity|].
    destruct (String.eqb (room_code a) (room_code r)) eqn:Heq; [|auto].
    apply String.eqb_eq in Heq. exfalso. apply Ha. rewrite Heq.
    apply list_elem_of_In, in_map, Hin.
Qed.

Lemma room_codes_unique_normalised_witness :
  let cmds := [(env 1, RoomJoin "s1" "abcd1" "FORM1" true);
               (env 2, RoomJoin "s2" "AbCd1" "Alice" false)] in
  let d := db (run cmds initialState) in
  let r := mkRoom 0 "ABCD1" (Some "Salle ABCD1") true 1 1 in
  In r (rooms d) /\ Js.toUpperCase "aBcD1" = room_code r /\
  Js.toUpperCase (room_code r) = room_code r /\
  Prisma.room_findUnique (Js.toUpperCase "aBcD1") d = Some r.
Proof.
  assert (Hin : In (mkRoom 0 "ABCD1" (Some "Salle ABCD1") true 1 1)
                   (rooms
                      (db (run [(env 1, RoomJoin "s1" "abcd1" "FORM1" true);
                                (env 2, RoomJoin "s2" "AbCd1" "Alice" false)]
                             initialState)))) by (left; reflexivity).
  destruct (room_codes_unique_normalised
              [(env 1, RoomJoin "s1" "abcd1" "FORM1" true);
               (env 2, RoomJoin "s2" "AbCd1" "Alice" false)])
    as (_ & H1 & H2).
  split; [exact Hin|]. split; [reflexivity|].
  split; [exact (H1 _ Hin) | exact (H2 _ "aBcD1" Hin eq_refl)].
Defined.

Lemma roomsStep_row d d' r :
  roomsStep d d' -> In r (rooms d) ->
  exists r', In r' (rooms d') /\ roomEvolves r r'.
Proof.
  intros (l' & tail & Hr & Hev & _) Hin. rewrite Hr.
  assert (H : exists r', In r' l' /\ roomEvolves r r').
  { clear -Hev Hin. induction Hev as [|a a' l l' Ha _ IH]; [destruct Hin|].
    destruct Hin as [->|Hin]; [exists a'; simpl; auto|].
    destruct (IH Hin) as (r' & Hin' & Hrr). exists r'. simpl. auto. }
  destruct H as (r' & Hin' & Hrr). exists r'. rewrite in_app_iff. auto.
Qed.

(** X12. No command reactivates a room: a room row that is inactive (closed)
    is still there, with the same identifier and code, and still inactive
    after any sequence of commands, joins by admins included. *)
Theorem closed_room_stays_inactive cmds s r :
  In r (rooms (db s)) -> room_isActive r = false ->
  exists r', In r' (rooms (db (run cmds s))) /\
             room_id r' = room_id r /\ room_code r' = room_code r /\
             room_isActive r' = false.
Proof.
  revert s r. induction cmds as [|ec cmds IH]; intros s r Hin Hoff; simpl.
  - eauto.
  - destruct (roomsStep_row _ _ _ (step_roomsStep s ec) Hin)
      as (r1 & Hin1 & Hid & Hcode & Hact).
    destruct (IH _ _ Hin1 (Hact Hoff)) as (r' & Hin' & Hid' & Hcode' & Hoff').
    exists r'. repeat split; congruence.
Qed.

Lemma closed_room_stays_inactive_witness :
  let s := run [(env 1, RoomJoin "s1" "ABCD1" "FORM1" true);
                (env 2, CloseRoom 0 "ABCD1")] initialState in
  let cmds := [(env 3, Disconnect "s1");
               (env 4, RoomJoin "s2" "ABCD1" "FORM1" true)] in
  let r := mkRoom 0 "ABCD1" (Some "Salle ABCD1") false 1 2 in
  In r (rooms (db s)) /\ room_isActive r = false /\
  exists r', In r' (rooms (db (run cmds s))) /\
             room_id r' = room_id r /\ room_code r' = room_code r /\
             room_isActive r' = false.
Proof.
  assert (Hin : In (mkRoom 0 "ABCD1" (Some "Salle ABCD1") false 1 2)
                   (rooms
                      (db (run [(env 1, RoomJoin "s1" "ABCD1" "FORM1" true);
                                (env 2, CloseRoom 0 "ABCD1")] initialState))))
    by (left; reflexivity).
  split; [exact Hin|]. split; [reflexivity|].
  exact (closed_room_stays_inactive
           [(env 3, Disconnect "s1");
            (env 4, RoomJoin "s2" "ABCD1" "FORM1" true)] _ _ Hin eq_refl).
Defined.

(** ** Schedulers, rooms and connections together *)

Lemma start_timers r code sc h t :
  timers (Scheduler.startRoomScheduler r code sc) !! h = Some t ->
  timers sc !! h = Some t \/ timer_room t = code.
Proof.
  unfold Scheduler.startRoomScheduler.
  destruct (activeSchedulers sc !! code); [auto|]. simpl.
  destruct (decide (nextTimer sc = h)) as [->|Hne].
  - rewrite lookup_insert_eq. intros [= <-]. auto.
  - rewrite lookup_insert_ne by exact Hne. auto.
Qed.

Lemma stop_timers code sc h t :
  timers (Scheduler.stopRoomScheduler code sc) !! h = Some t ->
  timers sc !! h = Some t.
Proof.
  unfold Scheduler.stopRoomScheduler.
  destruct (activeSchedulers sc !! code); [|auto]. simpl.
  intros H. apply lookup_delete_Some in H. tauto.
Qed.

Lemma stop_active code' sc code h :
  activeSchedulers (Scheduler.stopRoomScheduler code' sc) !! code = Some h ->
  code <> code' /\ activeSchedulers sc !! code = Some h.
Proof.
  destruct (decide (code = code')) as [->|Hne].
  - rewrite stop_is_none. discriminate.
  - rewrite stop_other by congruence. auto.
Qed.

Lemma resolveRoom_exists e code isAdmin d room d1 displayName :
  Gateway.resolveRoom e code isAdmin d = Some (room, d1) ->
  is_Some
    (roomIdOf code
       (snd (Gateway.upsertParticipant e (room_id room) displayName isAdmin d1))).
Proof.
  intros Hr. pose proof (resolveRoom_roomIdOf _ _ _ _ _ _ Hr) as Hid.
  unfold roomIdOf, Prisma.room_findUnique in *. rewrite upsert_rooms, Hid.
  eauto.
Qed.

Lemma kept_exists d d' code :
  roomsKept d d' -> is_Some (roomIdOf code d) -> is_Some (roomIdOf code d').
Proof. intros Hk [rid Hrid]. exists rid. apply Hk, Hrid. Qed.

Lemma step_TimerRooms s ec : TimerRooms s -> TimerRooms (step s ec).
Proof.
  intros Hinv h t Ht.
  assert (Hold : timers (sched s) !! h = Some t ->
                 Js.toUpperCase (timer_room t) = timer_room t /\
                 is_Some (roomIdOf (timer_room t) (db (step s ec)))).
  { intros H0. destruct (Hinv _ _ H0) as [Hup Hex]. split; [exact Hup|].
    eapply kept_exists; [apply step_roomsKept | exact Hex]. }
  destruct ec as [e []]; unfold step in *.
  - rewrite handleJoin_sched in Ht.
    destruct (Gateway.resolveRoom _ _ _ _) as [[room d1]|] eqn:Hr,
      isAdmin; auto.
    apply start_timers in Ht as [Ht| ->]; [auto|].
    split; [apply toUpperCase_idempotent|].
    rewrite handleJoin_db, Hr. eapply resolveRoom_exists, Hr.
  - rewrite handleLeave_sched in Ht.
    destruct (lastConnection _ _ _); [apply stop_timers in Ht|]; auto.
  - rewrite (proj1 (handleChatMessage_frame e sid content s)) in Ht. auto.
  - rewrite (proj1 (handleManualEvent_frame e sid payload s)) in Ht. auto.
  - auto.
  - destruct (handleDisconnect_sched e sid s) as [Hs|[c Hs]];
      rewrite Hs in Ht; [|apply stop_timers in Ht]; auto.
  - rewrite fireTimer_sched in Ht.
    destruct (timers (sched s) !! h0) as [t0|] eqn:Ht0; [|auto].
    unfold Scheduler.tickRearm in Ht. simpl in Ht.
    destruct (decide (nextTimer (sched s) = h)) as [Heq|Hne].
    + subst h. rewrite lookup_insert_eq in Ht. injection Ht as <-. simpl.
      destruct (Hinv _ _ Ht0) as [Hup Hex]. split; [exact Hup|].
      eapply kept_exists; [apply (step_roomsKept s (e, TimerFires h0))|].
      exact Hex.
    + rewrite lookup_insert_ne in Ht by exact Hne.
      apply lookup_delete_Some in Ht as [_ Ht]. auto.
  - rewrite closeRoomAction_sched in Ht.
    destruct (Js.truthy roomCode); [|auto].
    destruct (Prisma.room_update_inactive _ _ _);
      [apply stop_timers in Ht|]; auto.
Qed.

Lemma run_TimerRooms cmds s : TimerRooms s -> TimerRooms (run cmds s).
Proof.
  revert s. induction cmds as [|ec cmds IH]; intros s H; simpl; [exact H|].
  apply IH, step_TimerRooms, H.
Qed.

Lemma TimerRooms_initial : TimerRooms initialState.
Proof. intros h t. simpl. rewrite lookup_empty. discriminate. Qed.

Lemma step_ConnInv s ec :
  SchedInv (sched s) -> ConnInv s -> ConnInv (step s ec).
Proof.
  intros Hsched Hinv code h Ha.
  destruct ec as [e []]; unfold step in *.
  - rewrite handleJoin_sched in Ha. rewrite handleJoin_connections.
    destruct (Gateway.resolveRoom _ _ _ _) as [[room d1]|]; [|eauto].
    destruct (decide (Js.toUpperCase roomCode = code)) as [<-|Hne].
    + rewrite lookup_insert_eq. eauto.
    + rewrite lookup_insert_ne by exact Hne.
      destruct isAdmin; [rewrite start_other in Ha by exact Hne|]; eauto.
  - rewrite handleLeave_sched in Ha. rewrite handleLeave_connections.
    unfold lastConnection in Ha.
    destruct (roomConnections (gw s) !! Js.toUpperCase roomCode) as [c|]
      eqn:Hc; [|eauto].
    destruct (Nat.eqb _ _).
    + apply stop_active in Ha as [Hne Ha].
      rewrite lookup_delete_ne by congruence. eauto.
    + destruct (decide (Js.toUpperCase roomCode = code)) as [<-|Hne].
      * rewrite lookup_insert_eq. eauto.
      * rewrite lookup_insert_ne by exact Hne. eauto.
  - destruct (handleChatMessage_frame e sid content s) as (Hs & Hc & _).
    rewrite Hs in Ha. rewrite Hc. eauto.
  - destruct (handleManualEvent_frame e sid payload s) as (Hs & Hc).
    rewrite Hs in Ha. rewrite Hc. eauto.
  - eauto.
  - unfold Gateway.handleDisconnect in *.
    destruct (sd_roomCode _) as [roomCode|]; [|eauto].
    destruct (Js.truthy roomCode); [|eauto].
    rewrite handleLeave_sched in Ha. rewrite handleLeave_connections.
    unfold lastConnection in Ha.
    destruct (roomConnections (gw s) !! Js.toUpperCase roomCode) as [c|]
      eqn:Hc; [|eauto].
    destruct (Nat.eqb _ _).
    + apply stop_active in Ha as [Hne Ha].
      rewrite lookup_delete_ne by congruence. eauto.
    + destruct (decide (Js.toUpperCase roomCode = code)) as [<-|Hne].
      * rewrite lookup_insert_eq. eauto.
      * rewrite lookup_insert_ne by exact Hne. eauto.
  - rewrite fireTimer_sched in Ha. rewrite fireTimer_connections.
    destruct (timers (sched s) !! h0) as [t0|] eqn:Ht0; [|eauto].
    unfold Scheduler.tickRearm in Ha. simpl in Ha.
    destruct (decide (timer_room t0 = code)) as [<-|Hne].
    + destruct (Hsched _ _ Ht0) as [Ha0 _]. eauto.
    + rewrite lookup_insert_ne in Ha by exact Hne. eauto.
  - rewrite closeRoomAction_sched in Ha. rewrite closeRoomAction_connections.
    destruct (Js.truthy roomCode); [|eauto].
    destruct (Prisma.room_update_inactive _ _ _);
      [apply stop_active in Ha as [_ Ha]|]; eauto.
Qed.

Lemma run_ConnInv cmds s :
  SchedInv (sched s) -> ConnInv s -> ConnInv (run cmds s).
Proof.
  revert s. induction cmds as [|ec cmds IH]; intros s H1 H2; simpl; [exact H2|].
  apply IH; [apply step_SchedInv, H1 | apply step_ConnInv; assumption].
Qed.

Lemma ConnInv_initial : ConnInv initialState.
Proof. intros code h. simpl. rewrite lookup_empty. discriminate. Qed.

(** X13. A scheduler never runs for nobody or for nothing: in every state
    the process reaches, a room code with a registered scheduler has an entry
    (hence at least one connection) in the connection registry, is in
    normalised case, and resolves to a persisted room. *)
Theorem scheduler_only_for_attended_rooms cmds code h :
  let s := run cmds initialState in
  activeSchedulers (sched s) !! code = Some h ->
  (exists connections,
      roomConnections (gw s) !! code = Some connections /\
      connections <> ∅) /\
  Js.toUpperCase code = code /\
  is_Some (Prisma.room_findUnique code (db s)).
Proof.
  intros s Ha.
  destruct (run_scheduler_maps cmds initialState) as (Hinv & Hreg & _).
  { auto using SchedInv_empty, Registered_empty, DelaysInRange_empty. }
  pose proof (run_ConnInv cmds initialState SchedInv_empty ConnInv_initial)
    as Hconn.
  pose proof (run_TimerRooms cmds _ TimerRooms_initial) as Hrooms.
  pose proof (run_RegInv cmds _ RegInv_initial) as Hne.
  fold s in Hinv, Hreg, Hconn, Hrooms, Hne. split; [|].
  - destruct (Hconn _ _ Ha) as [c Hc]. exists c. split; [exact Hc|].
    eapply Hne, Hc.
  - destruct (Hreg _ _ Ha) as (t & Ht & <-).
    destruct (Hrooms _ _ Ht) as [Hup [rid Hrid]]. split; [exact Hup|].
    unfold roomIdOf in Hrid.
    destruct (Prisma.room_findUnique _ _); [eauto | discriminate].
Qed.

Lemma scheduler_only_for_attended_rooms_witness :
  let cmds := [(env 1, RoomJoin "s1" "abcd1" "FORM1" true);
               (env 2, RoomJoin "s2" "abcd1" "Alice" false);
               (env 3, Disconnect "s1")] in
  let s := run cmds initialState in
  activeSchedulers (sched s) !! "ABCD1" = Some 0 /\
  (exists connections,
      roomConnections (gw s) !! "ABCD1" = Some connections /\
      connections <> ∅) /\
  Js.toUpperCase "ABCD1" = "ABCD1" /\
  is_Some (Prisma.room_findUnique "ABCD1" (db s)).
Proof.
  split; [reflexivity|].
  exact (scheduler_only_for_attended_rooms
           [(env 1, RoomJoin "s1" "abcd1" "FORM1" true);
            (env 2, RoomJoin "s2" "abcd1" "Alice" false);
            (env 3, Disconnect "s1")] "ABCD1" 0 eq_refl).
Defined.

(** X14. A tick is never dropped: in every state the process reaches, a
    pending timeout that fires finds the room of its code, persists exactly
    one CrisisEvent (source SCHEDULER, severity from the pool, not
    acknowledged, triggered now) and its companion Message (type EVENT,
    author "Scheduler"), emits exactly two things, both to the room, and
    re-arms itself under a fresh handle. *)
Theorem tick_always_persists cmds e h t :
  let s := run cmds initialState in
  let s' := fireTimer e h s in
  timers (sched s) !! h = Some t ->
  exists room ev m,
    Prisma.room_findUnique (timer_room t) (db s) = Some room /\
    crisisEvents (db s') = crisisEvents (db s) ++ [ev] /\
    ev_roomId ev = room_id room /\ ev_source ev = SCHEDULER /\
    ev_ackAt ev = None /\ ev_triggeredAt ev = now e /\
    poolSeverity (ev_severity ev) /\
    messages (db s') = messages (db s) ++ [m] /\
    msg_type m = EVENT /\ msg_authorName m = Some "Scheduler" /\
    msg_roomId m = room_id room /\
    (exists created announced,
        outbox (gw s')
        = outbox (gw s)
          ++ [mkEmission (ToRoom (timer_room t)) created;
              mkEmission (ToRoom (timer_room t)) announced]) /\
    emitted (sched s')
    = emitted (sched s) ++ [Scheduler.tickPayload e (timer_room t)] /\
    timers (sched s') !! h = None /\
    activeSchedulers (sched s') !! timer_room t = Some (nextTimer (sched s)) /\
    exists t', timers (sched s') !! nextTimer (sched s) = Some t' /\
               timer_room t' = timer_room t.
Proof.
  intros s s' Ht.
  pose proof (run_TimerRooms cmds _ TimerRooms_initial) as Hrooms.
  pose proof (run_SchedInv cmds initialState SchedInv_empty) as Hinv.
  fold s in Hrooms, Hinv.
  destruct (Hrooms _ _ Ht) as [Hup [rid Hrid]].
  destruct (Hinv _ _ Ht) as [_ Hlt].
  unfold roomIdOf in Hrid.
  destruct (Prisma.room_findUnique (timer_room t) (db s)) as [room|] eqn:Hf;
    [|discriminate].
  pose proof (tick_severity_pool e (timer_room t)) as Hpool.
  unfold s', fireTimer. rewrite Ht. unfold Gateway.onScheduledEvent.
  change (pl_roomCode (Scheduler.tickPayload e (timer_room t)))
    with (timer_room t).
  cbn [db sched gw]. rewrite Hup, Hf.
  assert (Hsched : forall X,
             timers (Scheduler.tickRearm e (timer_room t)
                       (Scheduler.tickEmit h X (sched s))) !! h = None).
  { intros X. unfold Scheduler.tickRearm. simpl.
    rewrite lookup_insert_ne by lia. apply lookup_delete_eq. }
  exists room.
  destruct Hpool as [Hp | [Hp | Hp]]; rewrite Hp; simpl;
    do 2 eexists;
    (split; [reflexivity|]); (split; [reflexivity|]);
    (split; [reflexivity|]); (split; [reflexivity|]);
    (split; [reflexivity|]); (split; [reflexivity|]);
    (split; [unfold poolSeverity; simpl; auto|]);
    (split; [reflexivity|]); (split; [reflexivity|]);
    (split; [reflexivity|]); (split; [reflexivity|]);
    (split; [do 2 eexists; rewrite <- app_assoc; reflexivity|]);
    (split; [reflexivity|]);
    (split; [rewrite lookup_insert_ne by lia; apply lookup_delete_eq|]);
    (split; [apply lookup_insert_eq|]);
    eexists; (split; [apply lookup_insert_eq | reflexivity]).
Qed.

Lemma tick_always_persists_witness :
  let cmds := [(env 1, RoomJoin "s1" "ABCD1" "FORM1" true);
               (env 2, CloseRoom 0 "WXYZ2");
               (env 3, RoomJoin "s2" "abcd1" "Alice" false)] in
  let e := mkEnv 4 (2 ^ 52) 9 in
  let t := mkTimer "ABCD1" 15000 in
  let s := run cmds initialState in
  let s' := fireTimer e 0 s in
  timers (sched s) !! 0 = Some t /\
  exists room ev m,
    Prisma.room_findUnique (timer_room t) (db s) = Some room /\
    crisisEvents (db s') = crisisEvents (db s) ++ [ev] /\
    ev_roomId ev = room_id room /\ ev_source ev = SCHEDULER /\
    ev_ackAt ev = None /\ ev_triggeredAt ev = now e /\
    poolSeverity (ev_severity ev) /\
    messages (db s') = messages (db s) ++ [m] /\
    msg_type m = EVENT /\ msg_authorName m = Some "Scheduler" /\
    msg_roomId m = room_id room /\
    (exists created announced,
        outbox (gw s')
        = outbox (gw s)
          ++ [mkEmission (ToRoom (timer_room t)) created;
              mkEmission (ToRoom (timer_room t)) announced]) /\
    emitted (sched s')
    = emitted (sched s) ++ [Scheduler.tickPayload e (timer_room t)] /\
    timers (sched s') !! 0 = None /\
    activeSchedulers (sched s') !! timer_room t = Some (nextTimer (sched s)) /\
    exists t', timers (sched s') !! nextTimer (sched s) = Some t' /\
               timer_room t' = timer_room t.
Proof.
  split; [reflexivity|].
  exact (tick_always_persists
           [(env 1, RoomJoin "s1" "ABCD1" "FORM1" true);
            (env 2, CloseRoom 0 "WXYZ2");
            (env 3, RoomJoin "s2" "abcd1" "Alice" false)]
           (mkEnv 4 (2 ^ 52) 9) 0 (mkTimer "ABCD1" 15000) eq_refl).
Defined.

(** ** Participant rows: roles and presence *)

Lemma rowOk_reconnect role p :
  role = Some "formateur" \/ role = Some "participant" ->
  rowOk (Prisma.reconnect role p).
Proof. unfold rowOk. simpl. tauto. Qed.

Lemma rowOk_disconnect t p : rowOk p -> rowOk (Prisma.disconnect t p).
Proof.
  unfold rowOk. simpl. intros [Hr _]. split; [exact Hr|].
  split; discriminate.
Qed.

Lemma Forall_rowOk_map (g : Participant -> Participant) l :
  Forall rowOk l -> (forall p, rowOk p -> rowOk (g p)) ->
  Forall rowOk (List.map g l).
Proof.
  intros Hl Hg. induction Hl; simpl; constructor; auto.
Qed.

Lemma upsert_rowOk e roomId displayName isAdmin d :
  Forall rowOk (participants d) ->
  Forall rowOk
    (participants
       (snd (Gateway.upsertParticipant e roomId displayName isAdmin d))).
Proof.
  intros Hall. unfold Gateway.upsertParticipant. rewrite findFirst_is_find.
  destruct (List.find _ (participants d)) as [ex|] eqn:Hf; simpl.
  - apply find_Some_holds in Hf as [_ Hex].
    rewrite Forall_forall in Hall.
    destruct (Hall ex (proj2 (list_elem_of_In _ _) Hex)) as [Hrole _].
    apply Forall_rowOk_map; [apply Forall_forall, Hall|].
    intros p Hp. destruct (Nat.eqb _ _); [|exact Hp].
    apply rowOk_reconnect. destruct isAdmin; auto.
  - apply Forall_app. split; [exact Hall|]. apply Forall_singleton.
    unfold rowOk. simpl. destruct isAdmin; tauto.
Qed.

Lemma handleChatMessage_participants e sid content s :
  participants (db (Gateway.handleChatMessage e sid content s))
  = participants (db s).
Proof.
  unfold Gateway.handleChatMessage. cbv zeta. handler_cases; reflexivity.
Qed.

Lemma handleManualEvent_participants e sid payload s :
  participants (db (Gateway.handleManualEvent e sid payload s))
  = participants (db s).
Proof.
  unfold Gateway.handleManualEvent. cbv zeta. handler_cases; reflexivity.
Qed.

Lemma fireTimer_participants e h s :
  participants (db (fireTimer e h s)) = participants (db s).
Proof.
  unfold fireTimer. destruct (timers _ !! h) as [t|]; [|reflexivity]. simpl.
  unfold Gateway.onScheduledEvent. handler_cases; reflexivity.
Qed.

Lemma step_rowOk s ec :
  Forall rowOk (participants (db s)) ->
  Forall rowOk (participants (db (step s ec))).
Proof.
  intros Hall. destruct ec as [e []]; unfold step.
  - rewrite handleJoin_db.
    destruct (Gateway.resolveRoom _ _ _ _) as [[room d1]|] eqn:Hr;
      [|exact Hall].
    apply upsert_rowOk.
    rewrite (resolveRoom_participants _ _ _ _ _ _ Hr). exact Hall.
  - rewrite handleLeave_db. destruct (sd_participantId _); [|exact Hall].
    simpl. apply Forall_rowOk_map; [exact Hall|].
    intros p Hp. destruct (Nat.eqb _ _); auto using rowOk_disconnect.
  - rewrite handleChatMessage_participants. exact Hall.
  - rewrite handleManualEvent_participants. exact Hall.
  - exact Hall.
  - unfold Gateway.handleDisconnect.
    destruct (sd_roomCode _) as [c|]; [destruct (Js.truthy c)|]; auto.
    rewrite handleLeave_db. destruct (sd_participantId _); [|exact Hall].
    simpl. apply Forall_rowOk_map; [exact Hall|].
    intros p Hp. destruct (Nat.eqb _ _); auto using rowOk_disconnect.
  - rewrite fireTimer_participants. exact Hall.
  - unfold closeRoomAction, Prisma.room_update_inactive.
    destruct (negb _); [exact Hall|].
    destruct (List.find _ (rooms (db s))); [|exact Hall]. simpl.
    apply Forall_rowOk_map; [exact Hall|].
    intros p Hp. destruct (_ && _); auto using rowOk_disconnect.
Qed.

Lemma run_rowOk cmds s :
  Forall rowOk (participants (db s)) ->
  Forall rowOk (participants (db (run cmds s))).
Proof.
  revert s. induction cmds as [|ec cmds IH]; intros s H; simpl; [exact H|].
  apply IH, step_rowOk, H.
Qed.

(** X15. In every state the process reaches, a participant's stored role is
    "formateur" or "participant", nothing else; the view broadcast for the
    row carries that role and flags it as admin exactly when the role is
    "formateur"; and the row is connected exactly when it has no leave
    time. *)
Theorem participant_rows_well_formed cmds p :
  In p (participants (db (run cmds initialState))) ->
  (part_role p = Some "formateur" \/ part_role p = Some "participant") /\
  Some (pv_role (Gateway.viewOf p)) = part_role p /\
  (pv_isAdmin (Gateway.viewOf p) = true <-> part_role p = Some "formateur") /\
  (part_isConnected p = true <-> part_leftAt p = None).
Proof.
  intros Hin.
  pose proof (run_rowOk cmds initialState (List.Forall_nil _)) as Hall.
  rewrite Forall_forall in Hall.
  destruct (Hall p (proj2 (list_elem_of_In _ _) Hin)) as [Hrole Hpres].
  split; [exact Hrole|]. split; [|split; [|exact Hpres]];
    unfold Gateway.viewOf; simpl;
    destruct Hrole as [-> | ->]; simpl; try reflexivity;
    split; congruence.
Qed.

Lemma participant_rows_well_formed_witness :
  let cmds := [(env 1, RoomJoin "s1" "ABCD1" "FORM1" true);
               (env 2, RoomJoin "s2" "ABCD1" "Alice" false);
               (env 3, Disconnect "s2")] in
  let p := mkParticipant 2 0 "Alice" (Some "participant") false 2 (Some 3) in
  In p (participants (db (run cmds initialState))) /\
  (part_role p = Some "formateur" \/ part_role p = Some "participant") /\
  Some (pv_role (Gateway.viewOf p)) = part_role p /\
  (pv_isAdmin (Gateway.viewOf p) = true <-> part_role p = Some "formateur") /\
  (part_isConnected p = true <-> part_leftAt p = None).
Proof.
  assert (Hin : In (mkParticipant 2 0 "Alice" (Some "participant") false 2
                      (Some 3))
                   (participants
                      (db (run [(env 1, RoomJoin "s1" "ABCD1" "FORM1" true);
                                (env 2, RoomJoin "s2" "ABCD1" "Alice" false);
                                (env 3, Disconnect "s2")] initialState))))
    by (right; left; reflexivity).
  split; [exact Hin|].
  exact (participant_rows_well_formed _ _ Hin).
Defined.

(** ** Chat *)

Lemma trimStart_empty s : Js.trimStart s = "" <-> allSpaces s = true.
Proof.
  induction s as [|c s IH]; simpl; [tauto|].
  destruct (Js.isSpace c); simpl; [exact IH|]. split; discriminate.
Qed.

Lemma trimEnd_empty s : Js.trimEnd s = "" <-> allSpaces s = true.
Proof.
  induction s as [|c s IH]; simpl; [tauto|].
  destruct (Js.trimEnd s) as [|c' r].
  - destruct (Js.isSpace c); simpl; [tauto|]. split; discriminate.
  - destruct (Js.isSpace c); simpl; split; try discriminate.
    intros H. apply IH in H. discriminate.
Qed.

Lemma allSpaces_noLeadingSpace s :
  allSpaces s = true -> noLeadingSpace s -> s = "".
Proof.
  destruct s as [|c s]; simpl; [auto|].
  intros H Hc. rewrite Hc in H. discriminate.
Qed.

Lemma trim_empty s : Js.trim s = "" <-> allSpaces s = true.
Proof.
  unfold Js.trim. split.
  - intros H. apply trimEnd_empty in H. apply trimStart_empty.
    apply allSpaces_noLeadingSpace;
      [exact H | apply trimStart_noLeadingSpace].
  - intros H. apply trimStart_empty in H. rewrite H. reflexivity.
Qed.

Lemma truthy_trim content :
  Js.truthy (Js.trim content) = negb (allSpaces content).
Proof.
  destruct (allSpaces content) eqn:Ha.
  - apply trim_empty in Ha. rewrite Ha. reflexivity.
  - destruct (Js.trim content) eqn:Ht; [|reflexivity].
    apply trim_empty in Ht. congruence.
Qed.

Lemma chat_effects e sid content s roomId roomCode :
  sd_roomId (Gateway.dataOf sid (gw s)) = Some roomId ->
  sd_roomCode (Gateway.dataOf sid (gw s)) = Some roomCode ->
  Js.truthy roomCode = true ->
  Gateway.handleChatMessage e sid content s
  = if allSpaces content then s
    else
      mkState
        (mkDb (rooms (db s)) (participants (db s))
           (messages (db s)
            ++ [mkMessage (nextId (db s)) roomId
                  (sd_displayName (Gateway.dataOf sid (gw s))) CHAT
                  (Js.trim content) None (now e)])
           (crisisEvents (db s)) (S (nextId (db s))))
        (sched s)
        (Gateway.emit (ToRoom roomCode)
           (ChatMessage (nextId (db s))
              (default "Anonyme" (sd_displayName (Gateway.dataOf sid (gw s))))
              (Js.trim content) (now e))
           (gw s)).
Proof.
  intros Hid Hcode Ht. unfold Gateway.handleChatMessage. cbv zeta.
  rewrite Hid, Hcode, Ht, truthy_trim. simpl.
  destruct (allSpaces content); reflexivity.
Qed.

(** X16. A chat from a joined socket: content made of white space only (or
    empty) changes nothing at all, no message and no emission; any other
    content persists exactly one message of type CHAT in the socket's room,
    with the trimmed content and the socket's display name, and emits it
    once, to the room recorded in [socket.data] (the room code of the payload
    is not read); nothing else changes. *)
Theorem chat_blank_ignored_else_persisted e sid content s roomId roomCode :
  sd_roomId (Gateway.dataOf sid (gw s)) = Some roomId ->
  sd_roomCode (Gateway.dataOf sid (gw s)) = Some roomCode ->
  Js.truthy roomCode = true ->
  let s' := Gateway.handleChatMessage e sid content s in
  let author := sd_displayName (Gateway.dataOf sid (gw s)) in
  (allSpaces content = true -> s' = s) /\
  (allSpaces content = false ->
   messages (db s')
   = messages (db s)
     ++ [mkMessage (nextId (db s)) roomId author CHAT (Js.trim content) None
           (now e)] /\
   outbox (gw s')
   = outbox (gw s)
     ++ [mkEmission (ToRoom roomCode)
           (ChatMessage (nextId (db s)) (default "Anonyme" author)
              (Js.trim content) (now e))] /\
   rooms (db s') = rooms (db s) /\
   participants (db s') = participants (db s) /\
   crisisEvents (db s') = crisisEvents (db s) /\
   sched s' = sched s /\
   roomConnections (gw s') = roomConnections (gw s) /\
   socketData (gw s') = socketData (gw s)).
Proof.
  intros Hid Hcode Ht. cbv zeta.
  rewrite (chat_effects e sid content s roomId roomCode Hid Hcode Ht).
  split; intros ->; [reflexivity|]. simpl. auto 10.
Qed.

Lemma chat_blank_ignored_else_persisted_witness :
  let s := run [(env 1, RoomJoin "s1" "ABCD1" "FORM1" true)] initialState in
  let s' := Gateway.handleChatMessage (env 2) "s1" "  bonjour " s in
  let author := sd_displayName (Gateway.dataOf "s1" (gw s)) in
  sd_roomId (Gateway.dataOf "s1" (gw s)) = Some 0 /\
  sd_roomCode (Gateway.dataOf "s1" (gw s)) = Some "ABCD1" /\
  Js.truthy "ABCD1" = true /\ allSpaces "  bonjour " = false /\
  messages (db s')
  = messages (db s)
    ++ [mkMessage (nextId (db s)) 0 author CHAT (Js.trim "  bonjour ") None
          (now (env 2))] /\
  outbox (gw s')
  = outbox (gw s)
    ++ [mkEmission (ToRoom "ABCD1")
          (ChatMessage (nextId (db s)) (default "Anonyme" author)
             (Js.trim "  bonjour ") (now (env 2)))] /\
  rooms (db s') = rooms (db s) /\
  participants (db s') = participants (db s) /\
  crisisEvents (db s') = crisisEvents (db s) /\
  sched s' = sched s /\
  roomConnections (gw s') = roomConnections (gw s) /\
  socketData (gw s') = socketData (gw s).
Proof.
  split; [reflexivity|]. split; [reflexivity|]. split; [reflexivity|].
  split; [reflexivity|].
  exact (proj2 (chat_blank_ignored_else_persisted (env 2) "s1" "  bonjour "
                  (run [(env 1, RoomJoin "s1" "ABCD1" "FORM1" true)]
                     initialState) 0 "ABCD1" eq_refl eq_refl eq_refl)
           eq_refl).
Defined.

Lemma handleLeave_socketData e sid roomCode s :
  socketData (gw (Gateway.handleLeave e sid roomCode s)) = socketData (gw s).
Proof.
  unfold Gateway.handleLeave, Gateway.broadcastParticipants.
  destruct (roomConnections (Gateway.socketLeave sid _ (gw s)) !! _) as [c|];
    [destruct (Nat.eqb _ _)|];
    destruct (sd_roomId _), (sd_displayName _) as [name|];
    try destruct (Js.truthy name); reflexivity.
Qed.

Lemma handleDisconnect_socketData e sid s :
  socketData (gw (Gateway.handleDisconnect e sid s)) = socketData (gw s).
Proof.
  unfold Gateway.handleDisconnect.
  destruct (sd_roomCode _) as [c|]; [destruct (Js.truthy c)|];
    auto using handleLeave_socketData.
Qed.

(** X17. Leaving does not unbind the socket: [handleLeave] (and the
    disconnect handler) never touch [socket.data], so a socket that has left
    its room is still bound to it, and a chat it sends afterwards is
    persisted in that room and emitted to it like before. *)
Theorem left_socket_still_bound e1 e2 sid leaveCode content s roomId roomCode :
  sd_roomId (Gateway.dataOf sid (gw s)) = Some roomId ->
  sd_roomCode (Gateway.dataOf sid (gw s)) = Some roomCode ->
  Js.truthy roomCode = true ->
  allSpaces content = false ->
  let s1 := Gateway.handleLeave e1 sid leaveCode s in
  let s2 := Gateway.handleChatMessage e2 sid content s1 in
  socketData (gw s1) = socketData (gw s) /\
  socketData (gw (Gateway.handleDisconnect e1 sid s)) = socketData (gw s) /\
  (exists m,
      messages (db s2) = messages (db s1) ++ [m] /\
      msg_roomId m = roomId /\ msg_type m = CHAT /\
      msg_content m = Js.trim content) /\
  (exists id author,
      outbox (gw s2)
      = outbox (gw s1)
        ++ [mkEmission (ToRoom roomCode)
              (ChatMessage id author (Js.trim content) (now e2))]).
Proof.
  intros Hid Hcode Ht Hc s1 s2.
  pose proof (handleLeave_socketData e1 sid leaveCode s) as Hdata.
  fold s1 in Hdata.
  split; [exact Hdata|]. split; [apply handleDisconnect_socketData|].
  assert (Hd : Gateway.dataOf sid (gw s1) = Gateway.dataOf sid (gw s)).
  { unfold Gateway.dataOf. rewrite Hdata. reflexivity. }
  unfold s2. rewrite (chat_effects e2 sid content s1 roomId roomCode);
    rewrite ?Hd; auto.
  rewrite Hc. simpl. eauto 10.
Qed.

Lemma left_socket_still_bound_witness :
  let s := run [(env 1, RoomJoin "s1" "ABCD1" "FORM1" true);
                (env 2, RoomJoin "s2" "ABCD1" "Alice" false)] initialState in
  let s1 := Gateway.handleLeave (env 3) "s2" "abcd1" s in
  let s2 := Gateway.handleChatMessage (env 4) "s2" "encore moi" s1 in
  sd_roomId (Gateway.dataOf "s2" (gw s)) = Some 0 /\
  sd_roomCode (Gateway.dataOf "s2" (gw s)) = Some "ABCD1" /\
  Js.truthy "ABCD1" = true /\ allSpaces "encore moi" = false /\
  roomConnections (gw s1) !! "ABCD1" = Some {[ "s1" ]} /\
  socketData (gw s1) = socketData (gw s) /\
  socketData (gw (Gateway.handleDisconnect (env 3) "s2" s))
  = socketData (gw s) /\
  (exists m,
      messages (db s2) = messages (db s1) ++ [m] /\
      msg_roomId m = 0 /\ msg_type m = CHAT /\
      msg_content m = Js.trim "encore moi") /\
  (exists id author,
      outbox (gw s2)
      = outbox (gw s1)
        ++ [mkEmission (ToRoom "ABCD1")
              (ChatMessage id author (Js.trim "encore moi") (now (env 4)))]).
Proof.
  split; [reflexivity|]. split; [reflexivity|]. split; [reflexivity|].
  split; [reflexivity|]. split; [reflexivity|].
  exact (left_socket_still_bound (env 3) (env 4) "s2" "abcd1" "encore moi"
           (run [(env 1, RoomJoin "s1" "ABCD1" "FORM1" true);
                 (env 2, RoomJoin "s2" "ABCD1" "Alice" false)] initialState)
           0 "ABCD1" eq_refl eq_refl eq_refl eq_refl).
Defined.

(** ** Joining and leaving *)

Lemma handleJoin_success e sid roomCode displayName isAdmin s room d1 :
  Gateway.resolveRoom e (Js.toUpperCase roomCode) isAdmin (db s)
  = Some (room, d1) ->
  let code := Js.toUpperCase roomCode in
  let up := Gateway.upsertParticipant e (room_id room) displayName isAdmin d1 in
  Gateway.handleJoin e sid roomCode displayName isAdmin s
  = mkState (snd up)
      (if isAdmin
       then Scheduler.startRoomScheduler (rnd1 e) code (sched s)
       else sched s)
      (mkGateway
         (<[code := default ∅ (roomConnections (gw s) !! code) ∪ {[sid]}]>
            (roomConnections (gw s)))
         (<[sid := mkSocketData (Some code) (Some (room_id room))
                     (Some (part_id (fst up)))
                     (Some (part_displayName (fst up))) (Some isAdmin)]>
            (socketData (gw s)))
         (<[sid := default ∅ (socketRooms (gw s) !! sid) ∪ {[code]}]>
            (socketRooms (gw s)))
         (outbox (gw s)
          ++ [mkEmission (ToRoom code)
                (ParticipantUpdate
                   (List.map Gateway.viewOf
                      (Prisma.participant_findMany (room_id room) (snd up))));
              mkEmission (ToRoom code)
                (SystemAnnouncement
                   (part_displayName (fst up) ++ " a rejoint la salle" ++
                    (if isAdmin then " (formateur)" else "") ++ ".")%string)])).
Proof.
  intros Hr. cbv zeta. unfold Gateway.handleJoin. rewrite Hr.
  destruct (Gateway.upsertParticipant _ _ _ _ _) as [participant d2]. simpl.
  unfold Gateway.broadcastParticipants, Gateway.emit. simpl.
  rewrite <- app_assoc. reflexivity.
Qed.

Lemma handleJoin_failure e sid roomCode displayName isAdmin s :
  Gateway.resolveRoom e (Js.toUpperCase roomCode) isAdmin (db s) = None ->
  socketData (gw (Gateway.handleJoin e sid roomCode displayName isAdmin s))
  = socketData (gw s).
Proof. intros Hr. unfold Gateway.handleJoin. rewrite Hr. reflexivity. Qed.

Lemma handleChatMessage_socketData e sid content s :
  socketData (gw (Gateway.handleChatMessage e sid content s))
  = socketData (gw s).
Proof.
  unfold Gateway.handleChatMessage. cbv zeta. handler_cases; reflexivity.
Qed.

Lemma handleManualEvent_socketData e sid payload s :
  socketData (gw (Gateway.handleManualEvent e sid payload s))
  = socketData (gw s).
Proof.
  unfold Gateway.handleManualEvent. cbv zeta. handler_cases; reflexivity.
Qed.

Lemma fireTimer_socketData e h s :
  socketData (gw (fireTimer e h s)) = socketData (gw s).
Proof.
  unfold fireTimer. destruct (timers _ !! h) as [t|]; [|reflexivity]. simpl.
  unfold Gateway.onScheduledEvent. handler_cases; reflexivity.
Qed.

Lemma closeRoomAction_socketData e roomId roomCode s :
  socketData (gw (closeRoomAction e roomId roomCode s)) = socketData (gw s).
Proof. unfold closeRoomAction. handler_cases; reflexivity. Qed.

Lemma MemberInv_leave e sid roomCode s :
  MemberInv (gw s) -> MemberInv (gw (Gateway.handleLeave e sid roomCode s)).
Proof.
  intros Hinv code c x. rewrite handleLeave_socketData, handleLeave_connections.
  destruct (roomConnections (gw s) !! Js.toUpperCase roomCode) as [c0|] eqn:Hc;
    [|apply Hinv].
  destruct (Nat.eqb _ _).
  - intros Hl. apply lookup_delete_Some in Hl as [_ Hl]. eapply Hinv, Hl.
  - destruct (decide (Js.toUpperCase roomCode = code)) as [<-|Hne].
    + rewrite lookup_insert_eq. intros [= <-] Hx.
      apply elem_of_difference in Hx as [Hx _]. eapply Hinv; eauto.
    + rewrite lookup_insert_ne by exact Hne. apply Hinv.
Qed.

Lemma step_MemberInv s ec : MemberInv (gw s) -> MemberInv (gw (step s ec)).
Proof.
  intros Hinv. destruct ec as [e []]; unfold step.
  - destruct (Gateway.resolveRoom e (Js.toUpperCase roomCode) isAdmin (db s))
      as [[room d1]|] eqn:Hr.
    + rewrite (handleJoin_success _ _ _ _ _ _ _ _ Hr).
      intros code c x Hc Hx. cbn [socketData roomConnections gw] in Hc |- *.
      destruct (decide (sid = x)) as [Heq|Hsid];
        [subst x; rewrite lookup_insert_eq; eauto|].
      rewrite lookup_insert_ne by exact Hsid.
      destruct (decide (Js.toUpperCase roomCode = code)) as [<-|Hne].
      * rewrite lookup_insert_eq in Hc. injection Hc as <-.
        apply elem_of_union in Hx as [Hx|Hx].
        -- destruct (roomConnections (gw s) !! Js.toUpperCase roomCode)
             as [c0|] eqn:Hc0; simpl in Hx.
           ++ eapply Hinv; eauto.
           ++ apply not_elem_of_empty in Hx. destruct Hx.
        -- apply elem_of_singleton in Hx. congruence.
      * rewrite lookup_insert_ne in Hc by exact Hne. eapply Hinv; eauto.
    + intros code c x.
      rewrite handleJoin_failure, handleJoin_connections, Hr by exact Hr.
      apply Hinv.
  - apply MemberInv_leave, Hinv.
  - intros code c x.
    rewrite handleChatMessage_socketData,
      (proj1 (proj2 (handleChatMessage_frame e sid content s))).
    apply Hinv.
  - intros code c x.
    rewrite handleManualEvent_socketData,
      (proj2 (handleManualEvent_frame e sid payload s)).
    apply Hinv.
  - exact Hinv.
  - unfold Gateway.handleDisconnect.
    destruct (sd_roomCode _) as [c|]; [destruct (Js.truthy c)|];
      auto using MemberInv_leave.
  - intros code c x. rewrite fireTimer_socketData, fireTimer_connections.
    apply Hinv.
  - intros code c x.
    rewrite closeRoomAction_socketData, closeRoomAction_connections.
    apply Hinv.
Qed.

Lemma run_MemberInv cmds s : MemberInv (gw s) -> MemberInv (gw (run cmds s)).
Proof.
  revert s. induction cmds as [|ec cmds IH]; intros s H; simpl; [exact H|].
  apply IH, step_MemberInv, H.
Qed.

Lemma MemberInv_initial : MemberInv (gw initialState).
Proof. intros code c x. simpl. rewrite lookup_empty. discriminate. Qed.

(** X18. Leave and disconnect from a socket that never joined are no-ops:
    in every state the process reaches, they change nothing in the store,
    the scheduler, the connection registry or the sockets' data, and emit
    nothing, whatever room code the leave names; in particular such a socket
    cannot evict the connections of a room or stop its scheduler. *)
Theorem unjoined_leave_is_noop cmds e sid roomCode :
  let s := run cmds initialState in
  let s' := Gateway.handleLeave e sid roomCode s in
  unjoined sid s ->
  db s' = db s /\ sched s' = sched s /\
  roomConnections (gw s') = roomConnections (gw s) /\
  socketData (gw s') = socketData (gw s) /\
  outbox (gw s') = outbox (gw s) /\
  Gateway.handleDisconnect e sid s = s.
Proof.
  intros s s' Hun. unfold unjoined in Hun.
  pose proof (run_MemberInv cmds _ MemberInv_initial) as Hmem.
  pose proof (run_RegInv cmds _ RegInv_initial) as Hreg.
  fold s in Hmem, Hreg.
  assert (Hd : Gateway.dataOf sid (gw s) = freshSocketData).
  { unfold Gateway.dataOf. rewrite Hun. reflexivity. }
  assert (Hnot : forall c, roomConnections (gw s) !! Js.toUpperCase roomCode
                           = Some c -> c ∖ {[sid]} = c).
  { intros c Hc. apply set_eq. intros x. rewrite elem_of_difference.
    split; [tauto|]. intros Hx. split; [exact Hx|].
    rewrite elem_of_singleton. intros ->.
    destruct (Hmem _ _ _ Hc Hx) as [sd Hsd]. congruence. }
  assert (Hrc : roomConnections (gw s') = roomConnections (gw s)).
  { unfold s'. rewrite handleLeave_connections.
    destruct (roomConnections (gw s) !! Js.toUpperCase roomCode) as [c|]
      eqn:Hc; [|reflexivity].
    rewrite (Hnot c eq_refl).
    destruct (Nat.eqb (size c) 0) eqn:Hsize.
    - apply Nat.eqb_eq, size_empty_inv, leibniz_equiv in Hsize.
      destruct (Hreg _ _ Hc Hsize).
    - apply insert_id, Hc. }
  assert (Hsc : sched s' = sched s).
  { unfold s'. rewrite handleLeave_sched. unfold lastConnection.
    destruct (roomConnections (gw s) !! Js.toUpperCase roomCode) as [c|]
      eqn:Hc; [|reflexivity].
    rewrite (Hnot c eq_refl).
    destruct (Nat.eqb (size c) 0) eqn:Hsize; [|reflexivity].
    apply Nat.eqb_eq, size_empty_inv, leibniz_equiv in Hsize.
    destruct (Hreg _ _ Hc Hsize). }
  split; [unfold s'; rewrite handleLeave_db, Hd; reflexivity|].
  split; [exact Hsc|]. split; [exact Hrc|].
  split; [apply handleLeave_socketData|]. split.
  - unfold s', Gateway.handleLeave. rewrite Hd.
    cbn [sd_participantId sd_roomId sd_displayName freshSocketData].
    destruct (roomConnections
                (Gateway.socketLeave sid (Js.toUpperCase roomCode) (gw s))
              !! Js.toUpperCase roomCode)
      as [c|]; [destruct (Nat.eqb _ _)|]; reflexivity.
  - unfold Gateway.handleDisconnect. rewrite Hd. reflexivity.
Qed.

Lemma unjoined_leave_is_noop_witness :
  let cmds := [(env 1, RoomJoin "s1" "ABCD1" "FORM1" true)] in
  let s := run cmds initialState in
  let s' := Gateway.handleLeave (env 2) "s9" "abcd1" s in
  unjoined "s9" s /\
  db s' = db s /\ sched s' = sched s /\
  roomConnections (gw s') = roomConnections (gw s) /\
  socketData (gw s') = socketData (gw s) /\
  outbox (gw s') = outbox (gw s) /\
  Gateway.handleDisconnect (env 2) "s9" s = s.
Proof.
  split; [reflexivity|].
  exact (unjoined_leave_is_noop
           [(env 1, RoomJoin "s1" "ABCD1" "FORM1" true)] (env 2) "s9" "abcd1"
           eq_refl).
Defined.

(** ** The participant list that is broadcast *)

Lemma insertByJoinedAt_perm p l :
  Permutation (Prisma.insertByJoinedAt p l) (p :: l).
Proof.
  induction l as [|q l IH]; simpl; [reflexivity|].
  destruct (_ <? _)%nat; [reflexivity|].
  rewrite IH. apply perm_swap.
Qed.

Lemma insertByJoinedAt_sorted p l :
  StronglySorted joinedBefore l ->
  StronglySorted joinedBefore (Prisma.insertByJoinedAt p l).
Proof.
  induction 1 as [|q l Hl IH Hq]; simpl.
  - repeat constructor.
  - destruct (part_joinedAt p <? part_joinedAt q)%nat eqn:Hlt.
    + apply Nat.ltb_lt in Hlt. constructor; [constructor; assumption|].
      constructor; [unfold joinedBefore; lia|].
      eapply Forall_impl; [exact Hq|]. unfold joinedBefore. intros; lia.
    + apply Nat.ltb_ge in Hlt. constructor; [exact IH|].
      rewrite (insertByJoinedAt_perm p l). constructor; assumption.
Qed.

Lemma sortByJoinedAt_fold l acc :
  StronglySorted joinedBefore acc ->
  let r := List.fold_left (fun acc p => Prisma.insertByJoinedAt p acc) l acc in
  StronglySorted joinedBefore r /\ Permutation r (acc ++ l).
Proof.
  revert acc. induction l as [|p l IH]; intros acc Hacc; simpl.
  - rewrite app_nil_r. auto.
  - destruct (IH _ (insertByJoinedAt_sorted p acc Hacc)) as [Hs Hp].
    split; [exact Hs|]. rewrite Hp, insertByJoinedAt_perm. simpl.
    apply Permutation_middle.
Qed.

Lemma broadcast_list_members roomId d :
  let found := Prisma.participant_findMany roomId d in
  StronglySorted joinedBefore found /\
  Permutation found
    (List.filter (fun p => Nat.eqb (part_roomId p) roomId) (participants d)) /\
  (forall p, In p found <-> In p (participants d) /\ part_roomId p = roomId).
Proof.
  cbv zeta. unfold Prisma.participant_findMany, Prisma.sortByJoinedAt.
  destruct (sortByJoinedAt_fold
              (List.filter (fun p => Nat.eqb (part_roomId p) roomId)
                 (participants d)) [] (SSorted_nil _)) as [Hs Hp].
  cbv zeta in Hs, Hp. simpl in Hp.
  split; [exact Hs|]. split; [exact Hp|].
  intros p. rewrite <- !list_elem_of_In, Hp, list_elem_of_In, filter_In.
  rewrite Nat.eqb_eq, list_elem_of_In. reflexivity.
Qed.

(** X19. The participant list of a room, as [broadcastParticipants] queries
    and emits it, is in ascending order of join time and holds exactly the
    participant rows of that room, each as often as in the table; the
    emission carries one view per row, in that order, and goes to the
    room. *)
Theorem broadcast_list_sorted_and_complete roomCode roomId d g :
  let found := Prisma.participant_findMany roomId d in
  StronglySorted joinedBefore found /\
  Permutation found
    (List.filter (fun p => Nat.eqb (part_roomId p) roomId) (participants d)) /\
  (forall p, In p found <-> In p (participants d) /\ part_roomId p = roomId) /\
  outbox (Gateway.broadcastParticipants roomCode roomId d g)
  = outbox g
    ++ [mkEmission (ToRoom roomCode)
          (ParticipantUpdate (List.map Gateway.viewOf found))].
Proof.
  destruct (broadcast_list_members roomId d) as (Hs & Hp & Hin).
  cbv zeta. auto.
Qed.

Lemma upsert_fst_row e roomId displayName isAdmin d :
  NoDup (List.map keyOf (participants d)) ->
  let up := Gateway.upsertParticipant e roomId displayName isAdmin d in
  rowsOf roomId displayName (snd up) = [fst up] /\
  part_displayName (fst up) = displayName /\
  part_roomId (fst up) = roomId /\
  part_isConnected (fst up) = true /\
  part_role (fst up)
  = (if isAdmin then Some "formateur"
     else match Prisma.participant_findFirst roomId displayName d with
          | Some existing => part_role existing
          | None => Some "participant"
          end).
Proof.
  intros Hnd. cbv zeta. unfold Gateway.upsertParticipant.
  rewrite findFirst_is_find.
  destruct (List.find _ (participants d)) as [ex|] eqn:Hf; simpl.
  - pose proof (unique_row _ _ _ _ Hnd Hf) as Hrows.
    apply find_Some_holds in Hf as [Hk _]. apply hasKey_keyOf in Hk.
    injection Hk as Hr Hn.
    unfold rowsOf in *. simpl. rewrite filter_map_stable, Hrows.
    + simpl. rewrite Nat.eqb_refl. destruct isAdmin; auto.
    + intros a. destruct (Nat.eqb _ _); reflexivity.
  - pose proof (find_None_filter _ _ Hf) as Hrows.
    unfold rowsOf in *. simpl. rewrite List.filter_app, Hrows. simpl.
    unfold hasKey at 1. simpl. rewrite Nat.eqb_refl, String.eqb_refl.
    destruct isAdmin; auto.
Qed.

Lemma upsert_fst_in e roomId displayName isAdmin d :
  let up := Gateway.upsertParticipant e roomId displayName isAdmin d in
  In (fst up) (rowsOf roomId displayName (snd up)) /\
  part_displayName (fst up) = displayName /\
  part_roomId (fst up) = roomId /\
  part_isConnected (fst up) = true /\ part_leftAt (fst up) = None.
Proof.
  cbv zeta. unfold Gateway.upsertParticipant. rewrite findFirst_is_find.
  destruct (List.find _ (participants d)) as [ex|] eqn:Hf; simpl.
  - apply find_Some_holds in Hf as [Hk Hin].
    pose proof Hk as Hkey. apply hasKey_keyOf in Hkey.
    injection Hkey as Hr Hn.
    split; [|auto].
    unfold rowsOf. simpl. apply filter_In. split; [|exact Hk].
    apply in_map_iff. exists ex. rewrite Nat.eqb_refl. auto.
  - split; [|auto].
    unfold rowsOf. simpl. apply filter_In. split.
    + apply in_app_iff. right. left. reflexivity.
    + unfold hasKey. simpl. rewrite Nat.eqb_refl, String.eqb_refl. reflexivity.
Qed.

(** X20. A successful join binds the socket. From any state, duplicates of
    the pair included, a join that finds its room (or creates it, for an
    admin) leaves [socket.data] with the normalised room code, the room's
    id, the id of a participant row of the pair, which is connected with
    no leave time, the display name and the admin flag; the socket is in
    the room's entry of the registry; exactly two things are emitted, both
    to the room: the participant list, which contains the joiner's row,
    then the announcement; and the scheduler is registered when the joiner
    is an admin and untouched otherwise. *)
Theorem join_binds_socket e sid roomCode displayName isAdmin s :
  let s' := Gateway.handleJoin e sid roomCode displayName isAdmin s in
  let code := Js.toUpperCase roomCode in
  is_Some (Prisma.room_findUnique code (db s)) \/ isAdmin = true ->
  exists roomId p,
    roomIdOf code (db s') = Some roomId /\
    In p (rowsOf roomId displayName (db s')) /\
    part_isConnected p = true /\ part_leftAt p = None /\
    socketData (gw s') !! sid
    = Some (mkSocketData (Some code) (Some roomId) (Some (part_id p))
              (Some displayName) (Some isAdmin)) /\
    (exists connections,
        roomConnections (gw s') !! code = Some connections /\
        sid ∈ connections) /\
    outbox (gw s')
    = outbox (gw s)
      ++ [mkEmission (ToRoom code)
            (ParticipantUpdate
               (List.map Gateway.viewOf
                  (Prisma.participant_findMany roomId (db s'))));
          mkEmission (ToRoom code)
            (SystemAnnouncement
               (displayName ++ " a rejoint la salle" ++
                (if isAdmin then " (formateur)" else "") ++ ".")%string)] /\
    In p (Prisma.participant_findMany roomId (db s')) /\
    (isAdmin = true -> is_Some (activeSchedulers (sched s') !! code)) /\
    (isAdmin = false -> sched s' = sched s).
Proof.
  intros s' code Hjoin.
  assert (Hres : exists room d1,
             Gateway.resolveRoom e code isAdmin (db s) = Some (room, d1)).
  { unfold Gateway.resolveRoom.
    destruct Hjoin as [[r ->]| ->]; [eauto|].
    destruct (Prisma.room_findUnique _ _); simpl; eauto. }
  destruct Hres as (room & d1 & Hres).
  destruct (upsert_fst_in e (room_id room) displayName isAdmin d1)
    as (Hrow & Hname & Hroom & Hconn & Hleft).
  pose proof (resolveRoom_roomIdOf _ _ _ _ _ _ Hres) as Hid.
  unfold s'. rewrite (handleJoin_success _ _ _ _ _ _ _ _ Hres).
  fold code. cbn [db sched gw socketData roomConnections outbox].
  set (up := Gateway.upsertParticipant e (room_id room) displayName isAdmin d1)
    in *.
  exists (room_id room), (fst up).
  split.
  { unfold roomIdOf, Prisma.room_findUnique in *. unfold up.
    rewrite upsert_rooms. exact Hid. }
  split; [exact Hrow|]. split; [exact Hconn|]. split; [exact Hleft|].
  split; [rewrite lookup_insert_eq, Hname; reflexivity|].
  split.
  { eexists. split; [apply lookup_insert_eq|].
    apply elem_of_union_r, elem_of_singleton. reflexivity. }
  split; [rewrite Hname; reflexivity|]. split.
  { destruct (broadcast_list_members (room_id room) (snd up))
      as (_ & _ & Hmem).
    apply Hmem. apply filter_In in Hrow as [Hin _]. auto. }
  split.
  - intros ->. unfold Scheduler.startRoomScheduler.
    destruct (activeSchedulers (sched s) !! code) eqn:Ha; [rewrite Ha; eauto|].
    simpl. rewrite lookup_insert_eq. eauto.
  - intros ->. reflexivity.
Qed.

Lemma join_binds_socket_witness :
  let s := run [(env 1, RoomJoin "s0" "ABCD1" "FORM1" true)] initialState in
  let s' := Gateway.handleJoin (env 2) "s1" "abcd1" "Alice" false s in
  (is_Some (Prisma.room_findUnique "ABCD1" (db s)) \/ false = true) /\
  exists roomId p,
    roomIdOf "ABCD1" (db s') = Some roomId /\
    In p (rowsOf roomId "Alice" (db s')) /\
    part_isConnected p = true /\ part_leftAt p = None /\
    socketData (gw s') !! "s1"
    = Some (mkSocketData (Some "ABCD1") (Some roomId) (Some (part_id p))
              (Some "Alice") (Some false)) /\
    (exists connections,
        roomConnections (gw s') !! "ABCD1" = Some connections /\
        "s1" ∈ connections) /\
    outbox (gw s')
    = outbox (gw s)
      ++ [mkEmission (ToRoom "ABCD1")
            (ParticipantUpdate
               (List.map Gateway.viewOf
                  (Prisma.participant_findMany roomId (db s'))));
          mkEmission (ToRoom "ABCD1")
            (SystemAnnouncement
               ("Alice" ++ " a rejoint la salle" ++ "" ++ ".")%string)] /\
    In p (Prisma.participant_findMany roomId (db s')) /\
    (false = true -> is_Some (activeSchedulers (sched s') !! "ABCD1")) /\
    (false = false -> sched s' = sched s).
Proof.
  assert (H : is_Some
                (Prisma.room_findUnique "ABCD1"
                   (db (run [(env 1, RoomJoin "s0" "ABCD1" "FORM1" true)]
                          initialState))) \/ false = true)
    by (left; eexists; reflexivity).
  split; [exact H|].
  exact (join_binds_socket (env 2) "s1" "abcd1" "Alice" false
           (run [(env 1, RoomJoin "s0" "ABCD1" "FORM1" true)] initialState) H).
Defined.

(** ** Closing a room from the admin page *)

Lemma closeRoomAction_noop e roomId roomCode s :
  roomCode = "" \/ (forall r, In r (rooms (db s)) -> room_id r <> roomId) ->
  closeRoomAction e roomId roomCode s = s.
Proof.
  intros [-> | Hnone]; [reflexivity|].
  unfold closeRoomAction, Prisma.room_update_inactive.
  destruct (negb _); [reflexivity|].
  destruct (List.find _ (rooms (db s))) as [r|] eqn:Hf; [|reflexivity].
  apply find_Some_holds in Hf as [Hid Hin]. apply Nat.eqb_eq in Hid.
  destruct (Hnone r Hin Hid).
Qed.

Lemma closeRoomAction_done e roomId roomCode s :
  roomCode <> "" ->
  (exists r, In r (rooms (db s)) /\ room_id r = roomId) ->
  closeRoomAction e roomId roomCode s
  = mkState
      (mkDb (List.map (fun r => if Nat.eqb (room_id r) roomId
                                then Prisma.deactivate (now e) r else r)
               (rooms (db s)))
            (List.map (fun p => if Nat.eqb (part_roomId p) roomId
                                   && part_isConnected p
                                then Prisma.disconnect (now e) p else p)
               (participants (db s)))
            (messages (db s)) (crisisEvents (db s)) (nextId (db s)))
      (Scheduler.stopRoomScheduler (Js.toUpperCase roomCode) (sched s))
      (mkGateway (roomConnections (gw s)) (socketData (gw s))
         ((fun rs : gset string => rs ∖ {[Js.toUpperCase roomCode]})
            <$> socketRooms (gw s))
         (outbox (gw s)
          ++ [mkEmission (ToRoom (Js.toUpperCase roomCode))
                (SystemAnnouncement
                   "Cette salle a été fermée par un administrateur. Vous allez être déconnecté.")])).
Proof.
  intros Hcode (r & Hin & Hid).
  unfold closeRoomAction, Prisma.room_update_inactive.
  destruct roomCode; [congruence|]. cbn [Js.truthy negb].
  destruct (List.find _ (rooms (db s))) as [r0|] eqn:Hf; [reflexivity|].
  exfalso. apply (List.find_none _ _ Hf) in Hin.
  apply Nat.eqb_neq in Hin. auto.
Qed.

Lemma quieter_refl p : quieter p p.
Proof. unfold quieter. auto 10. Qed.

Lemma quieter_trans p q r : quieter p q -> quieter q r -> quieter p r.
Proof.
  intros (A1 & A2 & A3 & A4 & A5 & A6) (B1 & B2 & B3 & B4 & B5 & B6).
  unfold quieter. repeat split; try congruence; auto.
Qed.

Lemma quieter_disconnect t p : quieter p (Prisma.disconnect t p).
Proof. unfold quieter, keyOf. simpl. repeat split; eauto. Qed.

Lemma Forall2_compose {A} (R1 R2 R3 : A -> A -> Prop) l1 l2 l3 :
  (forall a b c, R1 a b -> R2 b c -> R3 a c) ->
  Forall2 R1 l1 l2 -> Forall2 R2 l2 l3 -> Forall2 R3 l1 l3.
Proof.
  intros Hc H1. revert l3.
  induction H1 as [|a b l1 l2 Hab _ IH]; intros l3 H2;
    inversion H2; subst; constructor; eauto.
Qed.

Lemma Forall2_same {A} (R : A -> A -> Prop) l :
  (forall a, R a a) -> Forall2 R l l.
Proof. intros H. induction l; constructor; auto. Qed.

Lemma Forall2_map_r_self {A} (R : A -> A -> Prop) (f : A -> A) l :
  (forall a, R a (f a)) -> Forall2 R l (List.map f l).
Proof. intros H. induction l; simpl; constructor; auto. Qed.

Lemma handleDisconnect_quieter e sid s :
  Forall2 quieter (participants (db s))
    (participants (db (Gateway.handleDisconnect e sid s))).
Proof.
  unfold Gateway.handleDisconnect.
  destruct (sd_roomCode _) as [c|];
    [destruct (Js.truthy c)|]; try apply Forall2_same, quieter_refl.
  rewrite handleLeave_db.
  destruct (sd_participantId _) as [pid|];
    [|apply Forall2_same, quieter_refl].
  simpl. apply Forall2_map_r_self. intros p.
  destruct (Nat.eqb _ _); [apply quieter_disconnect | apply quieter_refl].
Qed.

Lemma stop_only_stops code other h sc :
  activeSchedulers (Scheduler.stopRoomScheduler code sc) !! other = Some h ->
  activeSchedulers sc !! other = Some h.
Proof.
  unfold Scheduler.stopRoomScheduler.
  destruct (activeSchedulers sc !! code); [|auto]. simpl.
  intros H. apply lookup_delete_Some in H as [_ H]. exact H.
Qed.

Lemma closed_then_quieter roomId t a c :
  quieter (if Nat.eqb (part_roomId a) roomId && part_isConnected a
           then Prisma.disconnect t a else a) c ->
  closedRow roomId a c.
Proof.
  unfold quieter, closedRow, keyOf.
  destruct (Nat.eqb (part_roomId a) roomId) eqn:Hr;
    destruct (part_isConnected a) eqn:Hc; simpl;
    intros (Q1 & Q2 & Q3 & Q4 & Q5 & Q6);
    repeat split; auto; try congruence;
    try (apply Nat.eqb_neq in Hr; intros; congruence).
Qed.

Lemma forced_disconnects ds s :
  let s' := run (forcedDisconnects ds) s in
  rooms (db s') = rooms (db s) /\
  messages (db s') = messages (db s) /\
  crisisEvents (db s') = crisisEvents (db s) /\
  Forall2 quieter (participants (db s)) (participants (db s')) /\
  (forall code h, activeSchedulers (sched s') !! code = Some h ->
                  activeSchedulers (sched s) !! code = Some h).
Proof.
  cbv zeta. revert s. induction ds as [|[e sid] ds IH]; intros s.
  - simpl. repeat split; auto. apply Forall2_same, quieter_refl.
  - cbn [forcedDisconnects List.map run List.fold_left fst snd step].
    destruct (IH (Gateway.handleDisconnect e sid s))
      as (Hr & Hm & Hc & Hp & Hs).
    unfold run, forcedDisconnects in *.
    split; [rewrite Hr; apply handleDisconnect_rooms|].
    split; [rewrite Hm; apply handleDisconnect_messages|].
    split; [rewrite Hc; apply handleDisconnect_crisisEvents|].
    split.
    + eapply Forall2_compose;
        [exact quieter_trans | apply handleDisconnect_quieter | exact Hp].
    + intros code h Ha. apply Hs in Ha.
      destruct (handleDisconnect_sched e sid s) as [Heq|[rc Heq]];
        rewrite Heq in Ha; [exact Ha|].
      eapply stop_only_stops, Ha.
Qed.

(** X21. Closing a room, [closeRoomAction], and the disconnections it
    forces. With an empty room code, or an id that no room row has, the
    action changes nothing at all: in particular the room's scheduler keeps
    running. Otherwise, once the action has run, and through the
    [disconnect] listeners of whatever sockets it disconnects, in whatever
    order and at whatever times they run: the room row with this id is
    inactive and every other room row is as before; no participant row is
    added, removed or reconnected, each keeps its id, room, name, role and
    join time, and no row of the room is connected any more, those that
    were having a leave time; messages and events are untouched; the
    scheduler named by the room code, in upper case, is not registered;
    and no scheduler is registered that was not before. *)
Theorem close_room_effects e roomId roomCode s ds :
  let closed := closeRoomAction e roomId roomCode s in
  let s' := run (forcedDisconnects ds) closed in
  let code := Js.toUpperCase roomCode in
  (roomCode = "" \/ (forall r, In r (rooms (db s)) -> room_id r <> roomId) ->
   closed = s) /\
  (roomCode <> "" ->
   (exists r, In r (rooms (db s)) /\ room_id r = roomId) ->
   Forall2 (fun r r' =>
              if Nat.eqb (room_id r) roomId
              then r' = Prisma.deactivate (now e) r else r' = r)
     (rooms (db s)) (rooms (db s')) /\
   (forall r', In r' (rooms (db s')) -> room_id r' = roomId ->
               room_isActive r' = false) /\
   Forall2 (closedRow roomId) (participants (db s)) (participants (db s')) /\
   (forall p', In p' (participants (db s')) -> part_roomId p' = roomId ->
               part_isConnected p' = false) /\
   messages (db s') = messages (db s) /\
   crisisEvents (db s') = crisisEvents (db s) /\
   activeSchedulers (sched s') !! code = None /\
   (forall other h, activeSchedulers (sched s') !! other = Some h ->
                    activeSchedulers (sched s) !! other = Some h)).
Proof.
  cbv zeta. split; [apply closeRoomAction_noop|].
  intros Hcode Hroom.
  destruct (forced_disconnects ds (closeRoomAction e roomId roomCode s))
    as (Hr & Hm & Hc & Hp & Hs).
  cbv zeta in Hr, Hm, Hc, Hp, Hs. revert Hr Hm Hc Hp Hs.
  rewrite (closeRoomAction_done _ _ _ _ Hcode Hroom).
  cbn [db sched gw rooms participants messages crisisEvents].
  intros Hr Hm Hc Hp Hs.
  assert (Hrows : Forall2 (closedRow roomId) (participants (db s))
                    (participants
                       (db (run (forcedDisconnects ds)
                              (closeRoomAction e roomId roomCode s))))).
  { rewrite (closeRoomAction_done _ _ _ _ Hcode Hroom).
    eapply (Forall2_compose
              (fun a b =>
                 b = if Nat.eqb (part_roomId a) roomId && part_isConnected a
                     then Prisma.disconnect (now e) a else a));
      [|apply Forall2_map_r_self; reflexivity|exact Hp].
    intros a b c -> Hq. eapply closed_then_quieter, Hq. }
  rewrite (closeRoomAction_done _ _ _ _ Hcode Hroom) in Hrows.
  split.
  { rewrite Hr. clear.
    induction (rooms (db s)) as [|r l IH]; simpl; constructor; auto.
    destruct (Nat.eqb _ _); reflexivity. }
  split.
  { rewrite Hr. intros r' Hin Hid. apply in_map_iff in Hin as (r & <- & _).
    destruct (Nat.eqb (room_id r) roomId) eqn:Hrid; [reflexivity|].
    apply Nat.eqb_neq in Hrid. congruence. }
  split; [exact Hrows|].
  split.
  { intros p' Hin Hid. clear -Hrows Hin Hid.
    induction Hrows as [|p q l l' Hpq _ IH]; [destruct Hin|].
    destruct Hin as [<-|Hin]; [|auto].
    destruct Hpq as (_ & Hk & _ & _ & _ & Hroom & _).
    apply Hroom. unfold keyOf in Hk. congruence. }
  split; [exact Hm|]. split; [exact Hc|].
  split.
  { destruct (activeSchedulers _ !! Js.toUpperCase roomCode) as [h|] eqn:Ha;
      [|reflexivity].
    apply Hs in Ha. rewrite stop_is_none in Ha. discriminate. }
  intros other h Ha. eapply stop_only_stops, Hs, Ha.
Qed.

Lemma close_room_effects_witness :
  let s := run [(env 1, RoomJoin "s1" "ABCD1" "FORM1" true)] initialState in
  let closed := closeRoomAction (env 2) 0 "abcd1" s in
  let s' := run (forcedDisconnects [(env 3, "s1")]) closed in
  "abcd1" <> "" /\
  (exists r, In r (rooms (db s)) /\ room_id r = 0) /\
  is_Some (activeSchedulers (sched s) !! "ABCD1") /\
  activeSchedulers (sched s') !! "ABCD1" = None /\
  (forall p', In p' (participants (db s')) -> part_roomId p' = 0 ->
              part_isConnected p' = false) /\
  messages (db s') = messages (db s).
Proof.
  assert (Hcode : "abcd1" <> "") by discriminate.
  assert (Hroom : exists r,
             In r (rooms (db (run [(env 1, RoomJoin "s1" "ABCD1" "FORM1" true)]
                                initialState))) /\ room_id r = 0).
  { eexists. split; [left; reflexivity | reflexivity]. }
  destruct (proj2 (close_room_effects (env 2) 0 "abcd1"
                     (run [(env 1, RoomJoin "s1" "ABCD1" "FORM1" true)]
                        initialState) [(env 3, "s1")]) Hcode Hroom)
    as (_ & _ & _ & Hdisc & Hmsg & _ & Hstop & _).
  split; [exact Hcode|]. split; [exact Hroom|].
  split; [vm_compute; eauto|]. split; [exact Hstop|].
  split; [exact Hdisc | exact Hmsg].
Defined.

(** ** What a socket is bound to *)

Lemma boundTo_kept d d' sd :
  grows d d' -> roomsKept d d' -> boundTo d sd -> boundTo d' sd.
Proof.
  intros Hg Hk (code & roomId & p & adm & -> & Hup & Hid & Hin & Hroom).
  destruct (grows_row _ _ _ Hg Hin) as (p' & Hin' & Hi & Hr & Hn & _).
  exists code, roomId, p', adm. rewrite Hi, Hn.
  split; [reflexivity|]. split; [exact Hup|]. split; [apply Hk, Hid|].
  split; [exact Hin' | congruence].
Qed.

Lemma BoundInv_kept s s' :
  DbInv (db s) -> grows (db s) (db s') -> roomsKept (db s) (db s') ->
  socketData (gw s') = socketData (gw s) -> BoundInv s -> BoundInv s'.
Proof.
  intros _ Hg Hk Hsd Hinv sid sd Hl. rewrite Hsd in Hl.
  eapply boundTo_kept; eauto.
Qed.

Lemma step_BoundInv s ec :
  DbInv (db s) -> BoundInv s -> BoundInv (step s ec).
Proof.
  intros Hdb Hinv.
  pose proof (step_grows s ec Hdb) as Hg.
  pose proof (step_roomsKept s ec) as Hk.
  destruct ec as [e []]; unfold step in *;
    try (eapply BoundInv_kept; eauto;
         auto using handleLeave_socketData, handleChatMessage_socketData,
           handleManualEvent_socketData, handleDisconnect_socketData,
           fireTimer_socketData, closeRoomAction_socketData; fail).
  destruct (Gateway.resolveRoom e (Js.toUpperCase roomCode) isAdmin (db s))
    as [[room d1]|] eqn:Hr.
  - intros x sd Hl.
    destruct (decide (sid = x)) as [Heq|Hne].
    + subst x. clear Hg Hk.
      rewrite (handleJoin_success _ _ _ _ _ _ _ _ Hr) in Hl |- *.
      cbn [socketData gw db] in Hl |- *.
      rewrite lookup_insert_eq in Hl. injection Hl as <-.
      pose proof (resolveRoom_participants _ _ _ _ _ _ Hr) as Hp.
      destruct Hdb as (_ & _ & Hkeys). rewrite <- Hp in Hkeys.
      destruct (upsert_fst_row e (room_id room) displayName isAdmin d1 Hkeys)
        as (Hrows & _ & Hroom & _).
      set (up := Gateway.upsertParticipant e (room_id room) displayName
                   isAdmin d1) in *.
      exists (Js.toUpperCase roomCode), (room_id room), (fst up), isAdmin.
      split; [reflexivity|]. split; [apply toUpperCase_idempotent|].
      split.
      { pose proof (resolveRoom_roomIdOf _ _ _ _ _ _ Hr) as Hid.
        unfold roomIdOf, Prisma.room_findUnique in *. unfold up.
        rewrite upsert_rooms. exact Hid. }
      split; [|exact Hroom].
      assert (Hin : In (fst up) (rowsOf (room_id room) displayName (snd up)))
        by (rewrite Hrows; left; reflexivity).
      apply filter_In in Hin as [Hin _]. exact Hin.
    + eapply boundTo_kept; [exact Hg | exact Hk |]. apply (Hinv x).
      rewrite (handleJoin_success _ _ _ _ _ _ _ _ Hr) in Hl.
      cbn [socketData gw] in Hl.
      rewrite lookup_insert_ne in Hl by exact Hne. exact Hl.
  - eapply BoundInv_kept; eauto. apply handleJoin_failure, Hr.
Qed.

Lemma run_BoundInv cmds s :
  DbInv (db s) -> BoundInv s -> BoundInv (run cmds s).
Proof.
  revert s. induction cmds as [|ec cmds IH]; intros s Hdb H; simpl; [exact H|].
  apply IH; [apply step_DbInv, Hdb | apply step_BoundInv; assumption].
Qed.

Lemma BoundInv_initial : BoundInv initialState.
Proof. intros sid sd Hl. simpl in Hl. rewrite lookup_empty in Hl. discriminate. Qed.

(** X22. [socket.data] is all or nothing, and it points at rows that
    exist. In every state the process reaches, the data of a socket is
    either entirely unset (the socket never completed a join) or has all
    five fields set: a room code in upper case that resolves to the
    recorded room id, and the id and display name of a participant row of
    that room that is in the participant table. *)
Theorem socket_data_all_or_nothing cmds sid :
  let s := run cmds initialState in
  let sd := Gateway.dataOf sid (gw s) in
  (unjoined sid s /\ sd = freshSocketData) \/
  exists code roomId p isAdmin,
    sd = mkSocketData (Some code) (Some roomId) (Some (part_id p))
           (Some (part_displayName p)) (Some isAdmin) /\
    Js.toUpperCase code = code /\
    roomIdOf code (db s) = Some roomId /\
    In p (participants (db s)) /\ part_roomId p = roomId.
Proof.
  cbv zeta. unfold unjoined, Gateway.dataOf.
  pose proof (run_BoundInv cmds initialState DbInv_initial BoundInv_initial sid)
    as Hinv.
  destruct (socketData (gw (run cmds initialState)) !! sid) as [sd|];
    [right; apply (Hinv sd eq_refl) | left; auto].
Qed.

(** ** Injecting an event *)

(** X23. An admin's event:create with a severity of the enumeration, in any
    letter case. In every state the process reaches, when the socket's last
    join carried the admin flag and the upper-cased severity is the key of
    the member [v], the command is turned down only if the socket joined
    the room of empty code (one "Salle introuvable" error to the socket,
    nothing written); otherwise exactly one event row is appended, for the
    socket's room, of severity [v] and source MANUAL, triggered now and
    not acknowledged, followed by one EVENT message whose author is the
    socket's display name (never the "Formateur" default), whose content is
    the description and whose metadata carry the upper-cased severity; the
    room gets the event and then the announcement; rooms, participants,
    schedulers and connections are untouched. *)
Theorem admin_event_create cmds e sid payload v :
  let s := run cmds initialState in
  let s' := Gateway.handleManualEvent e sid payload s in
  isAdminConnection sid s = true ->
  severityOfKey (Js.toUpperCase (Gateway.ec_severity payload)) = Some v ->
  exists code roomId name,
    sd_roomCode (Gateway.dataOf sid (gw s)) = Some code /\
    sd_roomId (Gateway.dataOf sid (gw s)) = Some roomId /\
    sd_displayName (Gateway.dataOf sid (gw s)) = Some name /\
    roomIdOf code (db s) = Some roomId /\
    rooms (db s') = rooms (db s) /\
    participants (db s') = participants (db s) /\
    sched s' = sched s /\
    roomConnections (gw s') = roomConnections (gw s) /\
    if Js.truthy code
    then
      crisisEvents (db s')
      = crisisEvents (db s)
        ++ [mkCrisisEvent (nextId (db s)) roomId (Gateway.ec_title payload)
              (Gateway.ec_description payload) v MANUAL None (now e) None
              None] /\
      messages (db s')
      = messages (db s)
        ++ [mkMessage (S (nextId (db s))) roomId (Some name) EVENT
              (Gateway.ec_description payload)
              (Some (severityName v, MANUAL)) (now e)] /\
      outbox (gw s')
      = outbox (gw s)
        ++ [mkEmission (ToRoom code)
              (EventCreated (nextId (db s)) (Gateway.ec_title payload)
                 (Gateway.ec_description payload) (severityName v) "MANUAL"
                 (now e));
            mkEmission (ToRoom code)
              (SystemAnnouncement
                 ("Injection formateur : " ++ Gateway.ec_title payload)%string)]
    else
      db s' = db s /\
      outbox (gw s')
      = outbox (gw s)
        ++ [mkEmission (ToSocket sid)
              (SystemError "Salle introuvable côté serveur.")].
Proof.
  cbv zeta. intros Hadm Hsev.
  pose proof (run_BoundInv cmds initialState DbInv_initial BoundInv_initial sid)
    as Hinv.
  pose proof (severityOfKey_name _ _ Hsev) as Hname.
  unfold Gateway.handleManualEvent, isAdminConnection, Gateway.dataOf in *.
  cbv zeta.
  destruct (socketData (gw (run cmds initialState)) !! sid) as [sd|];
    [|discriminate].
  destruct (Hinv sd eq_refl) as (code & roomId & p & adm & -> & _ & Hid & _).
  cbn [default from_option sd_isAdmin sd_roomId sd_roomCode sd_displayName
       id] in *.
  rewrite Hadm. cbn [negb].
  exists code, roomId, (part_displayName p).
  do 4 (split; [reflexivity || exact Hid|]).
  destruct (Js.truthy code); cbn [negb].
  - rewrite Hsev, Hname. simpl. unfold Gateway.emit. simpl.
    rewrite <- app_assoc. repeat (split; try reflexivity).
  - simpl. repeat (split; try reflexivity).
Qed.

Lemma admin_event_create_witness :
  let s := run [(env 1, RoomJoin "s1" "ABCD1" "FORM1" true)] initialState in
  let payload := Gateway.mkEventCreate "ABCD1" "Coupure" "panne" "High" in
  let s' := Gateway.handleManualEvent (env 2) "s1" payload s in
  isAdminConnection "s1" s = true /\
  severityOfKey (Js.toUpperCase (Gateway.ec_severity payload)) = Some HIGH /\
  exists code roomId name,
    sd_roomCode (Gateway.dataOf "s1" (gw s)) = Some code /\
    sd_roomId (Gateway.dataOf "s1" (gw s)) = Some roomId /\
    sd_displayName (Gateway.dataOf "s1" (gw s)) = Some name /\
    roomIdOf code (db s) = Some roomId /\
    rooms (db s') = rooms (db s) /\
    participants (db s') = participants (db s) /\
    sched s' = sched s /\
    roomConnections (gw s') = roomConnections (gw s) /\
    if Js.truthy code
    then
      crisisEvents (db s')
      = crisisEvents (db s)
        ++ [mkCrisisEvent (nextId (db s)) roomId "Coupure" "panne" HIGH MANUAL
              None 2 None None] /\
      messages (db s')
      = messages (db s)
        ++ [mkMessage (S (nextId (db s))) roomId (Some name) EVENT "panne"
              (Some ("HIGH", MANUAL)) 2] /\
      outbox (gw s')
      = outbox (gw s)
        ++ [mkEmission (ToRoom code)
              (EventCreated (nextId (db s)) "Coupure" "panne" "HIGH" "MANUAL"
                 2);
            mkEmission (ToRoom code)
              (SystemAnnouncement "Injection formateur : Coupure")]
    else
      db s' = db s /\
      outbox (gw s')
      = outbox (gw s)
        ++ [mkEmission (ToSocket "s1")
              (SystemError "Salle introuvable côté serveur.")].
Proof.
  split; [reflexivity|]. split; [reflexivity|].
  exact (admin_event_create [(env 1, RoomJoin "s1" "ABCD1" "FORM1" true)]
           (env 2) "s1" (Gateway.mkEventCreate "ABCD1" "Coupure" "panne" "High")
           HIGH eq_refl eq_refl).
Defined.

(** ** Joining, then leaving *)

Lemma stop_after_start r roomCode sc :
  SchedInv sc -> activeSchedulers sc !! roomCode = None ->
  Scheduler.stopRoomScheduler roomCode
    (Scheduler.startRoomScheduler r roomCode sc)
  = mkSched (activeSchedulers sc) (timers sc) (S (nextTimer sc)) (emitted sc).
Proof.
  intros Hinv Hnone.
  assert (Hfresh : timers sc !! nextTimer sc = None).
  { destruct (timers sc !! nextTimer sc) as [t|] eqn:Ht; [|reflexivity].
    destruct (Hinv _ _ Ht). lia. }
  unfold Scheduler.startRoomScheduler. rewrite Hnone.
  unfold Scheduler.stopRoomScheduler. simpl. rewrite lookup_insert_eq. simpl.
  rewrite !delete_insert_id by assumption. reflexivity.
Qed.

Lemma handleLeave_emits e sid roomCode s :
  outbox (gw (Gateway.handleLeave e sid roomCode s))
  = outbox (gw s)
    ++ match sd_roomId (Gateway.dataOf sid (gw s)) with
       | Some rid =>
           [mkEmission (ToRoom (Js.toUpperCase roomCode))
              (ParticipantUpdate
                 (List.map Gateway.viewOf
                    (Prisma.participant_findMany rid
                       (db (Gateway.handleLeave e sid roomCode s)))))]
       | None => []
       end
    ++ match sd_displayName (Gateway.dataOf sid (gw s)) with
       | Some name =>
           if Js.truthy name
           then [mkEmission (ToRoom (Js.toUpperCase roomCode))
                   (SystemAnnouncement (name ++ " a quitté la salle.")%string)]
           else []
       | None => []
       end.
Proof.
  rewrite handleLeave_db.
  unfold Gateway.handleLeave, Gateway.broadcastParticipants.
  destruct (roomConnections (Gateway.socketLeave sid _ (gw s)) !! _) as [c|];
    [destruct (Nat.eqb _ _)|];
    destruct (sd_roomId _), (sd_displayName _) as [name|];
    try destruct (Js.truthy name); simpl;
    unfold Gateway.socketLeave; simpl;
    rewrite ?app_nil_r, <- ?app_assoc; reflexivity.
Qed.

Lemma leave_unattached (c0 : gset string) (sid : string) :
  sid ∉ c0 -> (c0 ∪ {[sid]}) ∖ {[sid]} = c0.
Proof.
  intros Hnot. apply set_eq. intros y.
  rewrite elem_of_difference, elem_of_union, elem_of_singleton.
  split; [intros [[Hy|Hy] Hne]; [exact Hy | contradiction]|].
  intros Hy. split; [left; exact Hy|]. intros ->. contradiction.
Qed.

Lemma leave_unjoined_frame e sid roomCode s :
  MemberInv (gw s) -> RegInv (gw s) -> unjoined sid s ->
  let s' := Gateway.handleLeave e sid roomCode s in
  db s' = db s /\ sched s' = sched s /\
  roomConnections (gw s') = roomConnections (gw s) /\
  socketData (gw s') = socketData (gw s) /\
  outbox (gw s') = outbox (gw s).
Proof.
  intros Hmem Hreg Hun s'. unfold unjoined in Hun.
  assert (Hd : Gateway.dataOf sid (gw s) = freshSocketData).
  { unfold Gateway.dataOf. rewrite Hun. reflexivity. }
  assert (Hnot : forall c, roomConnections (gw s) !! Js.toUpperCase roomCode
                           = Some c -> c ∖ {[sid]} = c).
  { intros c Hc. apply set_eq. intros x. rewrite elem_of_difference.
    split; [tauto|]. intros Hx. split; [exact Hx|].
    rewrite elem_of_singleton. intros ->.
    destruct (Hmem _ _ _ Hc Hx) as [sd Hsd]. congruence. }
  split; [unfold s'; rewrite handleLeave_db, Hd; reflexivity|].
  split.
  { unfold s'. rewrite handleLeave_sched. unfold lastConnection.
    destruct (roomConnections (gw s) !! Js.toUpperCase roomCode) as [c|]
      eqn:Hc; [|reflexivity].
    rewrite (Hnot c eq_refl).
    destruct (Nat.eqb (size c) 0) eqn:Hsize; [|reflexivity].
    apply Nat.eqb_eq, size_empty_inv, leibniz_equiv in Hsize.
    destruct (Hreg _ _ Hc Hsize). }
  split.
  { unfold s'. rewrite handleLeave_connections.
    destruct (roomConnections (gw s) !! Js.toUpperCase roomCode) as [c|]
      eqn:Hc; [|reflexivity].
    rewrite (Hnot c eq_refl).
    destruct (Nat.eqb (size c) 0) eqn:Hsize.
    - apply Nat.eqb_eq, size_empty_inv, leibniz_equiv in Hsize.
      destruct (Hreg _ _ Hc Hsize).
    - apply insert_id, Hc. }
  split; [apply handleLeave_socketData|].
  unfold s'. rewrite handleLeave_emits, Hd.
  cbn [sd_roomId sd_displayName freshSocketData]. apply app_nil_r.
Qed.

Lemma joinLookup_success e sid roomCode displayName isAdmin s room d1 :
  Gateway.resolveRoom e (Js.toUpperCase roomCode) isAdmin (db s)
  = Some (room, d1) ->
  Gateway.joinLookup e sid roomCode displayName isAdmin s
  = (Some (Gateway.mkPending (Js.toUpperCase roomCode) room displayName
             isAdmin
             (Prisma.participant_findFirst (room_id room) displayName d1)),
     mkState d1 (sched s) (gw s)).
Proof. intros Hr. unfold Gateway.joinLookup. rewrite Hr. reflexivity. Qed.

Lemma joinCommit_frame e sid pj s t :
  db s = db t -> sched s = sched t ->
  roomConnections (gw s) = roomConnections (gw t) ->
  socketData (gw s) = socketData (gw t) ->
  outbox (gw s) = outbox (gw t) ->
  let s' := Gateway.joinCommit e sid pj s in
  let t' := Gateway.joinCommit e sid pj t in
  db s' = db t' /\ sched s' = sched t' /\
  roomConnections (gw s') = roomConnections (gw t') /\
  socketData (gw s') = socketData (gw t') /\
  outbox (gw s') = outbox (gw t').
Proof.
  intros Hd Hs Hr Hsd Ho. cbv zeta. unfold Gateway.joinCommit. cbv zeta.
  rewrite Hd, Hs.
  destruct (match Gateway.pj_existing pj with
            | Some existingParticipant => _
            | None => _
            end) as [participant d2].
  unfold Gateway.broadcastParticipants, Gateway.emit, Gateway.with_connections,
    Gateway.setData, Gateway.socketJoin.
  cbn [db sched gw roomConnections socketData outbox].
  rewrite Hr, Hsd, Ho. auto.
Qed.

Lemma joinCommit_attaches e sid pj s :
  let s' := Gateway.joinCommit e sid pj s in
  (exists connections,
      roomConnections (gw s') !! Gateway.pj_code pj = Some connections /\
      sid ∈ connections) /\
  is_Some (socketData (gw s') !! sid).
Proof.
  cbv zeta. unfold Gateway.joinCommit. cbv zeta.
  destruct (match Gateway.pj_existing pj with
            | Some existingParticipant => _
            | None => _
            end) as [participant d2].
  unfold Gateway.broadcastParticipants, Gateway.emit, Gateway.with_connections,
    Gateway.setData, Gateway.socketJoin.
  cbn [db sched gw roomConnections socketData outbox].
  split.
  - eexists. split; [apply lookup_insert_eq|].
    apply elem_of_union_r, elem_of_singleton. reflexivity.
  - rewrite lookup_insert_eq. eauto.
Qed.

(** X24. A join and a leave of the same socket, in both orders of handling.
    In every state the process reaches, for a socket that is not attached
    to the room and a join that finds the room (or creates it, for an
    admin):
    - when the leave is handled after the join has run to its end, the
      connection registry is exactly what it was before the join; the row
      the socket was bound to is made disconnected, with [leftAt] the time
      of the leave, and the rows of other ids are untouched by the leave;
      if the room had no connection before, the scheduler registrations
      and pending timeouts are those from before the join (an admin's
      scheduler is stopped again), and if it had, the leave does not touch
      the scheduler (an admin's scheduler keeps running for those who
      remain); the leave emits the participant list and then, unless the
      display name is empty, the announcement;
    - when the leave of a socket that never joined is handled while its
      join awaits between [findFirst] and the upsert, the leave is lost:
      store, scheduler, registry, socket data and emissions end as if the
      leave had never been sent, and the socket is attached to the room. *)
Theorem join_then_leave cmds e e' e'' sid roomCode displayName isAdmin :
  let s := run cmds initialState in
  let code := Js.toUpperCase roomCode in
  let s1 := Gateway.handleJoin e sid roomCode displayName isAdmin s in
  let s2 := Gateway.handleLeave e' sid roomCode s1 in
  let lost :=
    current (schedule [(e, JoinLookup sid roomCode displayName isAdmin);
                       (e', Whole (RoomLeave sid roomCode));
                       (e'', JoinCommit sid)] (settled s)) in
  let alone :=
    current (schedule [(e, JoinLookup sid roomCode displayName isAdmin);
                       (e'', JoinCommit sid)] (settled s)) in
  is_Some (Prisma.room_findUnique code (db s)) \/ isAdmin = true ->
  (forall c, roomConnections (gw s) !! code = Some c -> sid ∉ c) ->
  roomConnections (gw s2) = roomConnections (gw s) /\
  (exists roomId p,
      roomIdOf code (db s1) = Some roomId /\
      In p (rowsOf roomId displayName (db s1)) /\
      sd_participantId (Gateway.dataOf sid (gw s1)) = Some (part_id p) /\
      In (Prisma.disconnect (now e') p) (participants (db s2)) /\
      (forall q, In q (participants (db s1)) -> part_id q <> part_id p ->
                 In q (participants (db s2))) /\
      outbox (gw s2)
      = outbox (gw s1)
        ++ [mkEmission (ToRoom code)
              (ParticipantUpdate
                 (List.map Gateway.viewOf
                    (Prisma.participant_findMany roomId (db s2))))]
        ++ (if Js.truthy displayName
            then [mkEmission (ToRoom code)
                    (SystemAnnouncement
                       (displayName ++ " a quitté la salle.")%string)]
            else [])) /\
  match roomConnections (gw s) !! code with
  | None =>
      activeSchedulers (sched s2) = activeSchedulers (sched s) /\
      timers (sched s2) = timers (sched s)
  | Some _ => sched s2 = sched s1
  end /\
  (unjoined sid s ->
   db lost = db alone /\ sched lost = sched alone /\
   roomConnections (gw lost) = roomConnections (gw alone) /\
   socketData (gw lost) = socketData (gw alone) /\
   outbox (gw lost) = outbox (gw alone) /\
   (exists connections,
       roomConnections (gw lost) !! code = Some connections /\
       sid ∈ connections) /\
   is_Some (socketData (gw lost) !! sid)).
Proof.
  intros s code s1 s2 lost alone Hjoin Hfree.
  assert (Hreg : RegInv (gw s)) by apply run_RegInv, RegInv_initial.
  assert (Hmem : MemberInv (gw s)) by apply run_MemberInv, MemberInv_initial.
  assert (Hsch : SchedInv (sched s))
    by apply (run_SchedInv cmds initialState), SchedInv_empty.
  assert (Hconn : ConnInv s)
    by apply (run_ConnInv cmds initialState SchedInv_empty ConnInv_initial).
  assert (Hres : exists room d1,
             Gateway.resolveRoom e code isAdmin (db s) = Some (room, d1)).
  { unfold Gateway.resolveRoom.
    destruct Hjoin as [[r ->]| ->]; [eauto|].
    destruct (Prisma.room_findUnique _ _); simpl; eauto. }
  destruct Hres as (room & d1 & Hres).
  destruct (upsert_fst_in e (room_id room) displayName isAdmin d1)
    as (Hrow & Hname & Hroom & _).
  pose proof (resolveRoom_roomIdOf _ _ _ _ _ _ Hres) as Hid.
  pose proof (handleJoin_success e sid roomCode displayName isAdmin s room d1
                Hres) as Hs1.
  cbv zeta in Hs1. fold code s1 in Hs1.
  set (up := Gateway.upsertParticipant e (room_id room) displayName isAdmin d1)
    in *.
  assert (Hdata : Gateway.dataOf sid (gw s1)
                  = mkSocketData (Some code) (Some (room_id room))
                      (Some (part_id (fst up))) (Some displayName)
                      (Some isAdmin)).
  { rewrite Hs1. unfold Gateway.dataOf. cbn [gw socketData].
    rewrite lookup_insert_eq, Hname. reflexivity. }
  assert (Hc1 : roomConnections (gw s1) !! code
                = Some (default ∅ (roomConnections (gw s) !! code) ∪ {[sid]})).
  { rewrite Hs1. cbn [gw roomConnections]. apply lookup_insert_eq. }
  assert (Hrc1 : roomConnections (gw s1)
                 = <[code := default ∅ (roomConnections (gw s) !! code)
                             ∪ {[sid]}]> (roomConnections (gw s))).
  { rewrite Hs1. reflexivity. }
  assert (Hsc1 : sched s1
                 = if isAdmin
                   then Scheduler.startRoomScheduler (rnd1 e) code (sched s)
                   else sched s).
  { rewrite Hs1. reflexivity. }
  assert (Hd1 : db s1 = snd up) by (rewrite Hs1; reflexivity).
  assert (Hd2 : participants (db s2)
                = List.map (fun q => if Nat.eqb (part_id q) (part_id (fst up))
                                     then Prisma.disconnect (now e') q else q)
                    (participants (db s1))).
  { unfold s2. rewrite handleLeave_db, Hdata. reflexivity. }
  assert (Hin : In (fst up) (participants (db s1))).
  { rewrite Hd1. apply filter_In in Hrow as [H _]. exact H. }
  split.
  { unfold s2. rewrite handleLeave_connections. fold code. rewrite Hc1, Hrc1.
    destruct (roomConnections (gw s) !! code) as [c0|] eqn:Hc0;
      cbn [default from_option id].
    - rewrite (leave_unattached c0 sid (Hfree c0 eq_refl)).
      destruct (Nat.eqb (size c0) 0) eqn:Hsz.
      + apply Nat.eqb_eq, size_empty_inv in Hsz.
        destruct (Hreg _ _ Hc0). apply leibniz_equiv, Hsz.
      + rewrite insert_insert_eq. apply insert_id, Hc0.
    - rewrite (leave_unattached ∅ sid) by apply not_elem_of_empty.
      rewrite size_empty. cbn [Nat.eqb]. apply delete_insert_id, Hc0. }
  split.
  { exists (room_id room), (fst up).
    split.
    { rewrite Hd1. unfold roomIdOf, Prisma.room_findUnique in *. unfold up.
      rewrite upsert_rooms. exact Hid. }
    split; [rewrite Hd1; exact Hrow|].
    split; [rewrite Hdata; reflexivity|].
    split.
    { rewrite Hd2. apply in_map_iff. exists (fst up).
      rewrite Nat.eqb_refl. auto. }
    split.
    { intros q Hq Hne. rewrite Hd2. apply in_map_iff. exists q.
      split; [|exact Hq].
      destruct (Nat.eqb (part_id q) (part_id (fst up))) eqn:Hqid;
        [|reflexivity].
      apply Nat.eqb_eq in Hqid. contradiction. }
    unfold s2. rewrite handleLeave_emits, Hdata. cbn [sd_roomId sd_displayName].
    fold code. reflexivity. }
  split.
  { unfold s2. rewrite handleLeave_sched. fold code.
    unfold lastConnection. rewrite Hc1.
    destruct (roomConnections (gw s) !! code) as [c0|] eqn:Hc0;
      cbn [default from_option id].
    - rewrite (leave_unattached c0 sid (Hfree c0 eq_refl)).
      destruct (Nat.eqb (size c0) 0) eqn:Hsz; [|reflexivity].
      apply Nat.eqb_eq, size_empty_inv in Hsz.
      destruct (Hreg _ _ Hc0). apply leibniz_equiv, Hsz.
    - rewrite (leave_unattached ∅ sid) by apply not_elem_of_empty.
      rewrite size_empty. cbn [Nat.eqb].
      assert (Hnone : activeSchedulers (sched s) !! code = None).
      { destruct (activeSchedulers (sched s) !! code) as [h|] eqn:Ha;
          [|reflexivity].
        destruct (Hconn _ _ Ha) as [c Hc]. congruence. }
      rewrite Hsc1. destruct isAdmin.
      + rewrite (stop_after_start _ _ _ Hsch Hnone). split; reflexivity.
      + unfold Scheduler.stopRoomScheduler. rewrite Hnone.
        split; reflexivity. }
  intros Hun. unfold lost, alone, schedule, settled.
  cbn [List.fold_left segment current awaiting].
  rewrite (joinLookup_success _ _ _ _ _ _ _ _ Hres).
  cbn [current awaiting step]. rewrite !lookup_insert_eq.
  cbn [current].
  set (pj := Gateway.mkPending (Js.toUpperCase roomCode) room displayName
               isAdmin
               (Prisma.participant_findFirst (room_id room) displayName d1)).
  set (looked := mkState d1 (sched s) (gw s)).
  destruct (leave_unjoined_frame e' sid roomCode looked Hmem Hreg Hun)
    as (F1 & F2 & F3 & F4 & F5).
  destruct (joinCommit_frame e'' sid pj _ _ F1 F2 F3 F4 F5)
    as (G1 & G2 & G3 & G4 & G5).
  split; [exact G1|]. split; [exact G2|]. split; [exact G3|].
  split; [exact G4|]. split; [exact G5|].
  apply (joinCommit_attaches e'' sid pj).
Qed.

Lemma join_then_leave_witness :
  let s := run [] initialState in
  let s1 := Gateway.handleJoin (env 1) "s1" "abcd1" "FORM1" true s in
  let s2 := Gateway.handleLeave (env 2) "s1" "abcd1" s1 in
  let lost :=
    current (schedule [(env 1, JoinLookup "s1" "abcd1" "FORM1" true);
                       (env 2, Whole (RoomLeave "s1" "abcd1"));
                       (env 3, JoinCommit "s1")] (settled s)) in
  (is_Some (Prisma.room_findUnique "ABCD1" (db s)) \/ true = true) /\
  (forall c, roomConnections (gw s) !! "ABCD1" = Some c -> "s1" ∉ c) /\
  unjoined "s1" s /\
  is_Some (activeSchedulers (sched s1) !! "ABCD1") /\
  roomConnections (gw s2) = roomConnections (gw s) /\
  (activeSchedulers (sched s2) = activeSchedulers (sched s) /\
   timers (sched s2) = timers (sched s)) /\
  exists connections,
    roomConnections (gw lost) !! "ABCD1" = Some connections /\
    "s1" ∈ connections.
Proof.
  assert (Hjoin : is_Some (Prisma.room_findUnique "ABCD1"
                             (db (run [] initialState))) \/ true = true)
    by (right; reflexivity).
  assert (Hfree : forall c : gset string,
             roomConnections (gw (run [] initialState)) !! "ABCD1" = Some c ->
             "s1" ∉ c).
  { intros c Hc. simpl in Hc. rewrite lookup_empty in Hc. discriminate. }
  assert (Hun : unjoined "s1" (run [] initialState)) by reflexivity.
  destruct (join_then_leave [] (env 1) (env 2) (env 3) "s1" "abcd1" "FORM1"
              true Hjoin Hfree) as (Hrc & _ & Hs & Hlost).
  destruct (Hlost Hun) as (_ & _ & _ & _ & _ & Hattached & _).
  split; [exact Hjoin|]. split; [exact Hfree|]. split; [exact Hun|].
  split; [vm_compute; eauto|]. split; [exact Hrc|].
  split; [exact Hs | exact Hattached].
Defined.

(** ** Generated room codes *)

Lemma chars_append s t : chars (s ++ t)%string = chars s ++ chars t.
Proof.
  induction s as [|c s IH]; [reflexivity|].
  change (c :: chars (s ++ t)%string = c :: (chars s ++ chars t)).
  f_equal. exact IH.
Qed.

Lemma append_empty_r s : (s ++ "")%string = s.
Proof.
  induction s as [|c s IH]; [reflexivity|].
  change (String c (s ++ "")%string = String c s). f_equal. exact IH.
Qed.

Lemma concat_empty_cons x l :
  String.concat "" (x :: l) = (x ++ String.concat "" l)%string.
Proof. destruct l; simpl; [rewrite append_empty_r|]; reflexivity. Qed.

Lemma get_chars i s c : String.get i s = Some c -> In c (chars s).
Proof.
  revert i. induction s as [|a s IH]; intros i; simpl; [discriminate|].
  destruct i as [|i]; [intros [= ->]; auto | eauto].
Qed.

Lemma get_in_range i s : i < String.length s -> is_Some (String.get i s).
Proof.
  revert i. induction s as [|a s IH]; intros i; simpl; [lia|].
  destruct i as [|i]; [eauto | intros H; apply IH; lia].
Qed.

Lemma mapString_fixed f s :
  (forall c, In c (chars s) -> f c = c) -> Js.mapString f s = s.
Proof.
  induction s as [|c s IH]; simpl; [reflexivity|]. intros H.
  rewrite (H c), IH; auto.
Qed.

Lemma trimEnd_fixed s :
  (forall c, In c (chars s) -> Js.isSpace c = false) -> Js.trimEnd s = s.
Proof.
  induction s as [|c s IH]; simpl; [reflexivity|]. intros H.
  rewrite IH by auto. destruct s; [rewrite (H c) by auto|]; reflexivity.
Qed.

Lemma trim_fixed s :
  (forall c, In c (chars s) -> Js.isSpace c = false) -> Js.trim s = s.
Proof.
  intros H. unfold Js.trim. rewrite trimStart_fixed.
  - apply trimEnd_fixed, H.
  - destruct s as [|c s]; [exact I|]. apply H. left. reflexivity.
Qed.

Lemma alphabet_chars c :
  In c (chars RoomAccessForm.alphabet) ->
  ~ In c (chars "IO01") /\ Js.isSpace c = false /\ Js.upperAscii c = c.
Proof.
  intros Hin. simpl in Hin.
  repeat (destruct Hin as [<-|Hin];
          [split; [simpl; intros H; repeat (destruct H as [H|H];
                                            [discriminate|]); exact H
                  | split; reflexivity]|]).
  destruct Hin.
Qed.

Lemma generated_chars (index : nat -> nat) l :
  (forall i, index i < String.length RoomAccessForm.alphabet) ->
  let code :=
    String.concat ""
      (List.map (fun i => RoomAccessForm.charAt (index i)
                            RoomAccessForm.alphabet) l) in
  String.length code = List.length l /\
  forall c, In c (chars code) -> In c (chars RoomAccessForm.alphabet).
Proof.
  intros Hidx. cbv zeta.
  induction l as [|i l [IHlen IHin]]; [split; [reflexivity | intros c []]|].
  cbn [List.map]. rewrite concat_empty_cons.
  unfold RoomAccessForm.charAt at 1 3.
  destruct (get_in_range _ _ (Hidx i)) as [a Ha]. rewrite Ha.
  match goal with
  | |- context [(String a "" ++ ?x)%string] =>
      change (String a "" ++ x)%string with (String a x)
  end.
  split.
  - cbn [String.length List.length]. rewrite IHlen. reflexivity.
  - intros c. cbn [chars]. intros [<-|Hc]; [|auto].
    eapply get_chars, Ha.
Qed.

(** X25. A generated room code, [generateCode(length)] with any random
    samples: it has exactly [length] characters, all taken from the
    alphabet, so it holds none of the look-alikes I, O, 0 and 1, no white
    space and no lower-case letter; [trim()] and [toUpperCase()], which the
    form, the page and [handleJoin] apply to a room code, leave it as it
    is; and it is empty only for length 0. *)
Theorem generateCode_normalised length random :
  let code := RoomAccessForm.generateCode length random in
  String.length code = length /\
  (forall c, In c (chars code) ->
             In c (chars RoomAccessForm.alphabet) /\
             ~ In c (chars "IO01") /\ Js.isSpace c = false /\
             Js.upperAscii c = c) /\
  Js.toUpperCase code = code /\ Js.trim code = code /\
  Js.truthy code = negb (Nat.eqb length 0).
Proof.
  cbv zeta. unfold RoomAccessForm.generateCode.
  destruct (generated_chars
              (fun i => N.to_nat
                          (Js.floorRandomTimes (random i)
                             (N.of_nat (String.length RoomAccessForm.alphabet))))
              (List.seq 0 length)) as [Hlen Hin].
  { intros i.
    pose proof (floorRandomTimes_lt (random i)
                  (N.of_nat (String.length RoomAccessForm.alphabet))
                  eq_refl). lia. }
  cbv zeta in Hlen, Hin. rewrite length_seq in Hlen.
  split; [exact Hlen|].
  split; [intros c Hc; split; [|apply alphabet_chars]; apply Hin, Hc|].
  split; [apply mapString_fixed; intros c Hc; apply alphabet_chars, Hin, Hc|].
  split; [apply trim_fixed; intros c Hc; apply alphabet_chars, Hin, Hc|].
  destruct (String.concat _ _); destruct length; simpl in *;
    try reflexivity; discriminate.
Qed.

(** ** The room page and the join it leads to *)

Lemma join_refused_iff e sid roomCode displayName isAdmin s :
  joinRefused sid s (Gateway.handleJoin e sid roomCode displayName isAdmin s)
  <-> Gateway.resolveRoom e (Js.toUpperCase roomCode) isAdmin (db s) = None.
Proof.
  split.
  - intros (_ & message & Hout).
    destruct (Gateway.resolveRoom _ _ _ _) as [[room d1]|] eqn:Hr;
      [|reflexivity].
    rewrite (handleJoin_success _ _ _ _ _ _ _ _ Hr) in Hout.
    cbn [gw outbox] in Hout. apply app_inv_head in Hout. discriminate.
  - intros Hr. unfold joinRefused, Gateway.handleJoin. rewrite Hr.
    split; [reflexivity|]. eexists. reflexivity.
Qed.

(** X26. The room page and the socket agree on who gets in. Against the same
    store, the page ends in a 404 exactly when the join it would send (the
    page's upper-cased code, parsed display name and admin flag) is refused
    by [handleJoin]. The parsed display name is never blank and carries no
    surrounding white space: a missing, repeated or blank [name] becomes
    the default guest name. The admin flag is off exactly when the [admin]
    parameter (its first value when repeated) is absent, empty, "0" or
    "false"; any other value grants it. *)
Theorem room_page_gate paramCode name rawAdmin e sid s :
  let code := RoomPage.code paramCode in
  let displayName := RoomPage.displayName name in
  let isAdmin := RoomPage.isAdmin rawAdmin in
  let s' := Gateway.handleJoin e sid code displayName isAdmin s in
  (RoomPage.notFound paramCode rawAdmin (db s) = true
   <-> joinRefused sid s s') /\
  Js.trim displayName = displayName /\ Js.truthy displayName = true /\
  (isAdmin = false
   <-> In (RoomPage.adminToken rawAdmin)
         [None; Some ""%string; Some "0"%string; Some "false"%string]).
Proof.
  cbv zeta. split; [|split; [|split]].
  - rewrite join_refused_iff. unfold RoomPage.notFound, RoomPage.code.
    rewrite toUpperCase_idempotent. unfold Gateway.resolveRoom.
    destruct (Prisma.room_findUnique _ (db s)).
    + split; discriminate.
    + destruct (RoomPage.isAdmin rawAdmin); simpl; split;
        (reflexivity || discriminate).
  - unfold RoomPage.displayName. destruct name as [|v|l]; try reflexivity.
    destruct (0 <? _)%nat; [apply trim_idempotent | reflexivity].
  - unfold RoomPage.displayName. destruct name as [|v|l]; try reflexivity.
    destruct (0 <? _)%nat eqn:Hlen; [|reflexivity].
    destruct (Js.trim v); [discriminate | reflexivity].
  - unfold RoomPage.isAdmin.
    destruct (RoomPage.adminToken rawAdmin) as [token|];
      [|split; cbn [In]; auto].
    destruct token as [|c t]; [split; cbn [In]; auto|].
    cbn [Js.truthy andb].
    destruct (String.eqb_spec (String c t) "0") as [H0|H0];
      [rewrite H0; split; cbn [In]; auto|].
    destruct (String.eqb_spec (String c t) "false") as [Hf|Hf];
      [rewrite Hf; split; cbn [In]; auto 6|].
    split; [discriminate|].
    cbn [In]. intros [H|[H|[H|[H|[]]]]]; congruence.
Qed.
